(** * xfsgo account state layer: StateDB, stateObject and the account record codec

    A shallow embedding of [state/state_object.go] and of the StateDB that
    sits on top of it.  Go pointers ([*big.Int], [*stateObject],
    [*avlmerkle.Tree], the storage handle) are references into an explicit
    heap, so that the aliasing the code creates is visible in the model. *)

From Stdlib Require Import ZArith NArith String Ascii List Lia.
From Stdlib.Strings Require Import Byte.
From Stdlib Require Import DecimalString DecimalN DecimalPos.
From stdpp Require Import gmap strings list vector sorting.

Local Open Scope string_scope.
Local Open Scope Z_scope.

(** ** Byte strings *)

#[global] Instance byte_eq_dec : EqDecision byte := Byte.byte_eq_dec.

#[global] Instance byte_countable : Countable byte :=
  inj_countable Byte.to_N Byte.of_N Byte.of_to_N.

(** A Go slice [[]byte]: [None] is the nil slice. *)
Definition slice : Type := option (list byte).

Definition slice_bytes (s : slice) : list byte := default [] s.

(** ** encoding/hex *)

Module hex.

Definition hextable : string := "0123456789abcdef".

Definition digit (n : N) : ascii :=
  default "0"%char (String.get (N.to_nat n) hextable).

(** [fromHexChar]: both cases of the letters are accepted. *)
Definition fromHexChar (c : ascii) : option N :=
  let n := N_of_ascii c in
  if ((48 <=? n) && (n <=? 57))%N then Some (n - 48)%N
  else if ((97 <=? n) && (n <=? 102))%N then Some (n - 97 + 10)%N
  else if ((65 <=? n) && (n <=? 70))%N then Some (n - 65 + 10)%N
  else None.

Fixpoint EncodeToString (src : list byte) : string :=
  match src with
  | [] => EmptyString
  | b :: rest =>
      let n := Byte.to_N b in
      String (digit (N.shiftr n 4))
        (String (digit (N.land n 15)) (EncodeToString rest))
  end.

(** [DecodeString]: [None] stands for a non-nil error (odd length or a
    character that is no hexadecimal digit). *)
Fixpoint DecodeString (s : string) : option (list byte) :=
  match s with
  | EmptyString => Some []
  | String _ EmptyString => None
  | String a (String b rest) =>
      match fromHexChar a, fromHexChar b with
      | Some hi, Some lo =>
          match Byte.of_N (N.lor (N.shiftl hi 4) lo), DecodeString rest with
          | Some x, Some xs => Some (x :: xs)
          | _, _ => None
          end
      | _, _ => None
      end
  end.

End hex.

(** ** math/big: the base-10 text of an integer *)

Module big.

(** [Int.Text(10)] of a non-nil receiver. *)
Definition Text10 (z : Z) : string :=
  let digits := NilZero.string_of_uint (N.to_uint (Z.abs_N z)) in
  if z <? 0 then String "-" digits else digits.

(** The text Go prints for a nil receiver. *)
Definition nilText : string := "<nil>".

Definition digits_value (s : string) : option Z :=
  (fun d => Z.of_N (N.of_uint d)) <$> NilZero.uint_of_string s.

(** [Int.SetString(s, 10)]: an optional sign, then at least one
    decimal digit, and nothing else. *)
Definition SetString10 (s : string) : option Z :=
  match s with
  | String "-" r => Z.opp <$> digits_value r
  | String "+" r => digits_value r
  | _ => digits_value s
  end.

(** [Int.Uint64]: the low 64 bits of the magnitude. *)
Definition Uint64 (z : Z) : Z := Z.abs z mod 2 ^ 64.

End big.

(** Wrap-around of Go's [uint64]. *)
Definition wrap64 (z : Z) : Z := z mod 2 ^ 64.

(** ** Packages of the repository that the state layer imports

    [xfsgo/common] (addresses, hashes, the string-map codec) and
    [xfsgo/common/ahash] are used by the state layer through the
    operations below.  The development is parametric in them. *)

Class Imports := {
  (** [common.Address], a fixed-size byte array *)
  Address : Type;
  Address_eq_dec :: EqDecision Address;
  Address_countable :: Countable Address;
  (** the zero value [common.Address{}] *)
  AddressZ : Address;
  (** [addr.Bytes()], [addr[:]] *)
  Address_Bytes : Address -> list byte;
  (** [addr.String()] *)
  Address_String : Address -> string;
  StrB58ToAddress : string -> Address;
  (** [common.Hash], a 32-byte array *)
  Hash : Type;
  (** the zero hash: [common.Hash{}], [common.HashZ] *)
  HashZ : Hash;
  (** [h[:]] *)
  Hash_Bytes : Hash -> list byte;
  Bytes2Hash : list byte -> Hash;
  (** [common.StringDecodeMap]; [None] is the nil map *)
  StringDecodeMap : string -> option (gmap string string);
  SortAndEncodeMap : gmap string string -> string;
  (** [ahash.SHA256] *)
  SHA256 : list byte -> list byte;
  (** [crypto.Keccak256Hash] *)
  Keccak256Hash : list byte -> Hash;
  (** Modelled from the spec: the deterministic content-derived root that
      the tree engine computes for the content of a tree *)
  Checksum_of : gmap (list byte) (list byte) -> list byte;
}.

(** ** The heap *)

(** Heap references: the targets of Go pointers. *)
Definition ref : Type := positive.

(** The package-level [var zeroBigN = new(big.Int).SetInt64(0)]: one heap
    cell, allocated when the package is initialised. *)
Definition zeroBigN : ref := 1%positive.

(** Modelled from the spec: [badger.IStorage] as the tree engine uses it,
    the persistent medium that keeps what was committed, found again by its
    root. *)
Definition Storage : Type := gmap (list byte) (gmap (list byte) (list byte)).

(** Modelled from the spec: [avlmerkle.Tree], a handle on an authenticated
    key/value map.  The handle owns its pending content; only [Commit]
    writes to the storage handle the tree was opened on. *)
Record Tree := mkTree {
  tree_db : ref;
  tree_kv : gmap (list byte) (list byte);
}.

Section Memory.
Context `{Imports}.

Record stateObject := mkStateObject {
  merkleTree : option ref;
  address : Address;
  balance : option ref;
  nonce : Z;
  extra : slice;
  code : slice;
  stateRoot : Hash;
  (** [None] is the nil map of a zero-valued object; keys are [[32]byte] *)
  cacheStorage : option (gmap (list byte) slice);
  db : option ref;
}.

(** The [StateDB] struct.  Its [merkleTree] field is [db_merkleTree] here
    (the name is taken by [stateObject]), and the other fields follow it.
    The struct is passed by value through the model: a method returns the
    struct it leaves behind. *)
Record StateDB := mkStateDB {
  db_root : slice;
  db_treeDB : option ref;
  db_merkleTree : option ref;
  db_objs : gmap Address ref;
}.

Record Heap := mkHeap {
  ints : gmap ref Z;
  sobjs : gmap ref stateObject;
  trees : gmap ref Tree;
  stores : gmap ref Storage;
}.

(** Computations on the heap; [None] is a run-time panic. *)
Definition M (A : Type) : Type := Heap -> option (A * Heap).

Definition ret {A} (a : A) : M A := fun h => Some (a, h).

Definition bind {A B} (m : M A) (k : A -> M B) : M B :=
  fun h => match m h with
           | Some (a, h') => k a h'
           | None => None
           end.

Definition panic {A} : M A := fun _ => None.

(** Dereferencing a pointer that may be nil. *)
Definition deref (p : option ref) : M ref :=
  match p with Some r => ret r | None => panic end.

Definition loadInt (p : ref) : M Z :=
  fun h => (fun z => (z, h)) <$> ints h !! p.

Definition storeInt (p : ref) (z : Z) : M unit :=
  fun h => match ints h !! p with
           | Some _ => Some (tt, mkHeap (<[p:=z]> (ints h)) (sobjs h) (trees h) (stores h))
           | None => None
           end.

Definition newInt (z : Z) : M ref :=
  fun h => let p := fresh (dom (ints h)) in
           Some (p, mkHeap (<[p:=z]> (ints h)) (sobjs h) (trees h) (stores h)).

Definition loadObj (p : ref) : M stateObject :=
  fun h => (fun o => (o, h)) <$> sobjs h !! p.

Definition storeObj (p : ref) (o : stateObject) : M unit :=
  fun h => match sobjs h !! p with
           | Some _ => Some (tt, mkHeap (ints h) (<[p:=o]> (sobjs h)) (trees h) (stores h))
           | None => None
           end.

Definition newObj (o : stateObject) : M ref :=
  fun h => let p := fresh (dom (sobjs h)) in
           Some (p, mkHeap (ints h) (<[p:=o]> (sobjs h)) (trees h) (stores h)).

Definition loadTree (p : ref) : M Tree :=
  fun h => (fun t => (t, h)) <$> trees h !! p.

Definition storeTree (p : ref) (t : Tree) : M unit :=
  fun h => match trees h !! p with
           | Some _ => Some (tt, mkHeap (ints h) (sobjs h) (<[p:=t]> (trees h)) (stores h))
           | None => None
           end.

Definition newTreeRef (t : Tree) : M ref :=
  fun h => let p := fresh (dom (trees h)) in
           Some (p, mkHeap (ints h) (sobjs h) (<[p:=t]> (trees h)) (stores h)).

Definition loadStorage (p : ref) : M Storage :=
  fun h => (fun s => (s, h)) <$> stores h !! p.

Definition storeStorage (p : ref) (s : Storage) : M unit :=
  fun h => match stores h !! p with
           | Some _ => Some (tt, mkHeap (ints h) (sobjs h) (trees h) (<[p:=s]> (stores h)))
           | None => None
           end.

(** Field assignments [so.f = v]. *)
Definition with_merkleTree (o : stateObject) (t : option ref) : stateObject :=
  mkStateObject t (address o) (balance o) (nonce o) (extra o) (code o)
    (stateRoot o) (cacheStorage o) (db o).
Definition with_address (o : stateObject) (a : Address) : stateObject :=
  mkStateObject (merkleTree o) a (balance o) (nonce o) (extra o) (code o)
    (stateRoot o) (cacheStorage o) (db o).
Definition with_balance (o : stateObject) (b : option ref) : stateObject :=
  mkStateObject (merkleTree o) (address o) b (nonce o) (extra o) (code o)
    (stateRoot o) (cacheStorage o) (db o).
Definition with_nonce (o : stateObject) (n : Z) : stateObject :=
  mkStateObject (merkleTree o) (address o) (balance o) n (extra o) (code o)
    (stateRoot o) (cacheStorage o) (db o).
Definition with_code (o : stateObject) (c : slice) : stateObject :=
  mkStateObject (merkleTree o) (address o) (balance o) (nonce o) (extra o) c
    (stateRoot o) (cacheStorage o) (db o).
Definition with_stateRoot (o : stateObject) (r : Hash) : stateObject :=
  mkStateObject (merkleTree o) (address o) (balance o) (nonce o) (extra o)
    (code o) r (cacheStorage o) (db o).
Definition with_cacheStorage (o : stateObject)
    (c : option (gmap (list byte) slice)) : stateObject :=
  mkStateObject (merkleTree o) (address o) (balance o) (nonce o) (extra o)
    (code o) (stateRoot o) c (db o).

Definition with_objs (st : StateDB) (m : gmap Address ref) : StateDB :=
  mkStateDB (db_root st) (db_treeDB st) (db_merkleTree st) m.

(** [obj.f = v] through the pointer [p]. *)
Definition modifyObj (p : ref) (f : stateObject -> stateObject) : M unit :=
  bind (loadObj p) (fun o => storeObj p (f o)).

(** A loop body run once per element, in list order. *)
Fixpoint forM_ {A} (l : list A) (body : A -> M unit) : M unit :=
  match l with
  | [] => ret tt
  | x :: rest => bind (body x) (fun _ => forM_ rest body)
  end.

End Memory.

Arguments M {_} A.

Notation "'let*' x ':=' m 'in' k" := (bind m (fun x => k))
  (at level 10, x pattern, m at level 100, k at level 200).
Notation "m ';;;' k" := (bind m (fun _ => k))
  (at level 100, k at level 200, right associativity).

(** ** avlmerkle: the authenticated key/value tree *)

Module avlmerkle.
Section avlmerkle.
Context `{Imports}.

(** Modelled from the spec: [avlmerkle.NewTree(db, root)] opens a handle
    on what was committed to [db] under [root], the empty tree when
    nothing was.  A handle cannot be opened on a nil storage handle. *)
Definition NewTree (db : option ref) (root : list byte) : M (option ref) :=
  let* d := deref db in
  let* s := loadStorage d in
  let* r := newTreeRef (mkTree d (default ∅ (s !! root))) in
  ret (Some r).

(** Modelled from the spec: [Get(key)] gives [(value, found)]. *)
Definition Get (t : option ref) (k : list byte) : M (slice * bool) :=
  let* r := deref t in
  let* T := loadTree r in
  match tree_kv T !! k with
  | Some v => ret (Some v, true)
  | None => ret (None, false)
  end.

(** Modelled from the spec: [Put(key, value)], an idempotent upsert into
    the handle's pending content. *)
Definition Put (t : option ref) (k v : list byte) : M unit :=
  let* r := deref t in
  let* T := loadTree r in
  storeTree r (mkTree (tree_db T) (<[k:=v]> (tree_kv T))).

(** Modelled from the spec: [Checksum()], the deterministic
    content-derived root. *)
Definition Checksum (t : option ref) : M (list byte) :=
  let* r := deref t in
  let* T := loadTree r in
  ret (Checksum_of (tree_kv T)).

(** Modelled from the spec: [Copy()] gives an independent handle for
    speculative mutation. *)
Definition Copy (t : option ref) : M (option ref) :=
  let* r := deref t in
  let* T := loadTree r in
  let* r' := newTreeRef T in
  ret (Some r').

(** Modelled from the spec: [Commit()] persists the pending writes.  The
    result is the error; the medium of the model never rejects a write,
    so it is always nil ([None]). *)
Definition Commit (t : option ref) : M (option string) :=
  let* r := deref t in
  let* T := loadTree r in
  let* s := loadStorage (tree_db T) in
  storeStorage (tree_db T) (<[Checksum_of (tree_kv T) := tree_kv T]> s) ;;;
  ret None.

End avlmerkle.
End avlmerkle.

(** ** state_object.go *)

Module Obj.
Section stateObject.
Context `{Imports}.

(** The zero value [&stateObject{}]. *)
Definition zeroValue : stateObject :=
  mkStateObject None AddressZ None 0 None None HashZ None None.

(** [loadBytesByMapKey]: [Some data] when the second result is true. *)
Definition loadBytesByMapKey (m : gmap string string) (key : string)
    : option (list byte) :=
  match m !! key with
  | Some str => hex.DecodeString str
  | None => None
  end.

(** [Decode] always returns a nil error, so the model returns nothing. *)
Definition Decode (so : ref) (data : list byte) : M unit :=
  match StringDecodeMap (string_of_list_byte data) with
  | None => ret tt
  | Some r =>
      match r !! "address" with
      | Some a => modifyObj so (fun o => with_address o (StrB58ToAddress a))
      | None => ret tt
      end ;;;
      match r !! "balance" with
      | Some b =>
          match big.SetString10 b with
          | Some z =>
              let* num := newInt z in
              modifyObj so (fun o => with_balance o (Some num))
          | None => ret tt
          end
      | None => ret tt
      end ;;;
      match r !! "nonce" with
      | Some n =>
          match big.SetString10 n with
          | Some z => modifyObj so (fun o => with_nonce o (big.Uint64 z))
          | None => ret tt
          end
      | None => ret tt
      end ;;;
      match r !! "code" with
      | Some c =>
          match hex.DecodeString c with
          | Some bs => modifyObj so (fun o => with_code o (Some bs))
          | None => ret tt
          end
      | None => ret tt
      end ;;;
      match loadBytesByMapKey r "state_root" with
      | Some bs => modifyObj so (fun o => with_stateRoot o (Bytes2Hash bs))
      | None => ret tt
      end
  end.

(** The string map that [Encode] builds before it sorts and joins it. *)
Definition objmap (o : stateObject) (balanceText : string) : gmap string string :=
  let m : gmap string string :=
    <["address" := Address_String (address o)]>
    (<["balance" := balanceText]>
    (<["nonce" := big.Text10 (nonce o)]>
    (<["code" := hex.EncodeToString (slice_bytes (code o))]> ∅))) in
  let m :=
    match code o with
    | Some c => <["code" := hex.EncodeToString c]> m
    | None => m
    end in
  if decide (Hash_Bytes (stateRoot o) = Hash_Bytes HashZ) then m
  else <["state_root" := hex.EncodeToString (Hash_Bytes (stateRoot o))]> m.

(** [Encode]; its error is always nil. *)
Definition Encode (so : ref) : M (list byte) :=
  let* o := loadObj so in
  let* balanceText :=
    match balance o with
    | Some b => let* z := loadInt b in ret (big.Text10 z)
    | None => ret big.nilText
    end in
  ret (list_byte_of_string (SortAndEncodeMap (objmap o balanceText))).

Definition NewStateObj (address : Address) (tree : option ref)
    (db : option ref) : M ref :=
  newObj (mkStateObject tree address None 0 None None HashZ (Some ∅) db).

Definition SetBalance (so : ref) (val : option ref) : M unit :=
  match val with
  | None => ret tt
  | Some v =>
      let* z := loadInt v in
      if Z.sgn z <? 0 then ret tt
      else modifyObj so (fun o => with_balance o val)
  end.

Definition AddBalance (so : ref) (val : option ref) : M unit :=
  match val with
  | None => ret tt
  | Some v =>
      let* z := loadInt v in
      if Z.sgn z <=? 0 then ret tt
      else
        let* o := loadObj so in
        let oldBalance := default zeroBigN (balance o) in
        let* x := loadInt oldBalance in
        let* newBalance := newInt (x + z) in
        SetBalance so (Some newBalance)
  end.

(** [oldBalance.Sub(oldBalance, val)] stores the difference in the
    integer [oldBalance] points to and returns that same pointer. *)
Definition SubBalance (so : ref) (val : option ref) : M unit :=
  match val with
  | None => ret tt
  | Some v =>
      let* z := loadInt v in
      if Z.sgn z <=? 0 then ret tt
      else
        let* o := loadObj so in
        let oldBalance := default zeroBigN (balance o) in
        let* x := loadInt oldBalance in
        let* y := loadInt v in
        storeInt oldBalance (x - y) ;;;
        let newBalance := oldBalance in
        SetBalance so (Some newBalance)
  end.

Definition GetBalance (so : ref) : M (option ref) :=
  let* o := loadObj so in ret (balance o).

Definition Address_ (so : ref) : M Address :=
  let* o := loadObj so in ret (address o).

Definition SetNonce (so : ref) (n : Z) : M unit :=
  modifyObj so (fun o => with_nonce o n).
Definition AddNonce (so : ref) (n : Z) : M unit :=
  modifyObj so (fun o => with_nonce o (wrap64 (nonce o + n))).
Definition SubNonce (so : ref) (n : Z) : M unit :=
  modifyObj so (fun o => with_nonce o (wrap64 (nonce o - n))).
Definition GetNonce (so : ref) : M Z :=
  let* o := loadObj so in ret (nonce o).

(** Writing to the nil map of a zero-valued object panics. *)
Definition SetState (so : ref) (key : list byte) (value : slice) : M unit :=
  let* o := loadObj so in
  match cacheStorage o with
  | Some c => storeObj so (with_cacheStorage o (Some (<[key:=value]> c)))
  | None => panic
  end.

Definition makeStateKey (so : ref) (key : list byte) : M (list byte) :=
  let* o := loadObj so in
  ret (SHA256 (Address_Bytes (address o) ++ key)).

Definition getStateTree (so : ref) : M (option ref) :=
  let* o := loadObj so in
  avlmerkle.NewTree (db o) (Hash_Bytes (stateRoot o)).

Definition GetStateValue (so : ref) (key : list byte) : M slice :=
  let* o := loadObj so in
  match default ∅ (cacheStorage o) !! key with
  | Some val => ret val
  | None =>
      let* t := getStateTree so in
      let* k := makeStateKey so key in
      let* (val, ok) := avlmerkle.Get t k in
      if ok : bool then ret val else ret None
  end.

Definition GetExtra (so : ref) : M slice :=
  let* o := loadObj so in ret (extra o).

Definition GetCode (so : ref) : M slice :=
  let* o := loadObj so in ret (code o).

Definition setCode (s : ref) (codeHash : Hash) (c : slice) : M unit :=
  modifyObj s (fun o => with_code o c).

Definition SetCode (s : ref) (codeHash : Hash) (c : slice) : M unit :=
  setCode s codeHash c.

(** [Update]: the range over [cacheStorage] runs in the order of
    [map_to_list]; a nil map is ranged over zero times. *)
Definition Update (so : ref) : M unit :=
  let* o := loadObj so in
  forM_ (map_to_list (default ∅ (cacheStorage o))) (fun kv =>
    let* t := getStateTree so in
    let* k := makeStateKey so kv.1 in
    avlmerkle.Put t k (slice_bytes kv.2)) ;;;
  let* t := getStateTree so in
  let* stateRoot := avlmerkle.Checksum t in
  modifyObj so (fun o => with_stateRoot o (Bytes2Hash stateRoot)) ;;;
  let* objRaw := Encode so in
  let* o := loadObj so in
  let hash := SHA256 (Address_Bytes (address o)) in
  avlmerkle.Put (merkleTree o) hash objRaw.

Definition GetStateRoot (so : ref) : M Hash :=
  let* o := loadObj so in ret (stateRoot o).

(** [GetData] and [Code] of the exported [StateObject]; [Code] does not
    use the storage handle it is given. *)
Definition GetData (so : ref) : M slice :=
  let* o := loadObj so in ret (code o).

Definition Code (s : ref) (treeDB : option ref) : M slice :=
  let* o := loadObj s in ret (code o).

End stateObject.
End Obj.

(** ** The StateDB *)

Module DB.
Section StateDB.
Context `{Imports}.

Definition NewStateDB (db : option ref) (root : slice) : M StateDB :=
  let* t := avlmerkle.NewTree db (slice_bytes root) in
  ret (mkStateDB root db t ∅).

(** [rawencode.Decode(val, obj)] hands [val] to [obj.Decode], whose error
    is always nil: the [return nil] under [err != nil] is never taken. *)
Definition GetStateObj (st : StateDB) (addr : Address)
    : M (StateDB * option ref) :=
  match db_objs st !! addr with
  | Some r => ret (st, Some r)
  | None =>
      let hash := SHA256 (Address_Bytes addr) in
      let* (val, has) := avlmerkle.Get (db_merkleTree st) hash in
      if has : bool then
        let* obj := newObj Obj.zeroValue in
        Obj.Decode obj (slice_bytes val) ;;;
        modifyObj obj (fun o => with_merkleTree o (db_merkleTree st)) ;;;
        ret (with_objs st (<[addr:=obj]> (db_objs st)), Some obj)
      else ret (st, None)
  end.

Definition HashAccount (st : StateDB) (addr : Address) : M (StateDB * bool) :=
  let* (st, obj) := GetStateObj st addr in
  ret (st, bool_decide (obj ≠ None)).

Definition GetBalance (st : StateDB) (addr : Address)
    : M (StateDB * option ref) :=
  let* (st, obj) := GetStateObj st addr in
  match obj with
  | Some r =>
      let* o := loadObj r in
      match balance o with
      | None => ret (st, Some zeroBigN)
      | Some b => ret (st, Some b)
      end
  | None => ret (st, Some zeroBigN)
  end.

(** [copy(cpy.root, st.root)] copies into the nil slice of the new
    struct, that is nothing: [cpy.root] stays nil. *)
Definition Copy (st : StateDB) : M StateDB :=
  let* t := avlmerkle.Copy (db_merkleTree st) in
  ret (mkStateDB None (db_treeDB st) t
         (list_to_map (map_to_list (db_objs st)))).

Definition newStateObj (st : StateDB) (address : Address)
    : M (StateDB * ref) :=
  let* obj := Obj.NewStateObj address (db_merkleTree st) (db_treeDB st) in
  ret (with_objs st (<[address:=obj]> (db_objs st)), obj).

Definition CreateAccount (st : StateDB) (addr : Address) : M StateDB :=
  let* (st, old) := GetStateObj st addr in
  let* (st, add) := newStateObj st addr in
  match old with
  | Some r =>
      let* o := loadObj r in
      modifyObj add (fun a => with_balance a (balance o)) ;;;
      ret st
  | None => ret st
  end.

Definition GetOrNewStateObj (st : StateDB) (addr : Address)
    : M (StateDB * ref) :=
  let* (st, stateObj) := GetStateObj st addr in
  match stateObj with
  | Some r => ret (st, r)
  | None => newStateObj st addr
  end.

Definition GetStateRoot (st : StateDB) (addr : Address) : M (StateDB * Hash) :=
  let* (st, obj) := GetOrNewStateObj st addr in
  let* r := Obj.GetStateRoot obj in
  ret (st, r).

Definition AddBalance (st : StateDB) (addr : Address) (val : option ref)
    : M StateDB :=
  let* (st, obj) := GetOrNewStateObj st addr in
  Obj.AddBalance obj val ;;; ret st.

Definition GetNonce (st : StateDB) (addr : Address) : M (StateDB * Z) :=
  let* (st, obj) := GetStateObj st addr in
  match obj with
  | Some r => let* o := loadObj r in ret (st, nonce o)
  | None => ret (st, 0)
  end.

Definition SubBalance (s : StateDB) (addr : Address) (amount : option ref)
    : M StateDB :=
  let* (s, stateObject) := GetOrNewStateObj s addr in
  Obj.SubBalance stateObject amount ;;; ret s.

Definition SetBalance (s : StateDB) (addr : Address) (amount : option ref)
    : M StateDB :=
  let* (s, stateObject) := GetOrNewStateObj s addr in
  Obj.SetBalance stateObject amount ;;; ret s.

Definition SetNonce (s : StateDB) (addr : Address) (n : Z) : M StateDB :=
  let* (s, stateObject) := GetOrNewStateObj s addr in
  Obj.SetNonce stateObject n ;;; ret s.

Definition SetCode (s : StateDB) (addr : Address) (c : slice) : M StateDB :=
  let* (s, stateObject) := GetOrNewStateObj s addr in
  Obj.SetCode stateObject (Keccak256Hash (slice_bytes c)) c ;;; ret s.

(** The body of [SetState] is commented out in the source. *)
Definition SetState (s : StateDB) (addr : Address) (key value : Hash)
    : M StateDB :=
  ret s.

Definition AddNonce (st : StateDB) (addr : Address) (val : Z) : M StateDB :=
  let* (st, obj) := GetOrNewStateObj st addr in
  Obj.AddNonce obj val ;;; ret st.

Definition Root (st : StateDB) : M (list byte) :=
  avlmerkle.Checksum (db_merkleTree st).

(** [UpdateAll]: the range over [st.objs] runs in the order of
    [map_to_list]. *)
Definition UpdateAll (st : StateDB) : M StateDB :=
  forM_ (map_to_list (db_objs st)) (fun kv => Obj.Update kv.2) ;;;
  ret st.

Definition Commit (st : StateDB) : M (option string) :=
  avlmerkle.Commit (db_merkleTree st).

(** The methods below have their bodies commented out in the source;
    what is left is the constant each one returns. *)
Definition AddAddressToAccessList (s : StateDB) (addr : Address) : M StateDB :=
  ret s.
Definition AddSlotToAccessList (s : StateDB) (addr : Address) (slot : Hash)
    : M StateDB :=
  ret s.
Definition AddressInAccessList (s : StateDB) (addr : Address)
    : M (StateDB * bool) :=
  ret (s, true).
Definition SlotInAccessList (s : StateDB) (addr : Address) (slot : Hash)
    : M (StateDB * (bool * bool)) :=
  ret (s, (true, true)).
Definition AddLog (s : StateDB) (log : option ref) : M StateDB :=
  ret s.
Definition AddPreimage (s : StateDB) (hash : Hash) (preimage : slice)
    : M StateDB :=
  ret s.
Definition Preimages (s : StateDB) : M (StateDB * option (gmap (list byte) slice)) :=
  ret (s, None).
Definition AddRefund (s : StateDB) (gas : Z) : M StateDB :=
  ret s.
Definition SubRefund (s : StateDB) (gas : Z) : M StateDB :=
  ret s.
Definition Exist (s : StateDB) (addr : Address) : M (StateDB * bool) :=
  ret (s, true).
Definition Empty (s : StateDB) (addr : Address) : M (StateDB * bool) :=
  ret (s, true).
Definition ForEachStorage (s : StateDB) (addr : Address)
    (cb : Hash -> Hash -> bool) : M (StateDB * option string) :=
  ret (s, None).

Definition GetExtra (s : StateDB) (addr : Address) : M (StateDB * slice) :=
  let* (s, stateObject) := GetOrNewStateObj s addr in
  let* e := Obj.GetExtra stateObject in
  ret (s, e).

Definition GetCode (s : StateDB) (addr : Address) : M (StateDB * slice) :=
  let* (s, stateObject) := GetStateObj s addr in
  match stateObject with
  | Some r => let* c := Obj.GetCode r in ret (s, c)
  | None => ret (s, None)
  end.

Definition GetCodeSize (s : StateDB) (addr : Address) : M (StateDB * Z) :=
  ret (s, 0).
Definition GetCodeHash (s : StateDB) (addr : Address) : M (StateDB * Hash) :=
  ret (s, HashZ).
Definition GetState (s : StateDB) (addr : Address) (hash : Hash)
    : M (StateDB * Hash) :=
  ret (s, HashZ).
Definition GetCommittedState (s : StateDB) (addr : Address) (hash : Hash)
    : M (StateDB * Hash) :=
  ret (s, HashZ).
Definition GetRefund (s : StateDB) : M (StateDB * Z) :=
  ret (s, 0).
Definition HasSuicided (s : StateDB) (addr : Address) : M (StateDB * bool) :=
  ret (s, true).
Definition Snapshot (s : StateDB) : M (StateDB * Z) :=
  ret (s, 0).
Definition RevertToSnapshot (s : StateDB) (id : Z) : M StateDB :=
  ret s.
Definition Suicide (s : StateDB) (addr : Address) : M (StateDB * bool) :=
  ret (s, true).

End StateDB.
End DB.

(** ** api/types.go *)

Module api.
Section api.
Context `{Imports}.

(** [StateObjResp]; a nil pointer field is [None]. *)
Record StateObjResp := mkStateObjResp {
  Balance : option string;
  Nonce : Z;
  Extra : option string;
  Code : option string;
  StateRoot : option Hash;
}.

Record Wallet := mkWallet {
  addr : Address;
  newTime : Z;
}.

(** [Wallets], a slice of pointers; a nil pointer is [None].  The slice is
    passed by value through the model: [Swap] returns the slice it leaves
    behind. *)
Definition Wallets : Type := list (option Wallet).

(** [a[i]]; [None] is the panic of an index out of range. *)
Definition index (a : Wallets) (i : Z) : option (option Wallet) :=
  if i <? 0 then None else a !! Z.to_nat i.

Definition Len (a : Wallets) : Z := Z.of_nat (length a).

(** [Less]; [None] is a panic: an index out of range or a nil pointer. *)
Definition Less (a : Wallets) (i j : Z) : option bool :=
  match index a i with
  | Some (Some wi) =>
      match index a j with
      | Some (Some wj) => Some (newTime wi >? newTime wj)
      | _ => None
      end
  | _ => None
  end.

(** [Swap]: both elements are read before either is assigned. *)
Definition Swap (a : Wallets) (i j : Z) : option Wallets :=
  match index a j with
  | Some wj =>
      match index a i with
      | Some wi => Some (<[Z.to_nat j := wi]> (<[Z.to_nat i := wj]> a))
      | None => None
      end
  | None => None
  end.

(** [balance.Text(10)] through the pointer. *)
Definition Text (p : option ref) : M string :=
  match p with
  | Some r => let* z := loadInt r in ret (big.Text10 z)
  | None => ret big.nilText
  end.

(** The hexadecimal text of a response field: none for the empty text. *)
Definition hexField (bs : slice) : option string :=
  let text := hex.EncodeToString (slice_bytes bs) in
  match text with
  | EmptyString => None
  | _ => Some ("0x" +:+ text)
  end.

(** [coverState2Resp]; its error is always nil.  The result is the
    StateDB the call leaves behind and what it stores through [dst],
    [None] when it stores nothing. *)
Definition coverState2Resp (state : option StateDB) (addr : Address)
    : M (option StateDB * option StateObjResp) :=
  match state with
  | None => ret (None, None)
  | Some st =>
      let* (st, extra) := DB.GetExtra st addr in
      let* (st, resultExtra) :=
        match extra with
        | Some _ =>
            let* (st, e) := DB.GetExtra st addr in
            ret (st, hexField e)
        | None => ret (st, None)
        end in
      let* (st, code) := DB.GetCode st addr in
      let* (st, resultCode) :=
        match code with
        | Some _ =>
            let* (st, c) := DB.GetCode st addr in
            ret (st, hexField c)
        | None => ret (st, None)
        end in
      let* (st, stateRoot) := DB.GetStateRoot st addr in
      let resultStateRoot :=
        if decide (Hash_Bytes stateRoot = Hash_Bytes HashZ) then None
        else Some stateRoot in
      let* (st, balance) := DB.GetBalance st addr in
      let* balanceText := Text balance in
      let* (st, n) := DB.GetNonce st addr in
      ret (Some st,
           Some (mkStateObjResp (Some balanceText) n resultExtra resultCode
                   resultStateRoot))
  end.

End api.
End api.

(** ** A sample instantiation of the imported packages

    Small stand-ins on which the model runs: 25-byte addresses printed in
    hexadecimal, 32-byte hashes, the identity in place of SHA-256, and
    invertible encodings in place of the string-map codec and of the tree
    checksum. *)

Module Sample.

(** The first [n] bytes of [bs], padded with zero bytes. *)
Fixpoint fit (n : nat) (bs : list byte) : vec byte n :=
  match n with
  | O => [#]
  | S n' =>
      match bs with
      | [] => x00 ::: fit n' []
      | b :: rest => b ::: fit n' rest
      end
  end.

Lemma fit_vec_to_list n (v : vec byte n) : fit n (vec_to_list v) = v.
Proof. induction v as [|b n v IH]; simpl; [done | by rewrite IH]. Qed.

(** Fixed-size byte arrays are counted through their byte lists. *)
Definition array_countable n : Countable (vec byte n) :=
  inj_countable' vec_to_list (fit n) (fit_vec_to_list n).

(** Up to the first [sep] of [s], and what follows it. *)
Fixpoint cut (sep : ascii) (s : string) : option (string * string) :=
  match s with
  | EmptyString => None
  | String c r =>
      if Ascii.eqb c sep then Some (EmptyString, r)
      else
        match cut sep r with
        | Some (x, y) => Some (String c x, y)
        | None => None
        end
  end.

Fixpoint segments (l : list (string * string)) : string :=
  match l with
  | [] => EmptyString
  | kv :: rest => kv.1 +:+ String "=" (kv.2 +:+ String "&" (segments rest))
  end.

Fixpoint parse (fuel : nat) (s : string) : option (list (string * string)) :=
  match s with
  | EmptyString => Some []
  | _ =>
      match fuel with
      | O => None
      | S fuel' =>
          match cut "=" s with
          | Some (k, r) =>
              match cut "&" r with
              | Some (v, r') =>
                  match parse fuel' r' with
                  | Some rest => Some ((k, v) :: rest)
                  | None => None
                  end
              | None => None
              end
          | None => None
          end
      end
  end.

Definition key_le (x y : string * string) : Prop := String.leb x.1 y.1.

#[export] Instance key_le_dec : RelDecision key_le.
Proof. intros x y. unfold key_le. apply _. Defined.

(** [key=value&] for every entry, in the order of the keys. *)
Definition encodeMap (m : gmap string string) : string :=
  segments (merge_sort key_le (map_to_list m)).

Definition decodeMap (s : string) : option (gmap string string) :=
  list_to_map <$> parse (String.length s) s.

(** A byte string written so that it can be read back from the front of
    a longer one: a one before every byte, a zero at the end. *)
Fixpoint frame (bs : list byte) : list byte :=
  match bs with
  | [] => [x00]
  | b :: rest => x01 :: b :: frame rest
  end.

Fixpoint frames (l : list (list byte * list byte)) : list byte :=
  match l with
  | [] => []
  | kv :: rest => frame kv.1 ++ frame kv.2 ++ frames rest
  end.

Definition checksum (m : gmap (list byte) (list byte)) : list byte :=
  frames (map_to_list m).

#[export] Instance imports : Imports := {|
  Address := vec byte 25;
  Address_countable := array_countable 25;
  AddressZ := fit 25 [];
  Address_Bytes := vec_to_list;
  Address_String := fun a => hex.EncodeToString (vec_to_list a);
  StrB58ToAddress := fun s => fit 25 (default [] (hex.DecodeString s));
  Hash := vec byte 32;
  HashZ := fit 32 [];
  Hash_Bytes := vec_to_list;
  Bytes2Hash := fit 32;
  StringDecodeMap := decodeMap;
  SortAndEncodeMap := encodeMap;
  SHA256 := fun bs => bs;
  Keccak256Hash := fit 32;
  Checksum_of := checksum;
|}.

(** The heap right after package initialisation, with one empty storage
    handle at reference 1. *)
Definition heap0 : Heap :=
  mkHeap {[zeroBigN := 0]} ∅ ∅ {[1%positive := (∅ : Storage)]}.

Definition storage0 : option ref := Some 1%positive.

Definition alice : Address := fit 25 [x01].
Definition bob : Address := fit 25 [x02].

(** [new(big.Int).SetInt64(z)] *)
Definition bigInt (z : Z) : M (option ref) :=
  let* p := newInt z in ret (Some p).

(** The value behind a [*big.Int]. *)
Definition valueOf (p : option ref) : M Z :=
  let* r := deref p in loadInt r.

(** A StateDB on the empty storage in which [alice] holds [z]. *)
Definition funded (z : Z) : M StateDB :=
  let* st := DB.NewStateDB storage0 None in
  let* v := bigInt z in
  DB.AddBalance st alice v.

(** The balance [st] reports for [addr], as a number. *)
Definition balanceOf (st : StateDB) (addr : Address) : M Z :=
  let* (st, b) := DB.GetBalance st addr in
  valueOf b.

(** [alice] holds 5 and is asked for 10. *)
Definition overdraft : M (StateDB * Z) :=
  let* st := funded 5 in
  let* v := bigInt 10 in
  let* st := DB.SubBalance st alice v in
  let* z := balanceOf st alice in
  ret (st, z).

(** [alice] is a new account with no balance yet and is asked for 3. *)
Definition overdraft_unfunded : M StateDB :=
  let* st := DB.NewStateDB storage0 None in
  let* v := bigInt 3 in
  DB.SubBalance st alice v.

(** After that, [bob] is looked for in the cache and in the tree, and
    then read: is he cached, is he in the tree, his balance, his nonce
    and his code. *)
Definition absent_read : M (bool * bool * Z * Z * slice) :=
  let* st := overdraft_unfunded in
  let inCache := bool_decide (is_Some (db_objs st !! bob)) in
  let* (_, inTree) :=
    avlmerkle.Get (db_merkleTree st) (SHA256 (Address_Bytes bob)) in
  let* z := balanceOf st bob in
  let* (st, n) := DB.GetNonce st bob in
  let* (st, c) := DB.GetCode st bob in
  ret (inCache, inTree, z, n, c).

(** [alice] holds 50 and self-destructs. *)
Definition selfdestruct : M (bool * Z) :=
  let* st := funded 50 in
  let* (st, ok) := DB.Suicide st alice in
  let* z := balanceOf st alice in
  ret (ok, z).

(** A state object of [alice] whose balance is the pointer [b]. *)
Definition account (b : option ref) : stateObject :=
  mkStateObject (Some 1%positive) alice b 0 None None HashZ (Some ∅)
    (Some 1%positive).

(** A heap with that object at reference 1; the integers 5 and 10 are at
    references 2 and 3, an empty tree handle and an empty storage at
    reference 1. *)
Definition heapOf (b : option ref) : Heap :=
  mkHeap {[zeroBigN := 0; 2%positive := 5; 3%positive := 10]}
         {[1%positive := account b]}
         {[1%positive := mkTree 1%positive ∅]}
         {[1%positive := (∅ : Storage)]}.

(** The StateDB on that heap that caches the object for [alice]. *)
Definition stateOf : StateDB :=
  mkStateDB None (Some 1%positive) (Some 1%positive) {[alice := 1%positive]}.

(** A storage key and a value to store under it. *)
Definition slot : list byte := [x2a].
Definition slotValue : slice := Some [x07; x08].

(** A new state object of [alice], on the empty storage, with one
    buffered storage write. *)
Definition buffered : M ref :=
  let* st := DB.NewStateDB storage0 None in
  let* (st, so) := DB.GetOrNewStateObj st alice in
  Obj.SetState so slot slotValue ;;;
  ret so.

(** [alice] holds 50, has nonce 7 and some code; then her account is
    created again.  What is read afterwards: balance, nonce, code, and
    whether the storage cache is empty. *)
Definition recreate : M (Z * Z * slice * bool) :=
  let* st := funded 50 in
  let* st := DB.SetNonce st alice 7 in
  let* st := DB.SetCode st alice (Some [x60]) in
  let* st := DB.CreateAccount st alice in
  let* z := balanceOf st alice in
  let* (st, n) := DB.GetNonce st alice in
  let* (st, c) := DB.GetCode st alice in
  let* (st, so) := DB.GetStateObj st alice in
  let* so := deref so in
  let* o := loadObj so in
  ret (z, n, c, bool_decide (cacheStorage o = Some ∅)).

(** [alice] holds 50; the StateDB is copied and 7 is added through the
    copy.  What the original and the copy report afterwards. *)
Definition copy_then_add : M (Z * Z) :=
  let* st := funded 50 in
  let* cpy := DB.Copy st in
  let* v := bigInt 7 in
  let* cpy := DB.AddBalance cpy alice v in
  let* a := balanceOf st alice in
  let* b := balanceOf cpy alice in
  ret (a, b).

(** A heap with a zero-valued state object at reference 1. *)
Definition heapDecode : Heap :=
  mkHeap {[zeroBigN := 0]} {[1%positive := Obj.zeroValue]} ∅ ∅.

(** The object of [heapOf] with the write of [slot] buffered in it, and a
    heap that holds it at reference 1. *)
Definition bufferedAccount : stateObject :=
  with_cacheStorage (account None) (Some {[slot := slotValue]}).

Definition heapBuffered : Heap :=
  mkHeap {[zeroBigN := 0]} {[1%positive := bufferedAccount]}
         {[1%positive := mkTree 1%positive ∅]}
         {[1%positive := (∅ : Storage)]}.

(** The buffered write is flushed and the storage of the object is opened
    again at its new root: is the root still the zero hash, is [slot] found
    there, and with which value. *)
Definition flush_and_reopen : M (bool * bool * slice) :=
  let* so := buffered in
  Obj.Update so ;;;
  let* root := Obj.GetStateRoot so in
  let* t := Obj.getStateTree so in
  let* k := Obj.makeStateKey so slot in
  let* (val, found) := avlmerkle.Get t k in
  ret (bool_decide (Hash_Bytes root = Hash_Bytes HashZ), found, val).

(** The record of [alice] with balance 5, as [Encode] writes it, and a
    heap whose tree holds it under her key; the StateDB on that tree has
    an empty cache. *)
Definition storedRecord : list byte :=
  list_byte_of_string
    (SortAndEncodeMap (Obj.objmap (account (Some 2%positive)) "5")).

Definition heapStored : Heap :=
  mkHeap {[zeroBigN := 0]} ∅
         {[1%positive := mkTree 1%positive
                           {[SHA256 (Address_Bytes alice) := storedRecord]}]}
         {[1%positive := (∅ : Storage)]}.

Definition stateEmpty : StateDB :=
  mkStateDB None (Some 1%positive) (Some 1%positive) ∅.

(** Three wallets, made at the times 3, 1 and 2. *)
Definition wallets : api.Wallets :=
  [Some (api.mkWallet alice 3); Some (api.mkWallet bob 1);
   Some (api.mkWallet alice 2)].

(** An object that agrees with [account (Some 2)] on what the record
    holds and differs in the rest, and a heap with both. *)
Definition twin : stateObject :=
  mkStateObject None alice (Some 2%positive) 0 (Some [x01]) (Some [])
    HashZ None None.

Definition heapTwins : Heap :=
  mkHeap {[zeroBigN := 0; 2%positive := 5]}
         {[1%positive := account (Some 2%positive); 2%positive := twin]}
         ∅ ∅.

End Sample.

(** ** The vocabulary of the properties *)

Section Effects.
Context `{Imports}.

(** The heap after [*p = o] for an object pointer [p]. *)
Definition setObj (p : ref) (o : stateObject) (h : Heap) : Heap :=
  mkHeap (ints h) (<[p:=o]> (sobjs h)) (trees h) (stores h).

(** The heap after [*p = z] for an integer pointer [p]. *)
Definition setInt (p : ref) (z : Z) (h : Heap) : Heap :=
  mkHeap (<[p:=z]> (ints h)) (sobjs h) (trees h) (stores h).

(** The heap after [*p = t] for a tree pointer [p]. *)
Definition setTree (p : ref) (t : Tree) (h : Heap) : Heap :=
  mkHeap (ints h) (sobjs h) (<[p:=t]> (trees h)) (stores h).

(** The fields [Decode] assigns, read off the decoded map [r]; [num] is
    the pointer to the parsed balance. *)
Definition decodedObj (r : gmap string string) (num : ref)
    (o : stateObject) : stateObject :=
  let o := match r !! "address" with
           | Some a => with_address o (StrB58ToAddress a)
           | None => o
           end in
  let o := match r !! "balance" ≫= big.SetString10 with
           | Some _ => with_balance o (Some num)
           | None => o
           end in
  let o := match r !! "nonce" ≫= big.SetString10 with
           | Some z => with_nonce o (big.Uint64 z)
           | None => o
           end in
  let o := match r !! "code" ≫= hex.DecodeString with
           | Some bs => with_code o (Some bs)
           | None => o
           end in
  match Obj.loadBytesByMapKey r "state_root" with
  | Some bs => with_stateRoot o (Bytes2Hash bs)
  | None => o
  end.

(** The heap [Decode] leaves when the data decodes to the map [r]. *)
Definition decodedHeap (r : gmap string string) (so : ref)
    (o : stateObject) (h : Heap) : Heap :=
  let num := fresh (dom (ints h)) in
  let h1 := match r !! "balance" ≫= big.SetString10 with
            | Some z => setInt num z h
            | None => h
            end in
  setObj so (decodedObj r num o) h1.




(** The tree handle of the StateDB is a live pointer. *)
Definition tree_ready (st : StateDB) (h : Heap) : Prop :=
  exists t T, db_merkleTree st = Some t /\ trees h !! t = Some T.

(** [addr] is in the cache of [st]. *)
Definition cached (st : StateDB) (addr : Address) : Prop :=
  is_Some (db_objs st !! addr).

(** [addr] is neither in the cache of [st] nor in its tree. *)
Definition absent (st : StateDB) (addr : Address) (h : Heap) : Prop :=
  db_objs st !! addr = None /\
  exists t T, db_merkleTree st = Some t /\ trees h !! t = Some T /\
              tree_kv T !! SHA256 (Address_Bytes addr) = None.

(** The object [GetStateObj] builds from the record [val] of the tree. *)
Definition loadedObj (st : StateDB) (val : list byte) (num : ref) : stateObject :=
  with_merkleTree
    (match StringDecodeMap (string_of_list_byte val) with
     | Some r => decodedObj r num Obj.zeroValue
     | None => Obj.zeroValue
     end)
    (db_merkleTree st).

(** The integers of the heap after the record [val] was decoded. *)
Definition loadedInts (val : list byte) (h : Heap) : gmap ref Z :=
  match StringDecodeMap (string_of_list_byte val) ≫=
        (fun r => r !! "balance" ≫= big.SetString10) with
  | Some z => <[fresh (dom (ints h)):=z]> (ints h)
  | None => ints h
  end.

(** What every successful lookup guarantees. *)
Record lookup_post (st : StateDB) (addr : Address) (h : Heap)
    (st1 : StateDB) (obj : option ref) (h1 : Heap) : Prop := {
  post_ints : ints h ⊆ ints h1;
  post_objs : sobjs h ⊆ sobjs h1;
  post_trees : trees h1 = trees h;
  post_stores : stores h1 = stores h;
  post_tree : db_merkleTree st1 = db_merkleTree st;
  post_treeDB : db_treeDB st1 = db_treeDB st;
  post_root : db_root st1 = db_root st;
  post_cache : forall a, a <> addr -> db_objs st1 !! a = db_objs st !! a;
  post_none : obj = None -> st1 = st /\ h1 = h /\ db_objs st !! addr = None;
  post_some : forall r, obj = Some r ->
              db_objs st1 !! addr = Some r /\
              (db_objs st !! addr = Some r /\ st1 = st /\ h1 = h \/
               db_objs st !! addr = None /\ sobjs h !! r = None /\
               is_Some (sobjs h1 !! r));
}.

(** Every cached pointer of the StateDB points to an object of the heap. *)
Definition objs_live (st : StateDB) (h : Heap) : Prop :=
  forall a r, db_objs st !! a = Some r -> is_Some (sobjs h !! r).

(** The object [NewStateObj] allocates for the StateDB [st]. *)
Definition freshObj (st : StateDB) (addr : Address) : stateObject :=
  mkStateObject (db_merkleTree st) addr None 0 None None HashZ (Some ∅)
    (db_treeDB st).

(** The text [Encode] writes for the balance: the decimal digits of the
    integer it points to, ["<nil>"] for a nil pointer. *)
Definition balance_text (h : Heap) (o : stateObject) : option string :=
  match balance o with
  | None => Some big.nilText
  | Some b => big.Text10 <$> ints h !! b
  end.

(** The encoded account record. *)
Definition record (o : stateObject) (txt : string) : list byte :=
  list_byte_of_string (SortAndEncodeMap (Obj.objmap o txt)).

(** What a handle opened at the storage root of [o] contains. *)
Definition subtree (S : Storage) (o : stateObject) : gmap (list byte) (list byte) :=
  default ∅ (S !! Hash_Bytes (stateRoot o)).

(** The object after [Update]: only its storage root is assigned. *)
Definition flushed (S : Storage) (o : stateObject) : stateObject :=
  with_stateRoot o (Bytes2Hash (Checksum_of (subtree S o))).

(** An object [Update] can run on: its pointers are live. *)
Definition updatable (h : Heap) (r : ref) : Prop :=
  exists o d S t T txt,
    sobjs h !! r = Some o /\ db o = Some d /\ stores h !! d = Some S /\
    merkleTree o = Some t /\ trees h !! t = Some T /\
    balance_text h o = Some txt.

(** What a run of [Update] over the objects [rs] leaves as it was; [K]
    are the tree keys that none of these objects writes to. *)
Record flush_frame (K : list byte -> Prop) (rs : list ref) (h h' : Heap)
    : Prop := {
  ff_ints : ints h' = ints h;
  ff_stores : stores h' = stores h;
  ff_objs : forall r o, sobjs h !! r = Some o ->
            exists rt, sobjs h' !! r = Some (with_stateRoot o rt);
  ff_untouched : forall r, r ∉ rs -> sobjs h' !! r = sobjs h !! r;
  ff_trees : forall t T, trees h !! t = Some T ->
             exists T', trees h' !! t = Some T' /\
                        forall k, K k -> tree_kv T' !! k = tree_kv T !! k;
}.


(** The characters the account record is written with: letters, digits
    and [<], [>], [-], [_]. *)
Definition wire_char (c : ascii) : bool :=
  let n := N_of_ascii c in
  ((48 <=? n) && (n <=? 57) || (97 <=? n) && (n <=? 122)
   || (65 <=? n) && (n <=? 90)
   || (n =? 60) || (n =? 62) || (n =? 45) || (n =? 95))%N.

Fixpoint wire_safe (s : string) : bool :=
  match s with
  | EmptyString => true
  | String c r => wire_char c && wire_safe r
  end.

(** The four entries every record has. *)
Definition baseMap (a b n c : string) : gmap string string :=
  <["address":=a]> (<["balance":=b]> (<["nonce":=n]> (<["code":=c]> ∅))).

Definition baseOf (o : stateObject) (txt : string) : gmap string string :=
  baseMap (Address_String (address o)) txt (big.Text10 (nonce o))
    (hex.EncodeToString (slice_bytes (code o))).

(** A call of one of the methods of a StateDB that work on its cache, and
    a sequence of such calls; the value a read returns is dropped. *)
Inductive stateCall : Type :=
  | DoAddBalance (addr : Address) (val : option ref)
  | DoSubBalance (addr : Address) (val : option ref)
  | DoSetBalance (addr : Address) (val : option ref)
  | DoSetNonce (addr : Address) (n : Z)
  | DoAddNonce (addr : Address) (n : Z)
  | DoSetCode (addr : Address) (c : slice)
  | DoCreateAccount (addr : Address)
  | DoGetBalance (addr : Address)
  | DoGetNonce (addr : Address)
  | DoGetCode (addr : Address)
  | DoGetExtra (addr : Address)
  | DoGetStateRoot (addr : Address)
  | DoHashAccount (addr : Address).

Definition runStateCall (c : stateCall) (st : StateDB) : M StateDB :=
  match c with
  | DoAddBalance addr val => DB.AddBalance st addr val
  | DoSubBalance addr val => DB.SubBalance st addr val
  | DoSetBalance addr val => DB.SetBalance st addr val
  | DoSetNonce addr n => DB.SetNonce st addr n
  | DoAddNonce addr n => DB.AddNonce st addr n
  | DoSetCode addr c => DB.SetCode st addr c
  | DoCreateAccount addr => DB.CreateAccount st addr
  | DoGetBalance addr => let* (st, _) := DB.GetBalance st addr in ret st
  | DoGetNonce addr => let* (st, _) := DB.GetNonce st addr in ret st
  | DoGetCode addr => let* (st, _) := DB.GetCode st addr in ret st
  | DoGetExtra addr => let* (st, _) := DB.GetExtra st addr in ret st
  | DoGetStateRoot addr => let* (st, _) := DB.GetStateRoot st addr in ret st
  | DoHashAccount addr => let* (st, _) := DB.HashAccount st addr in ret st
  end.

Fixpoint runStateCalls (l : list stateCall) (st : StateDB) : M StateDB :=
  match l with
  | [] => ret st
  | c :: rest => let* st := runStateCall c st in runStateCalls rest st
  end.

(** A computation that leaves the trees and the storage of the heap as
    they are, whenever it returns, and returns a value with [P]. *)
Definition keeps {A} (P : A -> Prop) (m : M A) : Prop :=
  forall h a h', m h = Some (a, h') ->
    P a /\ trees h' = trees h /\ stores h' = stores h.

(** [st'] has the handles and the root of [st], and caches every address
    that [st] caches. *)
Definition same_handles (st st' : StateDB) : Prop :=
  db_merkleTree st' = db_merkleTree st /\ db_treeDB st' = db_treeDB st /\
  db_root st' = db_root st /\
  forall a, cached st a -> cached st' a.

End Effects.

(** * Properties *)

(** ** Running heap computations *)

Section Running.
Context `{Imports}.

Lemma loadObj_ok h p o : sobjs h !! p = Some o -> loadObj p h = Some (o, h).
Proof. intros E. unfold loadObj. by rewrite E. Qed.

Lemma loadInt_ok h p z : ints h !! p = Some z -> loadInt p h = Some (z, h).
Proof. intros E. unfold loadInt. by rewrite E. Qed.

Lemma loadTree_ok h p t : trees h !! p = Some t -> loadTree p h = Some (t, h).
Proof. intros E. unfold loadTree. by rewrite E. Qed.

Lemma loadStorage_ok h p s :
  stores h !! p = Some s -> loadStorage p h = Some (s, h).
Proof. intros E. unfold loadStorage. by rewrite E. Qed.

Lemma modifyObj_ok h p o f :
  sobjs h !! p = Some o ->
  modifyObj p f h =
    Some (tt, mkHeap (ints h) (<[p:=f o]> (sobjs h)) (trees h) (stores h)).
Proof.
  intros E. unfold modifyObj, bind, loadObj, storeObj. rewrite E. simpl.
  by rewrite E.
Qed.

Lemma fresh_int_unused (h : Heap) : ints h !! fresh (dom (ints h)) = None.
Proof. apply not_elem_of_dom, is_fresh. Qed.

Lemma fresh_obj_unused (h : Heap) : sobjs h !! fresh (dom (sobjs h)) = None.
Proof. apply not_elem_of_dom, is_fresh. Qed.

Lemma fresh_tree_unused (h : Heap) : trees h !! fresh (dom (trees h)) = None.
Proof. apply not_elem_of_dom, is_fresh. Qed.

End Running.

(** ** The tree handle *)

Section Trees.
Context `{Imports}.

Lemma bind_run {A B} (m : M A) (k : A -> M B) h a h1 :
  m h = Some (a, h1) -> bind m k h = k a h1.
Proof. intros E. unfold bind. by rewrite E. Qed.

Lemma Get_ok h t T k :
  trees h !! t = Some T ->
  avlmerkle.Get (Some t) k h =
    Some (match tree_kv T !! k with
          | Some v => (Some v, true)
          | None => (None, false)
          end, h).
Proof.
  intros E. unfold avlmerkle.Get. simpl.
  rewrite (bind_run _ _ h t h) by done.
  rewrite (bind_run _ _ _ _ _ (loadTree_ok _ _ _ E)).
  by destruct (tree_kv T !! k).
Qed.

Lemma Put_ok h t T k v :
  trees h !! t = Some T ->
  avlmerkle.Put (Some t) k v h =
    Some (tt, setTree t (mkTree (tree_db T) (<[k:=v]> (tree_kv T))) h).
Proof.
  intros E. unfold avlmerkle.Put. simpl.
  rewrite (bind_run _ _ h t h) by done.
  rewrite (bind_run _ _ _ _ _ (loadTree_ok _ _ _ E)).
  unfold storeTree. by rewrite E.
Qed.

Lemma Checksum_ok h t T :
  trees h !! t = Some T ->
  avlmerkle.Checksum (Some t) h = Some (Checksum_of (tree_kv T), h).
Proof.
  intros E. unfold avlmerkle.Checksum. simpl.
  rewrite (bind_run _ _ h t h) by done.
  by rewrite (bind_run _ _ _ _ _ (loadTree_ok _ _ _ E)).
Qed.

Lemma NewTree_ok h d S root :
  stores h !! d = Some S ->
  avlmerkle.NewTree (Some d) root h =
    Some (Some (fresh (dom (trees h))),
          setTree (fresh (dom (trees h))) (mkTree d (default ∅ (S !! root))) h).
Proof.
  intros E. unfold avlmerkle.NewTree. simpl.
  rewrite (bind_run _ _ h d h) by done.
  by rewrite (bind_run _ _ _ _ _ (loadStorage_ok _ _ _ E)).
Qed.

Lemma Copy_ok h t T :
  trees h !! t = Some T ->
  avlmerkle.Copy (Some t) h =
    Some (Some (fresh (dom (trees h))), setTree (fresh (dom (trees h))) T h).
Proof.
  intros E. unfold avlmerkle.Copy. simpl.
  rewrite (bind_run _ _ h t h) by done.
  by rewrite (bind_run _ _ _ _ _ (loadTree_ok _ _ _ E)).
Qed.

End Trees.

(** ** The balance operations of a state object *)

Section Balance.
Context `{Imports}.

(** A nil amount leaves everything as it was. *)
Lemma AddBalance_nil so h : Obj.AddBalance so None h = Some (tt, h).
Proof. reflexivity. Qed.

Lemma SubBalance_nil so h : Obj.SubBalance so None h = Some (tt, h).
Proof. reflexivity. Qed.

Lemma SetBalance_nil so h : Obj.SetBalance so None h = Some (tt, h).
Proof. reflexivity. Qed.

(** An amount that is not positive leaves everything as it was. *)
Lemma AddBalance_nonpositive so v z h :
  ints h !! v = Some z -> z <= 0 -> Obj.AddBalance so (Some v) h = Some (tt, h).
Proof.
  intros E Hz. unfold Obj.AddBalance, bind. rewrite (loadInt_ok _ _ _ E).
  destruct (Z.leb_spec (Z.sgn z) 0) as [_|Hs]; [done | lia].
Qed.

Lemma SubBalance_nonpositive so v z h :
  ints h !! v = Some z -> z <= 0 -> Obj.SubBalance so (Some v) h = Some (tt, h).
Proof.
  intros E Hz. unfold Obj.SubBalance, bind. rewrite (loadInt_ok _ _ _ E).
  destruct (Z.leb_spec (Z.sgn z) 0) as [_|Hs]; [done | lia].
Qed.

Lemma SetBalance_negative so v z h :
  ints h !! v = Some z -> z < 0 -> Obj.SetBalance so (Some v) h = Some (tt, h).
Proof.
  intros E Hz. unfold Obj.SetBalance, bind. rewrite (loadInt_ok _ _ _ E).
  destruct (Z.ltb_spec (Z.sgn z) 0) as [_|Hs]; [done | lia].
Qed.

Lemma SetBalance_nonnegative so o v z h :
  sobjs h !! so = Some o -> ints h !! v = Some z -> 0 <= z ->
  Obj.SetBalance so (Some v) h =
    Some (tt, mkHeap (ints h) (<[so:=with_balance o (Some v)]> (sobjs h))
                (trees h) (stores h)).
Proof.
  intros Eo E Hz. unfold Obj.SetBalance, bind. rewrite (loadInt_ok _ _ _ E).
  destruct (Z.ltb_spec (Z.sgn z) 0) as [Hs|_]; [lia |].
  by rewrite (modifyObj_ok _ _ o).
Qed.

(** What [SubBalance] does with a positive amount: the difference is
    written into the integer the old balance points to, whatever its
    sign, before [SetBalance] looks at it. *)
Lemma SubBalance_positive so o v x y h :
  sobjs h !! so = Some o ->
  ints h !! default zeroBigN (balance o) = Some x ->
  ints h !! v = Some y -> 0 < y ->
  Obj.SubBalance so (Some v) h =
    let b := default zeroBigN (balance o) in
    let h1 := mkHeap (<[b:=x - y]> (ints h)) (sobjs h) (trees h) (stores h) in
    if x - y <? 0 then Some (tt, h1)
    else Some (tt, mkHeap (ints h1) (<[so:=with_balance o (Some b)]> (sobjs h))
                     (trees h) (stores h)).
Proof.
  intros Eo Ex Ey Hy. unfold Obj.SubBalance, bind.
  rewrite (loadInt_ok _ _ _ Ey).
  destruct (Z.leb_spec (Z.sgn y) 0) as [Hs|_]; [lia |].
  rewrite (loadObj_ok _ _ _ Eo), (loadInt_ok _ _ _ Ex), (loadInt_ok _ _ _ Ey).
  unfold storeInt. rewrite Ex. cbn zeta.
  set (b := default zeroBigN (balance o)).
  set (h1 := mkHeap _ _ _ _).
  assert (E1 : ints h1 !! b = Some (x - y)) by apply lookup_insert_eq.
  destruct (Z.ltb_spec (x - y) 0) as [Hneg|Hpos].
  - by apply SetBalance_negative with (z := x - y).
  - by rewrite (SetBalance_nonnegative _ o _ (x - y)).
Qed.






End Balance.

(** ** Decoding an account record *)

Section Decoding.
Context `{Imports}.

Lemma setObj_same p o h : sobjs h !! p = Some o -> setObj p o h = h.
Proof. intros E. destruct h. unfold setObj. simpl in *. by rewrite insert_id. Qed.

Lemma setObj_setObj p o1 o2 h : setObj p o2 (setObj p o1 h) = setObj p o2 h.
Proof. unfold setObj. simpl. by rewrite insert_insert_eq. Qed.

Lemma lookup_setObj p o h : sobjs (setObj p o h) !! p = Some o.
Proof. apply lookup_insert_eq. Qed.

(** One optional field assignment of [Decode]. *)
Lemma assign_run {A} (x : option A) (f : A -> stateObject -> stateObject)
    so o h :
  sobjs h !! so = Some o ->
  match x with
  | Some a => modifyObj so (f a)
  | None => ret tt
  end h = Some (tt, setObj so (match x with Some a => f a o | None => o end) h).
Proof.
  intros E. destruct x.
  - by rewrite (modifyObj_ok _ _ o).
  - by rewrite setObj_same.
Qed.

Lemma Decode_nil_map so data h :
  StringDecodeMap (string_of_list_byte data) = None ->
  Obj.Decode so data h = Some (tt, h).
Proof. intros E. unfold Obj.Decode. by rewrite E. Qed.

Lemma Decode_run so o data r h :
  sobjs h !! so = Some o ->
  StringDecodeMap (string_of_list_byte data) = Some r ->
  Obj.Decode so data h = Some (tt, decodedHeap r so o h).
Proof.
  intros Eo Er. unfold Obj.Decode. rewrite Er.
  unfold decodedHeap, decodedObj.
  set (num := fresh (dom (ints h))).
  (* address *)
  rewrite (bind_run _ _ _ tt _ (assign_run (r !! "address")
             (fun a o => with_address o (StrB58ToAddress a)) so o h Eo)).
  set (o1 := match r !! "address" with Some _ => _ | None => _ end).
  (* balance *)
  erewrite (bind_run _ _ (setObj so o1 h) tt
              (setObj so
                 (match r !! "balance" ≫= big.SetString10 with
                  | Some _ => with_balance o1 (Some num)
                  | None => o1
                  end)
                 (match r !! "balance" ≫= big.SetString10 with
                  | Some z => setInt num z h
                  | None => h
                  end))); cycle 1.
  { destruct (r !! "balance") as [b|]; simpl;
      [destruct (big.SetString10 b) as [z|]; simpl |].
    - unfold bind, newInt. cbn [ints setObj]. fold num.
      rewrite (modifyObj_ok _ _ o1) by apply lookup_insert_eq.
      unfold setObj, setInt. simpl. by rewrite insert_insert_eq.
    - done.
    - done. }
  set (o2 := match r !! "balance" ≫= _ with Some _ => _ | None => _ end).
  set (h2 := match r !! "balance" ≫= _ with Some _ => _ | None => _ end).
  (* nonce *)
  erewrite (bind_run _ _ (setObj so o2 h2) tt
              (setObj so
                 (match r !! "nonce" ≫= big.SetString10 with
                  | Some z => with_nonce o2 (big.Uint64 z)
                  | None => o2
                  end) h2)); cycle 1.
  { destruct (r !! "nonce") as [n|]; simpl;
      [destruct (big.SetString10 n) as [z|]; simpl |].
    - rewrite (modifyObj_ok _ _ o2) by apply lookup_setObj.
      apply (f_equal (fun x => Some (tt, x))), setObj_setObj.
    - done.
    - done. }
  set (o3 := match r !! "nonce" ≫= _ with Some _ => _ | None => _ end).
  (* code *)
  erewrite (bind_run _ _ (setObj so o3 h2) tt
              (setObj so
                 (match r !! "code" ≫= hex.DecodeString with
                  | Some bs => with_code o3 (Some bs)
                  | None => o3
                  end) h2)); cycle 1.
  { destruct (r !! "code") as [c|]; simpl;
      [destruct (hex.DecodeString c) as [bs|]; simpl |].
    - rewrite (modifyObj_ok _ _ o3) by apply lookup_setObj.
      apply (f_equal (fun x => Some (tt, x))), setObj_setObj.
    - done.
    - done. }
  set (o4 := match r !! "code" ≫= _ with Some _ => _ | None => _ end).
  (* state_root *)
  rewrite (assign_run (Obj.loadBytesByMapKey r "state_root")
             (fun bs o => with_stateRoot o (Bytes2Hash bs)) so o4)
    by apply lookup_setObj.
  by rewrite setObj_setObj.
Qed.

(** The fields of the decoded object, one by one. *)
Lemma decodedObj_address r num o :
  address (decodedObj r num o) =
    match r !! "address" with
    | Some a => StrB58ToAddress a
    | None => address o
    end.
Proof. unfold decodedObj. by repeat case_match. Qed.

Lemma decodedObj_balance r num o :
  balance (decodedObj r num o) =
    match r !! "balance" ≫= big.SetString10 with
    | Some _ => Some num
    | None => balance o
    end.
Proof. unfold decodedObj. by repeat case_match. Qed.

Lemma decodedObj_nonce r num o :
  nonce (decodedObj r num o) =
    match r !! "nonce" ≫= big.SetString10 with
    | Some z => big.Uint64 z
    | None => nonce o
    end.
Proof. unfold decodedObj. by repeat case_match. Qed.

Lemma decodedObj_code r num o :
  code (decodedObj r num o) =
    match r !! "code" ≫= hex.DecodeString with
    | Some bs => Some bs
    | None => code o
    end.
Proof. unfold decodedObj. by repeat case_match. Qed.

Lemma decodedObj_stateRoot r num o :
  stateRoot (decodedObj r num o) =
    match Obj.loadBytesByMapKey r "state_root" with
    | Some bs => Bytes2Hash bs
    | None => stateRoot o
    end.
Proof. unfold decodedObj. by repeat case_match. Qed.

End Decoding.

(** ** Looking an account up *)

Section Lookup.
Context `{Imports}.

Lemma GetStateObj_cached st addr r h :
  db_objs st !! addr = Some r ->
  DB.GetStateObj st addr h = Some ((st, Some r), h).
Proof. intros E. unfold DB.GetStateObj. by rewrite E. Qed.

Lemma GetStateObj_absent st addr h :
  absent st addr h -> DB.GetStateObj st addr h = Some ((st, None), h).
Proof.
  intros (E & t & T & Et & ET & Ek). unfold DB.GetStateObj. rewrite E, Et.
  rewrite (bind_run _ _ _ _ _ (Get_ok _ _ _ _ ET)). by rewrite Ek.
Qed.

Lemma GetStateObj_load st addr t T val h :
  db_objs st !! addr = None ->
  db_merkleTree st = Some t -> trees h !! t = Some T ->
  tree_kv T !! SHA256 (Address_Bytes addr) = Some val ->
  let obj := fresh (dom (sobjs h)) in
  DB.GetStateObj st addr h =
    Some ((with_objs st (<[addr:=obj]> (db_objs st)), Some obj),
          mkHeap (loadedInts val h)
            (<[obj:=loadedObj st val (fresh (dom (ints h)))]> (sobjs h))
            (trees h) (stores h)).
Proof.
  intros E Et ET Ek obj. unfold DB.GetStateObj. rewrite E, Et.
  rewrite (bind_run _ _ _ _ _ (Get_ok _ _ _ _ ET)). rewrite Ek.
  cbn iota beta. unfold bind at 1. unfold newObj at 1. fold obj.
  set (h0 := mkHeap _ _ _ _).
  assert (E0 : sobjs h0 !! obj = Some Obj.zeroValue) by apply lookup_insert_eq.
  simpl slice_bytes. unfold loadedObj, loadedInts.
  destruct (StringDecodeMap (string_of_list_byte val)) as [r|] eqn:Er.
  - rewrite (bind_run _ _ _ tt _ (Decode_run _ _ _ _ _ E0 Er)).
    unfold decodedHeap. cbn [ints h0].
    set (num := fresh (dom (ints h))).
    rewrite (bind_run _ _ _ tt _
               (modifyObj_ok _ obj (decodedObj r num Obj.zeroValue) _
                  (lookup_setObj _ _ _))).
    unfold ret. do 2 f_equal. rewrite Et. simpl.
    destruct (r !! "balance" ≫= big.SetString10); simpl;
      by rewrite !insert_insert_eq.
  - rewrite (bind_run _ _ _ tt _ (Decode_nil_map _ _ _ Er)).
    rewrite (bind_run _ _ _ tt _ (modifyObj_ok _ obj Obj.zeroValue _ E0)).
    unfold ret. do 2 f_equal. rewrite Et. simpl. by rewrite insert_insert_eq.
Qed.

Lemma GetStateObj_post st addr h :
  cached st addr \/ tree_ready st h ->
  exists st1 obj h1,
    DB.GetStateObj st addr h = Some ((st1, obj), h1) /\
    lookup_post st addr h st1 obj h1.
Proof.
  intros Hr. destruct (db_objs st !! addr) as [r|] eqn:E.
  - exists st, (Some r), h. split; [by apply GetStateObj_cached |].
    split; try done. intros r' [= <-]. auto.
  - destruct Hr as [[r Hc]|(t & T & Et & ET)]; [congruence |].
    destruct (tree_kv T !! SHA256 (Address_Bytes addr)) as [val|] eqn:Ek.
    + eexists _, _, _. split; [by eapply GetStateObj_load |].
      split; simpl; try done.
      * unfold loadedInts. destruct (_ ≫= _); [|done].
        apply insert_subseteq, fresh_int_unused.
      * apply insert_subseteq, fresh_obj_unused.
      * intros a Ha. by rewrite lookup_insert_ne.
      * intros r [= <-]. split; [apply lookup_insert_eq |].
        right. split; [done |]. split; [apply fresh_obj_unused |].
        rewrite lookup_insert_eq. by eexists.
    + exists st, None, h. split.
      * apply GetStateObj_absent. split; [done |]. by exists t, T.
      * split; try done.
Qed.

End Lookup.

(** ** Balances *)

Section BalanceClaims.
Context `{Imports}.

Lemma GetStateObj_inv st addr h st1 obj h1 :
  DB.GetStateObj st addr h = Some ((st1, obj), h1) ->
  lookup_post st addr h st1 obj h1.
Proof.
  intros E.
  assert (Hr : cached st addr \/ tree_ready st h).
  { unfold cached, tree_ready. destruct (db_objs st !! addr) eqn:Ec; [eauto |].
    right. unfold DB.GetStateObj in E. rewrite Ec in E.
    destruct (db_merkleTree st) as [t|]; [|done].
    destruct (trees h !! t) as [T|] eqn:ET; [eauto |].
    unfold avlmerkle.Get, bind, deref, ret, loadTree in E.
    by rewrite ET in E. }
  destruct (GetStateObj_post st addr h Hr) as (st' & obj' & h' & E' & Hp).
  rewrite E in E'. by simplify_eq.
Qed.

(** What [GetBalance] returns once the lookup has returned. *)
Lemma GetBalance_run st addr h st1 obj h1 :
  DB.GetStateObj st addr h = Some ((st1, obj), h1) ->
  (forall r, obj = Some r -> is_Some (sobjs h1 !! r)) ->
  DB.GetBalance st addr h =
    Some ((st1,
           Some (default zeroBigN
                   (obj ≫= fun r => sobjs h1 !! r ≫= balance))), h1).
Proof.
  intros E Ho. unfold DB.GetBalance. rewrite (bind_run _ _ _ _ _ E).
  destruct obj as [r|]; [|done].
  destruct (Ho r eq_refl) as [o Eo].
  rewrite (bind_run _ _ _ _ _ (loadObj_ok _ _ _ Eo)). simpl. rewrite Eo. simpl.
  by destruct (balance o).
Qed.


(** C2: the balance of an object does not stay non-negative.  When the
    object holds [x] and [SubBalance] is asked for a larger [y], the
    difference is stored in the integer the balance points to before
    [SetBalance] refuses it, so the object reports [x - y], a negative
    number. *)
Theorem SubBalance_overdraft_goes_negative so o b v x y h :
  sobjs h !! so = Some o -> balance o = Some b ->
  ints h !! b = Some x -> ints h !! v = Some y ->
  0 <= x -> x < y ->
  exists h',
    Obj.SubBalance so (Some v) h = Some (tt, h') /\
    Obj.GetBalance so h' = Some (Some b, h') /\
    ints h' !! b = Some (x - y) /\
    x - y < 0.
Proof.
  intros Eo Eb Ex Ev Hx Hy.
  assert (Ex' : ints h !! default zeroBigN (balance o) = Some x)
    by (by rewrite Eb).
  pose proof (SubBalance_positive so o v x y h Eo Ex' Ev ltac:(lia)) as Hrun.
  cbn zeta in Hrun. rewrite Eb in Hrun. simpl in Hrun.
  destruct (Z.ltb_spec (x - y) 0) as [_|?]; [|lia].
  eexists. split; [exact Hrun |]. split; [|split; [apply lookup_insert_eq | lia]].
  unfold Obj.GetBalance.
  rewrite (bind_run _ _ _ o _) by (by apply loadObj_ok).
  by rewrite Eb.
Qed.

End BalanceClaims.


Lemma SubBalance_overdraft_goes_negative_witness :
  exists h',
    Obj.SubBalance 1%positive (Some 3%positive) (Sample.heapOf (Some 2%positive))
      = Some (tt, h') /\
    Obj.GetBalance 1%positive h' = Some (Some 2%positive, h') /\
    ints h' !! 2%positive = Some (5 - 10) /\
    5 - 10 < 0.
Proof.
  apply (SubBalance_overdraft_goes_negative (H := Sample.imports)
           1%positive (Sample.account (Some 2%positive)) 2%positive 3%positive
           5 10 (Sample.heapOf (Some 2%positive)));
    [reflexivity | reflexivity | reflexivity | reflexivity | lia | lia].
Defined.

(** The same overdraft through the StateDB: [alice] holds 5, is asked for
    10, and is then reported to hold -5. *)
Example overdraft_reports_minus_five :
  snd <$> (fst <$> Sample.overdraft Sample.heap0) = Some (-5).
Proof. vm_compute. reflexivity. Qed.

(** ** Reading an address that is not there *)

Section AbsentReads.
Context `{Imports}.

Lemma GetBalance_absent st addr h :
  absent st addr h ->
  DB.GetBalance st addr h = Some ((st, Some zeroBigN), h).
Proof.
  intros Ha. unfold DB.GetBalance.
  by rewrite (bind_run _ _ _ _ _ (GetStateObj_absent _ _ _ Ha)).
Qed.

Lemma GetNonce_absent st addr h :
  absent st addr h -> DB.GetNonce st addr h = Some ((st, 0), h).
Proof.
  intros Ha. unfold DB.GetNonce.
  by rewrite (bind_run _ _ _ _ _ (GetStateObj_absent _ _ _ Ha)).
Qed.

Lemma GetCode_absent st addr h :
  absent st addr h -> DB.GetCode st addr h = Some ((st, None), h).
Proof.
  intros Ha. unfold DB.GetCode.
  by rewrite (bind_run _ _ _ _ _ (GetStateObj_absent _ _ _ Ha)).
Qed.

End AbsentReads.

(** C7: for an address that is in neither the cache nor the tree,
    [GetBalance] answers with the shared [zeroBigN], which need not hold
    zero.  After [SubBalance(alice, 3)] on a new StateDB, [bob] is not
    cached and not in the tree, and he is reported to hold -3; his nonce
    is 0 and his code is nil. *)
Theorem GetBalance_absent_not_zero :
  fst <$> Sample.absent_read Sample.heap0 = Some (false, false, -3, 0, None).
Proof. vm_compute. reflexivity. Qed.

(** ** The methods whose bodies are commented out *)

Section Placeholders.
Context `{Imports}.

(** C4: the self-destruct, refund and access-list methods report success
    and do nothing.  [Suicide] returns true and leaves the StateDB and the
    heap as they were, so the balance read after it is the balance read
    before it; [SubRefund] returns normally for every amount although the
    refund counter reads 0; [AddressInAccessList] answers true for every
    address, whether or not [AddAddressToAccessList] was ever called. *)
Theorem placeholders_succeed_without_effect st addr gas h :
  DB.Suicide st addr h = Some ((st, true), h) /\
  (let* (s, _) := DB.Suicide st addr in DB.GetBalance s addr) h
    = DB.GetBalance st addr h /\
  DB.GetRefund st h = Some ((st, 0), h) /\
  DB.SubRefund st gas h = Some (st, h) /\
  DB.AddressInAccessList st addr h = Some ((st, true), h) /\
  DB.AddAddressToAccessList st addr h = Some (st, h) /\
  DB.Snapshot st h = Some ((st, 0), h) /\
  DB.RevertToSnapshot st 0 h = Some (st, h) /\
  DB.AddLog st None h = Some (st, h).
Proof. repeat split. Qed.

(** C9: [StateDB.SetState] changes neither the StateDB nor the heap, and
    [StateDB.GetState] answers the zero hash in every state, also right
    after a [SetState]; a value written with [SetState] of the state
    object itself is read back by its [GetStateValue], and
    [StateDB.GetState] still answers the zero hash. *)
Theorem StateDB_storage_is_inert st addr key value so o c k v h :
  sobjs h !! so = Some o -> cacheStorage o = Some c ->
  DB.SetState st addr key value h = Some (st, h) /\
  DB.GetState st addr key h = Some ((st, HashZ), h) /\
  (let* s := DB.SetState st addr key value in DB.GetState s addr key) h
    = Some ((st, HashZ), h) /\
  exists h',
    Obj.SetState so k v h = Some (tt, h') /\
    Obj.GetStateValue so k h' = Some (v, h') /\
    DB.GetState st addr key h' = Some ((st, HashZ), h').
Proof.
  intros Eo Ec. repeat split.
  exists (setObj so (with_cacheStorage o (Some (<[k:=v]> c))) h).
  split; [|split; [|done]].
  - unfold Obj.SetState. rewrite (bind_run _ _ _ _ _ (loadObj_ok _ _ _ Eo)).
    rewrite Ec. unfold storeObj. by rewrite Eo.
  - unfold Obj.GetStateValue.
    rewrite (bind_run _ _ _ _ _ (loadObj_ok _ _ _ (lookup_setObj _ _ _))).
    simpl. by rewrite lookup_insert_eq.
Qed.

End Placeholders.

Lemma StateDB_storage_is_inert_witness :
  DB.SetState (mkStateDB None None None ∅) Sample.alice HashZ HashZ
      (Sample.heapOf None)
    = Some (mkStateDB None None None ∅, Sample.heapOf None) /\
  DB.GetState (mkStateDB None None None ∅) Sample.alice HashZ (Sample.heapOf None)
    = Some ((mkStateDB None None None ∅, HashZ), Sample.heapOf None) /\
  (let* s := DB.SetState (mkStateDB None None None ∅) Sample.alice HashZ HashZ in
   DB.GetState s Sample.alice HashZ) (Sample.heapOf None)
    = Some ((mkStateDB None None None ∅, HashZ), Sample.heapOf None) /\
  exists h',
    Obj.SetState 1%positive Sample.slot Sample.slotValue (Sample.heapOf None)
      = Some (tt, h') /\
    Obj.GetStateValue 1%positive Sample.slot h' = Some (Sample.slotValue, h') /\
    DB.GetState (mkStateDB None None None ∅) Sample.alice HashZ h'
      = Some ((mkStateDB None None None ∅, HashZ), h').
Proof.
  apply (StateDB_storage_is_inert (H := Sample.imports)
           (mkStateDB None None None ∅) Sample.alice HashZ HashZ
           1%positive (Sample.account None) ∅ Sample.slot Sample.slotValue
           (Sample.heapOf None)); reflexivity.
Defined.

(** [alice] holds 50; [Suicide] answers true and she still holds 50. *)
Example Suicide_keeps_the_balance :
  fst <$> Sample.selfdestruct Sample.heap0 = Some (true, 50).
Proof. vm_compute. reflexivity. Qed.

(** ** Creating an account *)

Section Accounts.
Context `{Imports}.

Lemma newStateObj_run st addr h :
  DB.newStateObj st addr h =
    Some ((with_objs st (<[addr:=fresh (dom (sobjs h))]> (db_objs st)),
           fresh (dom (sobjs h))),
          setObj (fresh (dom (sobjs h))) (freshObj st addr) h).
Proof. reflexivity. Qed.

Lemma lookup_live st addr h st1 r h1 :
  objs_live st h ->
  DB.GetStateObj st addr h = Some ((st1, Some r), h1) ->
  is_Some (sobjs h1 !! r).
Proof.
  intros Hl E. pose proof (GetStateObj_inv _ _ _ _ _ _ E) as Hp.
  destruct (post_some _ _ _ _ _ _ Hp r eq_refl) as [_ [(Ec & -> & ->)|(_ & _ & ?)]].
  - by eapply Hl.
  - done.
Qed.


End Accounts.


(** The scenario of the specification: balance 50 and nonce 7 before,
    balance 50, nonce 0, no code and an empty storage cache after. *)
Example CreateAccount_scenario :
  fst <$> Sample.recreate Sample.heap0 = Some (50, 0, None, true).
Proof. vm_compute. reflexivity. Qed.

(** ** Copying a StateDB *)

Section Copying.
Context `{Imports}.

Lemma AddBalance_positive so o v x z h :
  sobjs h !! so = Some o ->
  ints h !! default zeroBigN (balance o) = Some x ->
  ints h !! v = Some z -> 0 < z -> 0 <= x + z ->
  Obj.AddBalance so (Some v) h =
    Some (tt, mkHeap (<[fresh (dom (ints h)):=x + z]> (ints h))
                (<[so:=with_balance o (Some (fresh (dom (ints h))))]> (sobjs h))
                (trees h) (stores h)).
Proof.
  intros Eo Ex Ev Hz Hxz. unfold Obj.AddBalance.
  rewrite (bind_run _ _ _ _ _ (loadInt_ok _ _ _ Ev)).
  destruct (Z.leb_spec (Z.sgn z) 0) as [?|_]; [lia |].
  rewrite (bind_run _ _ _ _ _ (loadObj_ok _ _ _ Eo)). cbn zeta.
  rewrite (bind_run _ _ _ _ _ (loadInt_ok _ _ _ Ex)).
  unfold bind at 1, newInt at 1.
  set (p := fresh (dom (ints h))). set (h1 := mkHeap _ _ _ _).
  by rewrite (SetBalance_nonnegative so o p (x + z) h1 Eo (lookup_insert_eq _ _ _)).
Qed.

Lemma GetOrNewStateObj_cached st addr r h :
  db_objs st !! addr = Some r ->
  DB.GetOrNewStateObj st addr h = Some ((st, r), h).
Proof.
  intros E. unfold DB.GetOrNewStateObj.
  by rewrite (bind_run _ _ _ _ _ (GetStateObj_cached _ _ _ h E)).
Qed.

(** A balance written through one StateDB that caches the object is read
    through any other StateDB that caches the same object. *)
Lemma AddBalance_seen_through_alias st1 st2 addr r o v x z h :
  db_objs st1 !! addr = Some r -> db_objs st2 !! addr = Some r ->
  sobjs h !! r = Some o ->
  ints h !! default zeroBigN (balance o) = Some x ->
  ints h !! v = Some z -> 0 < z -> 0 <= x + z ->
  exists h2 p,
    DB.AddBalance st1 addr (Some v) h = Some (st1, h2) /\
    DB.GetBalance st2 addr h2 = Some ((st2, Some p), h2) /\
    ints h2 !! p = Some (x + z).
Proof.
  intros E1 E2 Eo Ex Ev Hz Hxz.
  eexists _, (fresh (dom (ints h))). split; [|split].
  - unfold DB.AddBalance.
    rewrite (bind_run _ _ _ _ _ (GetOrNewStateObj_cached _ _ _ h E1)).
    cbn iota beta.
    by rewrite (bind_run _ _ _ _ _ (AddBalance_positive _ _ _ _ _ _ Eo Ex Ev Hz Hxz)).
  - unfold DB.GetBalance.
    rewrite (bind_run _ _ _ _ _ (GetStateObj_cached _ _ _ _ E2)). cbn iota beta.
    erewrite bind_run; cycle 1.
    { apply loadObj_ok. apply lookup_insert_eq. }
    done.
  - apply lookup_insert_eq.
Qed.

(** C5: [Copy] gives a StateDB that caches the same object instances as
    the original and has the same storage handle, on a tree handle of its
    own with the same content.  A [Put] through either tree handle leaves
    what [Get] finds through the other as it was, and a balance added
    through the copy is the balance read through the original, and the
    other way round. *)
Theorem Copy_shares_objects_not_tree st addr r o t T v x z h :
  db_objs st !! addr = Some r -> sobjs h !! r = Some o ->
  db_merkleTree st = Some t -> trees h !! t = Some T ->
  ints h !! default zeroBigN (balance o) = Some x ->
  ints h !! v = Some z -> 0 < z -> 0 <= x + z ->
  exists cpy t' h',
    DB.Copy st h = Some (cpy, h') /\
    db_objs cpy = db_objs st /\
    DB.GetStateObj cpy addr h' = Some ((cpy, Some r), h') /\
    DB.GetStateObj st addr h' = Some ((st, Some r), h') /\
    db_treeDB cpy = db_treeDB st /\
    db_merkleTree cpy = Some t' /\ t' <> t /\
    trees h' !! t' = Some T /\ trees h' !! t = Some T /\
    (forall k w k', exists h2,
        avlmerkle.Put (Some t') k w h' = Some (tt, h2) /\
        fst <$> avlmerkle.Get (Some t) k' h2
          = fst <$> avlmerkle.Get (Some t) k' h') /\
    (forall k w k', exists h2,
        avlmerkle.Put (Some t) k w h' = Some (tt, h2) /\
        fst <$> avlmerkle.Get (Some t') k' h2
          = fst <$> avlmerkle.Get (Some t') k' h') /\
    (exists h2 p,
        DB.AddBalance cpy addr (Some v) h' = Some (cpy, h2) /\
        DB.GetBalance st addr h2 = Some ((st, Some p), h2) /\
        ints h2 !! p = Some (x + z)) /\
    (exists h2 p,
        DB.AddBalance st addr (Some v) h' = Some (st, h2) /\
        DB.GetBalance cpy addr h2 = Some ((cpy, Some p), h2) /\
        ints h2 !! p = Some (x + z)).
Proof.
  intros Er Eo Et ET Ex Ev Hz Hxz.
  set (t' := fresh (dom (trees h))).
  assert (Hfresh : trees h !! t' = None) by apply fresh_tree_unused.
  assert (Hne : t' <> t) by congruence.
  set (cpy := mkStateDB None (db_treeDB st) (Some t')
                (list_to_map (map_to_list (db_objs st)))).
  set (h' := setTree t' T h).
  assert (Ecpy : DB.Copy st h = Some (cpy, h')).
  { unfold DB.Copy. rewrite Et.
    by rewrite (bind_run _ _ _ _ _ (Copy_ok _ _ _ ET)). }
  assert (Eobjs : db_objs cpy = db_objs st) by apply list_to_map_to_list.
  assert (Ecr : db_objs cpy !! addr = Some r) by (by rewrite Eobjs).
  assert (ET' : trees h' !! t' = Some T) by apply lookup_insert_eq.
  assert (ET0 : trees h' !! t = Some T).
  { unfold h'. simpl. by rewrite lookup_insert_ne. }
  exists cpy, t', h'.
  split; [done |]. split; [done |].
  split; [by apply GetStateObj_cached |]. split; [by apply GetStateObj_cached |].
  split; [done |]. split; [done |]. split; [done |].
  split; [done |]. split; [done |].
  split; [|split; [|split]].
  - intros k w k'. eexists. split; [by apply Put_ok |].
    rewrite (Get_ok h' t T k' ET0).
    erewrite Get_ok; [done |]. simpl. by rewrite lookup_insert_ne.
  - intros k w k'. eexists. split; [by apply Put_ok |].
    rewrite (Get_ok h' t' T k' ET').
    erewrite Get_ok; [done |]. simpl. by rewrite lookup_insert_ne.
  - by apply (AddBalance_seen_through_alias cpy st addr r o v x z h').
  - by apply (AddBalance_seen_through_alias st cpy addr r o v x z h').
Qed.

End Copying.

Lemma Copy_shares_objects_not_tree_witness :
  exists cpy t' h',
    DB.Copy Sample.stateOf (Sample.heapOf (Some 2%positive)) = Some (cpy, h') /\
    db_objs cpy = db_objs Sample.stateOf /\
    DB.GetStateObj cpy Sample.alice h' = Some ((cpy, Some 1%positive), h') /\
    DB.GetStateObj Sample.stateOf Sample.alice h'
      = Some ((Sample.stateOf, Some 1%positive), h') /\
    db_treeDB cpy = db_treeDB Sample.stateOf /\
    db_merkleTree cpy = Some t' /\ t' <> 1%positive /\
    trees h' !! t' = Some (mkTree 1%positive ∅) /\
    trees h' !! 1%positive = Some (mkTree 1%positive ∅) /\
    (forall k w k', exists h2,
        avlmerkle.Put (Some t') k w h' = Some (tt, h2) /\
        fst <$> avlmerkle.Get (Some 1%positive) k' h2
          = fst <$> avlmerkle.Get (Some 1%positive) k' h') /\
    (forall k w k', exists h2,
        avlmerkle.Put (Some 1%positive) k w h' = Some (tt, h2) /\
        fst <$> avlmerkle.Get (Some t') k' h2
          = fst <$> avlmerkle.Get (Some t') k' h') /\
    (exists h2 p,
        DB.AddBalance cpy Sample.alice (Some 3%positive) h' = Some (cpy, h2) /\
        DB.GetBalance Sample.stateOf Sample.alice h2
          = Some ((Sample.stateOf, Some p), h2) /\
        ints h2 !! p = Some (5 + 10)) /\
    (exists h2 p,
        DB.AddBalance Sample.stateOf Sample.alice (Some 3%positive) h'
          = Some (Sample.stateOf, h2) /\
        DB.GetBalance cpy Sample.alice h2 = Some ((cpy, Some p), h2) /\
        ints h2 !! p = Some (5 + 10)).
Proof.
  apply (Copy_shares_objects_not_tree (H := Sample.imports)
           Sample.stateOf Sample.alice 1%positive
           (Sample.account (Some 2%positive)) 1%positive (mkTree 1%positive ∅)
           3%positive 5 10 (Sample.heapOf (Some 2%positive)));
    [reflexivity | reflexivity | reflexivity | reflexivity | reflexivity
    | reflexivity | lia | lia].
Defined.

(** The scenario of the specification: 7 added through the copy is seen
    through the original and through the copy. *)
Example Copy_scenario :
  fst <$> Sample.copy_then_add Sample.heap0 = Some (57, 57).
Proof. vm_compute. reflexivity. Qed.

(** ** Flushing a state object *)

Section Flushing.
Context `{Imports}.

Lemma Encode_ok h so o txt :
  sobjs h !! so = Some o -> balance_text h o = Some txt ->
  Obj.Encode so h = Some (record o txt, h).
Proof.
  intros Eo Et. unfold Obj.Encode.
  rewrite (bind_run _ _ _ _ _ (loadObj_ok _ _ _ Eo)).
  unfold balance_text in Et. destruct (balance o) as [b|].
  - destruct (ints h !! b) as [z|] eqn:Eb; [|done]. injection Et as <-.
    erewrite bind_run; [reflexivity |].
    by rewrite (bind_run _ _ _ _ _ (loadInt_ok _ _ _ Eb)).
  - injection Et as <-. reflexivity.
Qed.

Lemma getStateTree_ok h so o d S :
  sobjs h !! so = Some o -> db o = Some d -> stores h !! d = Some S ->
  Obj.getStateTree so h =
    Some (Some (fresh (dom (trees h))),
          setTree (fresh (dom (trees h))) (mkTree d (subtree S o)) h).
Proof.
  intros Eo Ed ES. unfold Obj.getStateTree.
  rewrite (bind_run _ _ _ _ _ (loadObj_ok _ _ _ Eo)). rewrite Ed.
  by apply NewTree_ok.
Qed.

Lemma makeStateKey_ok h so o key :
  sobjs h !! so = Some o ->
  Obj.makeStateKey so key h = Some (SHA256 (Address_Bytes (address o) ++ key), h).
Proof.
  intros Eo. unfold Obj.makeStateKey.
  by rewrite (bind_run _ _ _ _ _ (loadObj_ok _ _ _ Eo)).
Qed.

(** The loop of [Update]: every pass opens a handle of its own and puts
    one entry into it.  Nothing but the set of tree handles grows. *)
Lemma flush_loop so o d S (l : list (list byte * slice)) h :
  sobjs h !! so = Some o -> db o = Some d -> stores h !! d = Some S ->
  exists h',
    forM_ l (fun kv =>
      let* t := Obj.getStateTree so in
      let* k := Obj.makeStateKey so kv.1 in
      avlmerkle.Put t k (slice_bytes kv.2)) h = Some (tt, h') /\
    ints h' = ints h /\ sobjs h' = sobjs h /\ stores h' = stores h /\
    trees h ⊆ trees h'.
Proof.
  revert h. induction l as [|kv l IH]; intros h Eo Ed ES.
  - exists h. by repeat split.
  - cbn [forM_].
    rewrite (bind_run _ _ _ tt
               (setTree (fresh (dom (trees h)))
                  (mkTree d (<[SHA256 (Address_Bytes (address o) ++ kv.1)
                               := slice_bytes kv.2]> (subtree S o))) h)).
    + destruct (IH (setTree (fresh (dom (trees h)))
                      (mkTree d (<[SHA256 (Address_Bytes (address o) ++ kv.1)
                                   := slice_bytes kv.2]> (subtree S o))) h))
        as (h' & E & Hi & Ho & Hs & Ht); [done..|].
      exists h'. split; [done |]. repeat split; try done.
      etrans; [|exact Ht]. apply insert_subseteq, fresh_tree_unused.
    + rewrite (bind_run _ _ _ _ _ (getStateTree_ok _ _ _ _ _ Eo Ed ES)).
      erewrite bind_run; [|by apply (makeStateKey_ok _ so o)].
      erewrite Put_ok; [|apply lookup_insert_eq].
      unfold setTree. simpl. by rewrite insert_insert_eq.
Qed.

(** What [Update] does, for an object whose pointers are live. *)
Lemma Update_run so o d S t T txt h :
  sobjs h !! so = Some o -> db o = Some d -> stores h !! d = Some S ->
  merkleTree o = Some t -> trees h !! t = Some T ->
  balance_text h o = Some txt ->
  exists h',
    Obj.Update so h = Some (tt, h') /\
    ints h' = ints h /\ stores h' = stores h /\
    sobjs h' = <[so:=flushed S o]> (sobjs h) /\
    trees h' !! t =
      Some (mkTree (tree_db T)
              (<[SHA256 (Address_Bytes (address o)) := record (flushed S o) txt]>
                 (tree_kv T))) /\
    (forall t1 T1, t1 <> t -> trees h !! t1 = Some T1 ->
                   trees h' !! t1 = Some T1).
Proof.
  intros Eo Ed ES Et ET Etxt. unfold Obj.Update.
  rewrite (bind_run _ _ _ _ _ (loadObj_ok _ _ _ Eo)).
  destruct (flush_loop so o d S (map_to_list (default ∅ (cacheStorage o))) h)
    as (h1 & E1 & Hi1 & Ho1 & Hs1 & Ht1); [done..|].
  rewrite (bind_run _ _ _ _ _ E1).
  assert (Eo1 : sobjs h1 !! so = Some o) by (by rewrite Ho1).
  assert (ES1 : stores h1 !! d = Some S) by (by rewrite Hs1).
  rewrite (bind_run _ _ _ _ _ (getStateTree_ok _ _ _ _ _ Eo1 Ed ES1)).
  set (tn := fresh (dom (trees h1))).
  assert (Hfresh : trees h1 !! tn = None) by apply fresh_tree_unused.
  erewrite bind_run; [|apply Checksum_ok, lookup_insert_eq].
  cbn [tree_kv].
  erewrite (bind_run _ _ _ tt); [|by apply (modifyObj_ok _ so o)].
  fold (flushed S o).
  set (h3 := mkHeap _ _ _ _).
  assert (Eo3 : sobjs h3 !! so = Some (flushed S o)) by apply lookup_insert_eq.
  assert (Etxt3 : balance_text h3 (flushed S o) = Some txt).
  { unfold balance_text in *. simpl. by rewrite Hi1. }
  rewrite (bind_run _ _ _ _ _ (Encode_ok _ _ _ _ Eo3 Etxt3)).
  rewrite (bind_run _ _ _ _ _ (loadObj_ok _ _ _ Eo3)).
  cbn zeta. cbn [flushed with_stateRoot merkleTree address]. rewrite Et.
  assert (ET1 : trees h1 !! t = Some T) by (by eapply lookup_weaken).
  assert (Hne : tn <> t) by congruence.
  assert (ET3 : trees h3 !! t = Some T).
  { unfold h3. simpl. by rewrite lookup_insert_ne. }
  eexists. split; [by apply Put_ok |].
  unfold h3. simpl. rewrite Hi1, Hs1, Ho1.
  split; [done |]. split; [done |]. split; [done |].
  split; [apply lookup_insert_eq |].
  intros t1 T1 Hne1 E.
  rewrite lookup_insert_ne by done.
  assert (E' : trees h1 !! t1 = Some T1) by (by eapply lookup_weaken).
  rewrite lookup_insert_ne by congruence. done.
Qed.

End Flushing.

Section FlushClaim.
Context `{Imports}.

(** C1: [Update] does not carry the buffered storage into the storage
    root.  Whatever the buffer [c] holds, the storage root the object gets
    is the checksum of what the storage handle has under the old root, the
    storage itself is untouched, the entries stay in the buffer only, and a
    handle opened at the new root holds what was committed under that
    root.  The record is encoded with that root and put into the global
    tree under the hash of the address. *)
Theorem Update_ignores_buffered_storage so o c d S t T txt h :
  sobjs h !! so = Some o -> cacheStorage o = Some c ->
  db o = Some d -> stores h !! d = Some S ->
  merkleTree o = Some t -> trees h !! t = Some T ->
  balance_text h o = Some txt ->
  exists h' o',
    Obj.Update so h = Some (tt, h') /\
    sobjs h' !! so = Some o' /\
    stateRoot o' = Bytes2Hash (Checksum_of (subtree S o)) /\
    cacheStorage o' = Some c /\
    stores h' = stores h /\
    (exists tn h2,
        Obj.getStateTree so h' = Some (Some tn, h2) /\
        trees h2 !! tn = Some (mkTree d (default ∅ (S !! Hash_Bytes (stateRoot o'))))) /\
    (exists T',
        trees h' !! t = Some T' /\
        tree_kv T' !! SHA256 (Address_Bytes (address o)) = Some (record o' txt)).
Proof.
  intros Eo Ec Ed ES Et ET Etxt.
  destruct (Update_run so o d S t T txt h) as (h' & E & Hi & Hs & Ho & Ht & _);
    [done..|].
  assert (Eo' : sobjs h' !! so = Some (flushed S o)).
  { rewrite Ho. apply lookup_insert_eq. }
  exists h', (flushed S o).
  split; [done |]. split; [done |]. split; [done |]. split; [done |].
  split; [done |]. split.
  - eexists _, _. split.
    + apply (getStateTree_ok h' so (flushed S o) d S); [done | done |].
      by rewrite Hs.
    + apply lookup_insert_eq.
  - eexists. split; [exact Ht |]. apply lookup_insert_eq.
Qed.

End FlushClaim.

Section FlushInstance.
#[local] Existing Instance Sample.imports.

Lemma Update_ignores_buffered_storage_witness :
  exists h' o',
    Obj.Update 1%positive Sample.heapBuffered = Some (tt, h') /\
    sobjs h' !! 1%positive = Some o' /\
    stateRoot o' = Bytes2Hash (Checksum_of (subtree ∅ Sample.bufferedAccount)) /\
    cacheStorage o' = Some {[Sample.slot := Sample.slotValue]} /\
    stores h' = stores Sample.heapBuffered /\
    (exists tn h2,
        Obj.getStateTree 1%positive h' = Some (Some tn, h2) /\
        trees h2 !! tn =
          Some (mkTree 1%positive
                  (default ∅ ((∅ : Storage) !! Hash_Bytes (stateRoot o'))))) /\
    (exists T',
        trees h' !! 1%positive = Some T' /\
        tree_kv T' !! SHA256 (Address_Bytes (address Sample.bufferedAccount))
          = Some (record o' big.nilText)).
Proof.
  apply (Update_ignores_buffered_storage (H := Sample.imports)
           1%positive Sample.bufferedAccount {[Sample.slot := Sample.slotValue]}
           1%positive ∅ 1%positive (mkTree 1%positive ∅) big.nilText
           Sample.heapBuffered); reflexivity.
Defined.

End FlushInstance.

(** One write is buffered and flushed; the storage root is still the zero
    hash and the storage opened at it has nothing under the key of the
    write. *)
Example Update_loses_the_buffered_entry :
  fst <$> Sample.flush_and_reopen Sample.heap0 = Some (true, false, None).
Proof. vm_compute. reflexivity. Qed.

(** ** Flushing every cached object *)

Section FlushAll.
Context `{Imports}.

Lemma with_stateRoot_same o : with_stateRoot o (stateRoot o) = o.
Proof. by destruct o. Qed.

Lemma flush_frame_refl K rs h : flush_frame K rs h h.
Proof.
  split; try done.
  - intros r o E. exists (stateRoot o). by rewrite with_stateRoot_same.
  - intros t T E. by exists T.
Qed.

Lemma flush_frame_trans K rs1 rs2 h1 h2 h3 :
  flush_frame K rs1 h1 h2 -> flush_frame K rs2 h2 h3 ->
  flush_frame K (rs1 ++ rs2) h1 h3.
Proof.
  intros [Hi1 Hs1 Ho1 Hu1 Ht1] [Hi2 Hs2 Ho2 Hu2 Ht2]. split.
  - congruence.
  - congruence.
  - intros r o E. destruct (Ho1 r o E) as [rt1 E1].
    destruct (Ho2 r _ E1) as [rt2 E2]. exists rt2. by rewrite E2.
  - intros r Hr. rewrite Hu2, Hu1; [done | |]; set_solver.
  - intros t T E. destruct (Ht1 t T E) as (T1 & E1 & Hk1).
    destruct (Ht2 t T1 E1) as (T2 & E2 & Hk2). exists T2. split; [done |].
    intros k Hk. by rewrite Hk2, Hk1.
Qed.

Lemma updatable_frame K rs h h' r :
  flush_frame K rs h h' -> updatable h r -> updatable h' r.
Proof.
  intros [Hi Hs Ho _ Ht] (o & d & S & t & T & txt & Eo & Ed & ES & Et & ET & Etxt).
  destruct (Ho r o Eo) as [rt Eo']. destruct (Ht t T ET) as (T' & ET' & _).
  exists (with_stateRoot o rt), d, S, t, T', txt.
  repeat split; try done.
  - by rewrite Hs.
  - unfold balance_text in *. simpl. by rewrite Hi.
Qed.

Lemma Update_frame (K : list byte -> Prop) r h :
  updatable h r ->
  (forall o, sobjs h !! r = Some o -> ~ K (SHA256 (Address_Bytes (address o)))) ->
  exists h', Obj.Update r h = Some (tt, h') /\ flush_frame K [r] h h'.
Proof.
  intros (o & d & S & t & T & txt & Eo & Ed & ES & Et & ET & Etxt) HK.
  destruct (Update_run r o d S t T txt h) as (h' & E & Hi & Hs & Ho & Ht & Hother);
    [done..|].
  exists h'. split; [done |]. split; try done.
  - intros r' o' E'. rewrite Ho. destruct (decide (r' = r)) as [->|Hne].
    + rewrite lookup_insert_eq. eexists. f_equal.
      rewrite Eo in E'. injection E' as <-. reflexivity.
    + rewrite lookup_insert_ne by done. exists (stateRoot o').
      by rewrite with_stateRoot_same.
  - intros r' Hr'. rewrite Ho. apply lookup_insert_ne. set_solver.
  - intros t' T' E'. destruct (decide (t' = t)) as [->|Hne].
    + eexists. split; [exact Ht |]. intros k Hk. simpl.
      rewrite ET in E'. injection E' as <-.
      apply lookup_insert_ne. intros <-. by apply (HK o).
    + exists T'. split; [by apply Hother | done].
Qed.


(** [Update] over a list of cached objects that can all be updated. *)
Lemma forM_Update_frame (K : list byte -> Prop) (l : list (Address * ref)) h :
  (forall kv, kv ∈ l -> updatable h kv.2) ->
  (forall kv o, kv ∈ l -> sobjs h !! kv.2 = Some o ->
                ~ K (SHA256 (Address_Bytes (address o)))) ->
  exists h',
    forM_ l (fun kv => Obj.Update kv.2) h = Some (tt, h') /\
    flush_frame K (l.*2) h h'.
Proof.
  revert h. induction l as [|kv l IH]; intros h Hu HK.
  - exists h. split; [done | apply flush_frame_refl].
  - destruct (Update_frame K kv.2 h) as (h1 & E1 & F1).
    { apply Hu. left. }
    { intros o. apply HK. left. }
    destruct (IH h1) as (h2 & E2 & F2).
    { intros kv' Hin. eapply updatable_frame; [exact F1 |]. apply Hu. by right. }
    { intros kv' o1 Hin E.
      destruct (Hu kv') as (o & _ & _ & _ & _ & _ & Eo & _); [by right |].
      destruct (ff_objs _ _ _ _ F1 _ _ Eo) as [rt E'].
      rewrite E in E'. injection E' as ->. simpl. apply (HK kv'); [by right | done]. }
    exists h2. split.
    + cbn [forM_]. by rewrite (bind_run _ _ _ _ _ E1).
    + apply (flush_frame_trans K [kv.2] (l.*2) h h1 h2 F1 F2).
Qed.

End FlushAll.

(** ** Read accessors that create the account *)

Section Materialising.
Context `{Imports}.

Lemma GetOrNewStateObj_absent st addr h :
  absent st addr h ->
  DB.GetOrNewStateObj st addr h =
    Some ((with_objs st (<[addr:=fresh (dom (sobjs h))]> (db_objs st)),
           fresh (dom (sobjs h))),
          setObj (fresh (dom (sobjs h))) (freshObj st addr) h).
Proof.
  intros Ha. unfold DB.GetOrNewStateObj.
  rewrite (bind_run _ _ _ _ _ (GetStateObj_absent _ _ _ Ha)).
  apply newStateObj_run.
Qed.



End Materialising.

(** ** Hexadecimal and decimal text *)

Section Text.

Lemma hex_byte (b : byte) :
  hex.fromHexChar (hex.digit (N.shiftr (Byte.to_N b) 4))
    = Some (N.shiftr (Byte.to_N b) 4) /\
  hex.fromHexChar (hex.digit (N.land (Byte.to_N b) 15))
    = Some (N.land (Byte.to_N b) 15) /\
  Byte.of_N (N.lor (N.shiftl (N.shiftr (Byte.to_N b) 4) 4)
               (N.land (Byte.to_N b) 15)) = Some b /\
  wire_char (hex.digit (N.shiftr (Byte.to_N b) 4)) = true /\
  wire_char (hex.digit (N.land (Byte.to_N b) 15)) = true.
Proof. destruct b; vm_compute; repeat split. Qed.

Lemma DecodeString_EncodeToString bs :
  hex.DecodeString (hex.EncodeToString bs) = Some bs.
Proof.
  induction bs as [|b bs IH]; [done |].
  destruct (hex_byte b) as (Hhi & Hlo & Hb & _).
  cbn [hex.EncodeToString hex.DecodeString].
  by rewrite Hhi, Hlo, Hb, IH.
Qed.

Lemma EncodeToString_safe bs : wire_safe (hex.EncodeToString bs) = true.
Proof.
  induction bs as [|b bs IH]; [done |].
  destruct (hex_byte b) as (_ & _ & _ & Hhi & Hlo).
  cbn [hex.EncodeToString wire_safe]. by rewrite Hhi, Hlo, IH.
Qed.

Lemma EncodeToString_empty bs : hex.EncodeToString bs = "" -> bs = [].
Proof. by destruct bs. Qed.

Lemma string_of_uint_safe d :
  wire_safe (NilEmpty.string_of_uint d) = true.
Proof. induction d; simpl; try done. Qed.

(** The digits never begin with a sign, and there is at least one. *)
Lemma digits_head n :
  exists c r,
    NilZero.string_of_uint (N.to_uint n) = String c r /\
    c <> "-"%char /\ c <> "+"%char.
Proof.
  destruct (N.to_uint n) as [|d|d|d|d|d|d|d|d|d|d] eqn:E; simpl;
    eexists _, _; (split; [reflexivity |]); split; discriminate.
Qed.

Lemma to_uint_nonnil (n : N) : N.to_uint n <> Decimal.Nil.
Proof.
  destruct n as [|p]; [discriminate |].
  apply DecimalPos.Unsigned.to_uint_nonnil.
Qed.

Lemma digits_value_digits n :
  big.digits_value (NilZero.string_of_uint (N.to_uint n)) = Some (Z.of_N n).
Proof.
  unfold big.digits_value.
  rewrite (NilZero.usu _ (to_uint_nonnil n)). simpl.
  by rewrite DecimalN.Unsigned.of_to.
Qed.

Lemma SetString10_Text10 z : big.SetString10 (big.Text10 z) = Some z.
Proof.
  unfold big.Text10. destruct (Z.ltb_spec z 0) as [Hneg|Hpos].
  - cbn [big.SetString10]. rewrite digits_value_digits. simpl. f_equal. lia.
  - destruct (digits_head (Z.abs_N z)) as (c & r & E & Hm & Hp).
    pose proof (digits_value_digits (Z.abs_N z)) as Hv. rewrite E in *.
    unfold big.SetString10.
    destruct c as [[] [] [] [] [] [] [] []]; try (rewrite Hv; f_equal; lia);
      congruence.
Qed.

Lemma Text10_safe z : wire_safe (big.Text10 z) = true.
Proof.
  assert (Hd : forall d, wire_safe (NilZero.string_of_uint d) = true).
  { intros d. destruct d; try done; apply (string_of_uint_safe (_ d)). }
  unfold big.Text10. destruct (z <? 0); [|apply Hd].
  cbn [wire_safe]. by rewrite Hd.
Qed.

Lemma Text10_nonempty z : big.Text10 z <> "".
Proof.
  unfold big.Text10. destruct (z <? 0); [done |].
  destruct (digits_head (Z.abs_N z)) as (c & r & -> & _). done.
Qed.

Lemma Uint64_small n : 0 <= n < 2 ^ 64 -> big.Uint64 n = n.
Proof.
  intros Hn. unfold big.Uint64. rewrite Z.abs_eq by lia.
  by apply Z.mod_small.
Qed.

End Text.

(** ** The account record survives decoding and encoding *)

Section RoundTrip.
Context `{Imports}.

(** What the imported packages are taken to guarantee: the string-map
    codec gives back the entries it was given, except that it may drop an
    entry whose value is empty, as long as keys and values are written
    with the characters of the record; the text of an address is written
    with these characters, is not empty and is read back as that address;
    a hash is made of at least one byte and is read back from its bytes. *)
Hypothesis codec_inverts :
  forall m : gmap string string,
    map_Forall (fun k v => wire_safe k = true /\ wire_safe v = true) m ->
    exists r,
      StringDecodeMap (SortAndEncodeMap m) = Some r /\
      forall k, r !! k = m !! k \/ (r !! k = None /\ m !! k = Some "").
Hypothesis address_text :
  forall a, wire_safe (Address_String a) = true /\ Address_String a <> "" /\
            StrB58ToAddress (Address_String a) = a.
Hypothesis hash_bytes :
  forall x, Bytes2Hash (Hash_Bytes x) = x /\ Hash_Bytes x <> [].

Ltac map_lookup :=
  repeat (rewrite lookup_insert_eq || rewrite lookup_insert_ne by done
          || rewrite lookup_empty).

Lemma objmap_base o txt :
  Obj.objmap o txt =
    if decide (Hash_Bytes (stateRoot o) = Hash_Bytes HashZ) then baseOf o txt
    else <["state_root" := hex.EncodeToString (Hash_Bytes (stateRoot o))]>
           (baseOf o txt).
Proof.
  unfold Obj.objmap, baseOf, baseMap.
  destruct (code o) as [c|]; [|done]. simpl.
  rewrite (insert_id _ "code" (hex.EncodeToString c)); [done |].
  by map_lookup.
Qed.

Lemma objmap_lookup o txt k :
  k <> "state_root" -> Obj.objmap o txt !! k = baseOf o txt !! k.
Proof.
  intros Hk. rewrite objmap_base. case_decide; [done |].
  by rewrite lookup_insert_ne.
Qed.

Lemma objmap_root o txt :
  Obj.objmap o txt !! "state_root" =
    if decide (Hash_Bytes (stateRoot o) = Hash_Bytes HashZ) then None
    else Some (hex.EncodeToString (Hash_Bytes (stateRoot o))).
Proof.
  rewrite objmap_base. case_decide; [|by rewrite lookup_insert_eq].
  unfold baseOf, baseMap. by map_lookup.
Qed.

Lemma objmap_safe o txt :
  wire_safe txt = true ->
  map_Forall (fun k v => wire_safe k = true /\ wire_safe v = true)
    (Obj.objmap o txt).
Proof.
  intros Htxt. rewrite objmap_base.
  assert (Hb : map_Forall (fun k v => wire_safe k = true /\ wire_safe v = true)
                 (baseOf o txt)).
  { unfold baseOf, baseMap. repeat apply map_Forall_insert_2.
    - split; [done |]. apply address_text.
    - done.
    - split; [done |]. apply Text10_safe.
    - split; [done |]. apply EncodeToString_safe.
    - apply map_Forall_empty. }
  case_decide; [done |]. apply map_Forall_insert_2; [|done].
  split; [done |]. apply EncodeToString_safe.
Qed.

Lemma balance_text_safe h o txt :
  balance_text h o = Some txt ->
  wire_safe txt = true /\ txt <> "" /\
  big.SetString10 txt = (balance o ≫= fun b => ints h !! b).
Proof.
  unfold balance_text. destruct (balance o) as [b|]; simpl.
  - destruct (ints h !! b) as [z|]; [|done]. intros [= <-].
    split; [apply Text10_safe |]. split; [apply Text10_nonempty |].
    apply SetString10_Text10.
  - intros [= <-]. done.
Qed.

Lemma Encode_inv h so o b h1 :
  sobjs h !! so = Some o -> Obj.Encode so h = Some (b, h1) ->
  h1 = h /\ exists txt, balance_text h o = Some txt /\ b = record o txt.
Proof.
  intros Eo E. unfold Obj.Encode in E.
  rewrite (bind_run _ _ _ _ _ (loadObj_ok _ _ _ Eo)) in E.
  unfold balance_text. destruct (balance o) as [p|].
  - unfold bind, loadInt, ret in E. destruct (ints h !! p) as [z|]; [|done].
    simpl in E. injection E as <- <-. eauto.
  - unfold bind, ret in E. injection E as <- <-. eauto.
Qed.

(** An entry with a value that is not empty comes back from the codec. *)
Lemma kept (m r : gmap string string) k v :
  (forall k, r !! k = m !! k \/ (r !! k = None /\ m !! k = Some "")) ->
  m !! k = Some v -> v <> "" -> r !! k = Some v.
Proof. intros Hr Hm Hv. destruct (Hr k) as [->|[_ ?]]; [done | congruence]. Qed.

(** C3: encoding a state object, decoding the bytes into a new object and
    encoding that object gives the same bytes again. *)
Theorem Encode_Decode_Encode so o b h h1 so' h2 :
  sobjs h !! so = Some o -> 0 <= nonce o < 2 ^ 64 ->
  Obj.Encode so h = Some (b, h1) ->
  sobjs h2 !! so' = Some Obj.zeroValue ->
  exists h3,
    Obj.Decode so' b h2 = Some (tt, h3) /\
    Obj.Encode so' h3 = Some (b, h3).
Proof.
  intros Eo Hn Eenc Ez.
  destruct (Encode_inv _ _ _ _ _ Eo Eenc) as (_ & txt & Etxt & ->).
  destruct (balance_text_safe _ _ _ Etxt) as (Hsafe & Hne & Hparse).
  set (m := Obj.objmap o txt).
  destruct (codec_inverts m (objmap_safe o txt Hsafe)) as (r & Er & Hr).
  assert (Edec : StringDecodeMap (string_of_list_byte (record o txt)) = Some r).
  { unfold record. by rewrite string_of_list_byte_of_string. }
  exists (decodedHeap r so' Obj.zeroValue h2).
  split; [by apply Decode_run |].
  (* the entries that come back *)
  destruct (address_text (address o)) as (_ & Hane & Hart).
  assert (Ra : r !! "address" = Some (Address_String (address o))).
  { apply (kept m); [done | | done]. unfold m.
    rewrite objmap_lookup by done. unfold baseOf, baseMap. by map_lookup. }
  assert (Rb : r !! "balance" = Some txt).
  { apply (kept m); [done | | done]. unfold m.
    rewrite objmap_lookup by done. unfold baseOf, baseMap. by map_lookup. }
  assert (Rn : r !! "nonce" = Some (big.Text10 (nonce o))).
  { apply (kept m); [done | | apply Text10_nonempty]. unfold m.
    rewrite objmap_lookup by done. unfold baseOf, baseMap. by map_lookup. }
  assert (Rc : (r !! "code" ≫= hex.DecodeString) = Some (slice_bytes (code o))
               \/ r !! "code" = None /\ slice_bytes (code o) = []).
  { assert (Em : m !! "code" = Some (hex.EncodeToString (slice_bytes (code o)))).
    { unfold m. rewrite objmap_lookup by done. unfold baseOf, baseMap.
      by map_lookup. }
    destruct (Hr "code") as [E|[E E']].
    - left. rewrite E, Em. simpl. apply DecodeString_EncodeToString.
    - right. split; [done |]. rewrite Em in E'. injection E' as E'.
      by apply EncodeToString_empty. }
  assert (Rr : Obj.loadBytesByMapKey r "state_root" =
               if decide (Hash_Bytes (stateRoot o) = Hash_Bytes HashZ) then None
               else Some (Hash_Bytes (stateRoot o))).
  { unfold Obj.loadBytesByMapKey.
    pose proof (objmap_root o txt) as Em. fold m in Em.
    case_decide as Hz.
    - destruct (Hr "state_root") as [E|[E _]]; rewrite E; [by rewrite Em | done].
    - rewrite (kept m r _ _ Hr Em).
      + apply DecodeString_EncodeToString.
      + intros E0. apply EncodeToString_empty in E0.
        by apply (proj2 (hash_bytes (stateRoot o))). }
  (* the decoded object *)
  set (num := fresh (dom (ints h2))).
  set (o' := decodedObj r num Obj.zeroValue).
  set (h3 := decodedHeap r so' Obj.zeroValue h2).
  assert (Eo' : sobjs h3 !! so' = Some o') by apply lookup_setObj.
  assert (Haddr : address o' = address o).
  { unfold o'. by rewrite decodedObj_address, Ra. }
  assert (Hnonce : nonce o' = nonce o).
  { unfold o'. rewrite decodedObj_nonce, Rn. cbn [mbind option_bind].
    rewrite SetString10_Text10. by apply Uint64_small. }
  assert (Hcode : slice_bytes (code o') = slice_bytes (code o)).
  { unfold o'. rewrite decodedObj_code.
    destruct Rc as [->|[-> ->]]; done. }
  assert (Hroot : stateRoot o' = stateRoot o).
  { unfold o'. rewrite decodedObj_stateRoot, Rr. case_decide as Hz.
    - simpl. by rewrite <- (proj1 (hash_bytes (stateRoot o))), Hz,
                       (proj1 (hash_bytes HashZ)).
    - apply hash_bytes. }
  assert (Htxt' : balance_text h3 o' = Some txt).
  { unfold balance_text. unfold o' at 1. rewrite decodedObj_balance.
    unfold h3, decodedHeap. fold num. rewrite Rb. cbn [mbind option_bind].
    rewrite Hparse. unfold balance_text in Etxt.
    destruct (balance o) as [p|]; simpl in *; [|done].
    destruct (ints h !! p) as [z|]; [|done]. simpl.
    by rewrite lookup_insert_eq. }
  rewrite (Encode_ok _ _ _ _ Eo' Htxt'). do 2 f_equal.
  unfold record. do 2 f_equal.
  rewrite !objmap_base. unfold baseOf. by rewrite Haddr, Hnonce, Hcode, Hroot.
Qed.

End RoundTrip.

(** ** The sample instantiation meets what is assumed of the packages *)

Section SampleLaws.
#[local] Existing Instance Sample.imports.

Lemma wire_char_not (sep : ascii) c :
  wire_char sep = false -> wire_char c = true -> Ascii.eqb c sep = false.
Proof.
  intros Hs Hc. destruct (Ascii.eqb_spec c sep) as [->|]; [congruence | done].
Qed.

Lemma cut_append sep k rest :
  wire_char sep = false -> wire_safe k = true ->
  Sample.cut sep (k +:+ String sep rest) = Some (k, rest).
Proof.
  intros Hs. induction k as [|c k IH]; simpl; intros Hk.
  - by rewrite Ascii.eqb_refl.
  - apply andb_prop in Hk as [Hc Hk].
    by rewrite (wire_char_not sep c Hs Hc), IH.
Qed.

Lemma parse_step fuel s :
  s <> "" ->
  Sample.parse (S fuel) s =
    match Sample.cut "=" s with
    | Some (k, r) =>
        match Sample.cut "&" r with
        | Some (v, r') =>
            match Sample.parse fuel r' with
            | Some rest => Some ((k, v) :: rest)
            | None => None
            end
        | None => None
        end
    | None => None
    end.
Proof. by destruct s. Qed.

Lemma parse_segments l fuel :
  (length l <= fuel)%nat ->
  Forall (fun kv => wire_safe kv.1 = true /\ wire_safe kv.2 = true) l ->
  Sample.parse fuel (Sample.segments l) = Some l.
Proof.
  revert fuel. induction l as [|[k v] l IH]; intros fuel Hf Hl.
  - by destruct fuel.
  - apply Forall_cons in Hl as [[Hk Hv] Hl]. simpl in Hk, Hv.
    destruct fuel as [|fuel]; [simpl in Hf; lia |].
    cbn [Sample.segments fst snd].
    rewrite parse_step by (by destruct k).
    rewrite (cut_append "=" k _ eq_refl Hk).
    rewrite (cut_append "&" v _ eq_refl Hv).
    rewrite IH; [done | simpl in Hf; lia | done].
Qed.

Lemma length_append_r s t :
  (String.length t <= String.length (s +:+ t))%nat.
Proof.
  induction s as [|c s IH]; [done |].
  change (String c s +:+ t) with (String c (s +:+ t)). simpl. lia.
Qed.

Lemma segments_length l : (length l <= String.length (Sample.segments l))%nat.
Proof.
  induction l as [|[k v] l IH]; simpl; [lia |].
  pose proof (length_append_r k (String "=" (v +:+ String "&" (Sample.segments l)))) as H1.
  pose proof (length_append_r v (String "&" (Sample.segments l))) as H2.
  simpl in H1, H2. lia.
Qed.

Lemma sample_codec_inverts (m : gmap string string) :
  map_Forall (fun k v => wire_safe k = true /\ wire_safe v = true) m ->
  exists r,
    StringDecodeMap (SortAndEncodeMap m) = Some r /\
    forall k, r !! k = m !! k \/ (r !! k = None /\ m !! k = Some "").
Proof.
  intros Hm. exists m. split; [|by left].
  change (Sample.decodeMap (Sample.encodeMap m) = Some m).
  unfold Sample.decodeMap, Sample.encodeMap.
  set (l := merge_sort Sample.key_le (map_to_list m)).
  assert (Hp : l ≡ₚ map_to_list m) by apply merge_sort_Permutation.
  rewrite parse_segments.
  - simpl. f_equal.
    transitivity (list_to_map (map_to_list m) : gmap string string);
      [|apply list_to_map_to_list].
    apply list_to_map_proper; [|done].
    rewrite Hp. apply NoDup_fst_map_to_list.
  - apply segments_length.
  - rewrite Hp. apply Forall_forall. intros [k v] Hkv.
    apply elem_of_map_to_list in Hkv. by apply (Hm k v).
Qed.

Lemma array_nonempty n (a : vec byte (S n)) : vec_to_list a <> [].
Proof. by inv_vec a. Qed.

Lemma sample_address_text (a : Address) :
  wire_safe (Address_String a) = true /\ Address_String a <> "" /\
  StrB58ToAddress (Address_String a) = a.
Proof.
  split; [apply EncodeToString_safe |]. split.
  - intros E. change (hex.EncodeToString (vec_to_list a) = "") in E.
    apply EncodeToString_empty in E. by apply array_nonempty in E.
  - change (Sample.fit 25
              (default [] (hex.DecodeString (hex.EncodeToString (vec_to_list a))))
            = a).
    rewrite DecodeString_EncodeToString. apply Sample.fit_vec_to_list.
Qed.

Lemma sample_hash_bytes (x : Hash) :
  Bytes2Hash (Hash_Bytes x) = x /\ Hash_Bytes x <> [].
Proof. split; [apply Sample.fit_vec_to_list | apply array_nonempty]. Qed.




End SampleLaws.

Section SampleInstances.
#[local] Existing Instance Sample.imports.

Lemma Encode_Decode_Encode_witness :
  exists h3,
    Obj.Decode 1%positive (record (Sample.account (Some 2%positive)) "5")
      Sample.heapDecode = Some (tt, h3) /\
    Obj.Encode 1%positive h3
      = Some (record (Sample.account (Some 2%positive)) "5", h3).
Proof.
  apply (Encode_Decode_Encode sample_codec_inverts sample_address_text
           sample_hash_bytes
           1%positive (Sample.account (Some 2%positive))
           (record (Sample.account (Some 2%positive)) "5")
           (Sample.heapOf (Some 2%positive)) (Sample.heapOf (Some 2%positive))
           1%positive Sample.heapDecode).
  - reflexivity.
  - simpl. lia.
  - reflexivity.
  - reflexivity.
Defined.


End SampleInstances.

(** * Further properties of the code *)

(** ** Balances *)

Section MoreBalance.
Context `{Imports}.

Lemma GetBalance_cached st addr r o h :
  db_objs st !! addr = Some r -> sobjs h !! r = Some o ->
  DB.GetBalance st addr h =
    Some ((st, Some (default zeroBigN (balance o))), h).
Proof.
  intros Er Eo.
  rewrite (GetBalance_run _ _ _ _ _ _ (GetStateObj_cached _ _ _ _ Er)).
  - simpl. rewrite Eo. simpl. by destruct (balance o).
  - intros r' [= <-]. eauto.
Qed.

(** X1: two positive amounts added to an account that is neither cached nor
    in the tree add up, while the shared zero still holds 0; the balance is
    a new integer, and the integers of the caller keep their values. *)
Theorem AddBalance_twice_adds st addr va vb a b h :
  absent st addr h -> ints h !! zeroBigN = Some 0 ->
  ints h !! va = Some a -> ints h !! vb = Some b -> 0 < a -> 0 < b ->
  exists st1 h1 h2 p,
    DB.AddBalance st addr (Some va) h = Some (st1, h1) /\
    DB.AddBalance st1 addr (Some vb) h1 = Some (st1, h2) /\
    DB.GetBalance st1 addr h2 = Some ((st1, Some p), h2) /\
    ints h2 !! p = Some (a + b) /\
    p <> va /\ p <> vb /\ p <> zeroBigN /\
    ints h2 !! va = Some a /\ ints h2 !! vb = Some b /\
    ints h2 !! zeroBigN = Some 0.
Proof.
  intros Habs Ez Ea Eb Ha Hb.
  set (new := fresh (dom (sobjs h))).
  set (st1 := with_objs st (<[addr:=new]> (db_objs st))).
  set (h0 := setObj new (freshObj st addr) h).
  set (p1 := fresh (dom (ints h))).
  assert (Hp1 : ints h !! p1 = None) by apply fresh_int_unused.
  set (o1 := with_balance (freshObj st addr) (Some p1)).
  set (h1 := mkHeap (<[p1:=0 + a]> (ints h0)) (<[new:=o1]> (sobjs h0))
               (trees h0) (stores h0)).
  set (p2 := fresh (dom (ints h1))).
  assert (Hp2 : ints h1 !! p2 = None) by apply fresh_int_unused.
  set (o2 := with_balance o1 (Some p2)).
  set (h2 := mkHeap (<[p2:=0 + a + b]> (ints h1)) (<[new:=o2]> (sobjs h1))
               (trees h1) (stores h1)).
  assert (E1 : DB.AddBalance st addr (Some va) h = Some (st1, h1)).
  { unfold DB.AddBalance.
    rewrite (bind_run _ _ _ _ _ (GetOrNewStateObj_absent _ _ _ Habs)).
    fold new h0.
    erewrite bind_run; [done |].
    apply (AddBalance_positive new (freshObj st addr) va 0 a h0);
      [apply lookup_setObj | done | done | lia | lia]. }
  assert (Ecache : db_objs st1 !! addr = Some new) by apply lookup_insert_eq.
  assert (Evb : ints h1 !! vb = Some b).
  { simpl. rewrite lookup_insert_ne; [done |]. intros ->. congruence. }
  assert (E2 : DB.AddBalance st1 addr (Some vb) h1 = Some (st1, h2)).
  { unfold DB.AddBalance.
    rewrite (bind_run _ _ _ _ _ (GetOrNewStateObj_cached _ _ _ _ Ecache)).
    erewrite bind_run; [done |].
    apply (AddBalance_positive new o1 vb (0 + a) b h1);
      [apply lookup_insert_eq | apply lookup_insert_eq | done | lia | lia]. }
  exists st1, h1, h2, p2. split; [done |]. split; [done |].
  split.
  { rewrite (GetBalance_cached st1 addr new o2 h2); [done | done |].
    apply lookup_insert_eq. }
  assert (Hva1 : ints h1 !! va = Some a).
  { simpl. rewrite lookup_insert_ne; [done |]. intros ->. congruence. }
  assert (Hz1 : ints h1 !! zeroBigN = Some 0).
  { simpl. rewrite lookup_insert_ne; [done |]. intros ->. congruence. }
  split; [simpl; rewrite lookup_insert_eq; f_equal; lia |].
  split; [intros ->; congruence |].
  split; [intros ->; congruence |].
  split; [intros ->; congruence |].
  simpl. rewrite !(lookup_insert_ne _ p2), !(lookup_insert_ne _ p1);
    try done; intros E; rewrite <- E in *; simpl in *; congruence.
Qed.

(** X2: [SetBalance] keeps the pointer of the caller: the balance and the
    integer of the caller are one integer afterwards, and a later
    [SubBalance] changes the integer of the caller. *)
Theorem SetBalance_shares_the_callers_integer so o v w x y h :
  sobjs h !! so = Some o -> ints h !! v = Some x -> ints h !! w = Some y ->
  0 < y -> y <= x ->
  exists h1 h2,
    Obj.SetBalance so (Some v) h = Some (tt, h1) /\
    Obj.GetBalance so h1 = Some (Some v, h1) /\
    Obj.SubBalance so (Some w) h1 = Some (tt, h2) /\
    Obj.GetBalance so h2 = Some (Some v, h2) /\
    ints h2 !! v = Some (x - y).
Proof.
  intros Eo Ev Ew Hy Hxy.
  set (o1 := with_balance o (Some v)).
  set (h1 := mkHeap (ints h) (<[so:=o1]> (sobjs h)) (trees h) (stores h)).
  assert (Eo1 : sobjs h1 !! so = Some o1) by apply lookup_insert_eq.
  set (h2 := mkHeap (<[v:=x - y]> (ints h1)) (<[so:=o1]> (sobjs h1))
               (trees h1) (stores h1)).
  exists h1, h2.
  split; [apply (SetBalance_nonnegative so o v x h); [done | done | lia] |].
  split; [unfold Obj.GetBalance; by rewrite (bind_run _ _ _ _ _ (loadObj_ok _ _ _ Eo1)) |].
  split.
  { rewrite (SubBalance_positive so o1 w x y h1); [| done | done | done | done].
    cbn zeta. destruct (Z.ltb_spec (x - y) 0) as [?|_]; [lia | done]. }
  split; [|apply lookup_insert_eq].
  unfold Obj.GetBalance.
  by rewrite (bind_run _ _ _ _ _ (loadObj_ok h2 so o1 (lookup_insert_eq _ _ _))).
Qed.

(** X3: [AddBalance] followed by [SubBalance] of the same amount gives the
    old balance back, in a new integer: no integer of the heap before, the
    shared zero among them, is written to. *)
Theorem SubBalance_undoes_AddBalance so o v x a h :
  sobjs h !! so = Some o ->
  ints h !! default zeroBigN (balance o) = Some x -> 0 <= x ->
  ints h !! v = Some a -> 0 < a ->
  exists h1 h2 p,
    Obj.AddBalance so (Some v) h = Some (tt, h1) /\
    Obj.SubBalance so (Some v) h1 = Some (tt, h2) /\
    Obj.GetBalance so h2 = Some (Some p, h2) /\
    ints h2 !! p = Some x /\
    ints h !! p = None /\
    (forall q, q <> p -> ints h2 !! q = ints h !! q).
Proof.
  intros Eo Ex Hx Ev Ha.
  set (p := fresh (dom (ints h))).
  assert (Hp : ints h !! p = None) by apply fresh_int_unused.
  set (o1 := with_balance o (Some p)).
  set (h1 := mkHeap (<[p:=x + a]> (ints h)) (<[so:=o1]> (sobjs h))
               (trees h) (stores h)).
  assert (Eo1 : sobjs h1 !! so = Some o1) by apply lookup_insert_eq.
  assert (Ev1 : ints h1 !! v = Some a).
  { simpl. rewrite lookup_insert_ne; [done |]. intros ->. congruence. }
  set (h2 := mkHeap (<[p:=x + a - a]> (ints h1)) (<[so:=o1]> (sobjs h1))
               (trees h1) (stores h1)).
  exists h1, h2, p.
  split; [apply (AddBalance_positive so o v x a h); [done | done | done | lia | lia] |].
  split.
  { rewrite (SubBalance_positive so o1 v (x + a) a h1);
      [| done | apply lookup_insert_eq | done | done].
    cbn zeta. destruct (Z.ltb_spec (x + a - a) 0) as [?|_]; [lia | done]. }
  split.
  { unfold Obj.GetBalance.
    by rewrite (bind_run _ _ _ _ _ (loadObj_ok h2 so o1 (lookup_insert_eq _ _ _))). }
  split; [simpl; rewrite lookup_insert_eq; f_equal; lia |].
  split; [done |].
  intros q Hq. simpl. by rewrite !lookup_insert_ne.
Qed.

End MoreBalance.

(** ** Nonces *)

Section Nonces.
Context `{Imports}.

Lemma with_nonce_same o : with_nonce o (nonce o) = o.
Proof. by destruct o. Qed.

Lemma GetNonce_ok so o h :
  sobjs h !! so = Some o -> Obj.GetNonce so h = Some (nonce o, h).
Proof.
  intros Eo. unfold Obj.GetNonce.
  by rewrite (bind_run _ _ _ _ _ (loadObj_ok _ _ _ Eo)).
Qed.

(** X4: [AddNonce] keeps the nonce a 64-bit number, and [SubNonce] of the
    same amount gives the old nonce and the old heap back, also when the
    addition wrapped around. *)
Theorem SubNonce_undoes_AddNonce so o n h :
  sobjs h !! so = Some o -> 0 <= nonce o < 2 ^ 64 ->
  exists h1 m,
    Obj.AddNonce so n h = Some (tt, h1) /\
    Obj.GetNonce so h1 = Some (m, h1) /\
    0 <= m < 2 ^ 64 /\ m = (nonce o + n) mod 2 ^ 64 /\
    Obj.SubNonce so n h1 = Some (tt, h).
Proof.
  intros Eo Hn.
  set (o1 := with_nonce o (wrap64 (nonce o + n))).
  set (h1 := mkHeap (ints h) (<[so:=o1]> (sobjs h)) (trees h) (stores h)).
  assert (Eo1 : sobjs h1 !! so = Some o1) by apply lookup_insert_eq.
  exists h1, (wrap64 (nonce o + n)).
  split; [unfold Obj.AddNonce; by rewrite (modifyObj_ok _ _ o) |].
  split; [by rewrite (GetNonce_ok so o1) |].
  split; [unfold wrap64; apply Z.mod_pos_bound; lia |].
  split; [done |].
  unfold Obj.SubNonce. rewrite (modifyObj_ok _ _ o1) by done.
  do 2 f_equal. destruct h as [hi ho ht hs]. unfold h1. simpl in *. f_equal.
  rewrite insert_insert_eq.
  replace (with_nonce o1 _) with o; [by apply insert_id |].
  rewrite <- (with_nonce_same o) at 1. unfold o1, with_nonce. simpl. f_equal.
  unfold wrap64. rewrite Zminus_mod_idemp_l.
  replace (nonce o + n - n) with (nonce o) by lia.
  symmetry. apply Z.mod_small. lia.
Qed.

(** X5: [SubNonce] below zero is neither refused nor an error: the nonce
    wraps around to the top of the 64-bit range. *)
Theorem SubNonce_wraps_below_zero so o n h :
  sobjs h !! so = Some o -> 0 <= nonce o -> nonce o < n -> n < 2 ^ 64 ->
  exists h1,
    Obj.SubNonce so n h = Some (tt, h1) /\
    Obj.GetNonce so h1 = Some (2 ^ 64 - (n - nonce o), h1) /\
    nonce o < 2 ^ 64 - (n - nonce o).
Proof.
  intros Eo H0 Hn Hmax.
  set (o1 := with_nonce o (wrap64 (nonce o - n))).
  set (h1 := mkHeap (ints h) (<[so:=o1]> (sobjs h)) (trees h) (stores h)).
  exists h1.
  split; [unfold Obj.SubNonce; by rewrite (modifyObj_ok _ _ o) |].
  split; [|lia].
  rewrite (GetNonce_ok so o1) by apply lookup_insert_eq.
  do 2 f_equal. simpl. unfold wrap64.
  rewrite <- (Z.mod_small (2 ^ 64 - (n - nonce o)) (2 ^ 64)) by lia.
  rewrite <- (Z_mod_plus_full (nonce o - n) 1 (2 ^ 64)). f_equal. lia.
Qed.

End Nonces.

(** ** Calls that work on the cache *)

Section CacheCalls.
Context `{Imports}.

Lemma keeps_ret {A} (P : A -> Prop) a : P a -> keeps P (ret a).
Proof. intros HP h a' h' [= <- <-]. done. Qed.

Lemma keeps_panic {A} (P : A -> Prop) : keeps P panic.
Proof. intros h a h' [=]. Qed.

Lemma keeps_bind {A B} (Q : A -> Prop) (P : B -> Prop) (m : M A) (k : A -> M B) :
  keeps Q m -> (forall a, Q a -> keeps P (k a)) -> keeps P (bind m k).
Proof.
  intros Hm Hk h b h' E. unfold bind in E.
  destruct (m h) as [[a h1]|] eqn:Em; [|done].
  destruct (Hm _ _ _ Em) as (Ha & Et & Es).
  destruct (Hk a Ha _ _ _ E) as (Hb & Et' & Es').
  split; [done |]. split; congruence.
Qed.

Lemma keeps_weaken {A} (Q P : A -> Prop) (m : M A) :
  keeps Q m -> (forall a, Q a -> P a) -> keeps P m.
Proof. intros Hm HQ h a h' E. destruct (Hm _ _ _ E) as (? & ? & ?). auto. Qed.

Lemma keeps_loadObj p : keeps (fun _ => True) (loadObj p).
Proof.
  intros h a h' E. unfold loadObj in E.
  destruct (sobjs h !! p); simplify_eq/=. done.
Qed.

Lemma keeps_loadInt p : keeps (fun _ => True) (loadInt p).
Proof.
  intros h a h' E. unfold loadInt in E.
  destruct (ints h !! p); simplify_eq/=. done.
Qed.

Lemma keeps_loadTree p : keeps (fun _ => True) (loadTree p).
Proof.
  intros h a h' E. unfold loadTree in E.
  destruct (trees h !! p); simplify_eq/=. done.
Qed.

Lemma keeps_storeInt p z : keeps (fun _ => True) (storeInt p z).
Proof.
  intros h a h' E. unfold storeInt in E.
  destruct (ints h !! p); simplify_eq/=. done.
Qed.

Lemma keeps_newInt z : keeps (fun _ => True) (newInt z).
Proof. intros h a h' E. unfold newInt in E. simplify_eq/=. done. Qed.

Lemma keeps_newObj o : keeps (fun _ => True) (newObj o).
Proof. intros h a h' E. unfold newObj in E. simplify_eq/=. done. Qed.

Lemma keeps_storeObj p o : keeps (fun _ => True) (storeObj p o).
Proof.
  intros h a h' E. unfold storeObj in E.
  destruct (sobjs h !! p); simplify_eq/=. done.
Qed.

Lemma keeps_modifyObj p f : keeps (fun _ => True) (modifyObj p f).
Proof.
  apply (keeps_bind (fun _ => True)); [apply keeps_loadObj |].
  intros o _. apply keeps_storeObj.
Qed.

Lemma keeps_deref p : keeps (fun _ => True) (deref p).
Proof. destruct p; [by apply keeps_ret | apply keeps_panic]. Qed.

(** The methods of a state object other than [Update] and the ones that
    open its storage are built from these steps. *)
Ltac keeps_steps :=
  repeat first
    [ apply keeps_ret; done
    | apply keeps_panic
    | apply keeps_loadObj | apply keeps_loadInt | apply keeps_loadTree
    | apply keeps_storeInt | apply keeps_newInt | apply keeps_newObj
    | apply keeps_storeObj | apply keeps_modifyObj | apply keeps_deref
    | apply (keeps_bind (fun _ => True)); [|intros ? _]
    | match goal with
      | |- keeps _ (match ?x with _ => _ end) => destruct x
      end ].

Lemma keeps_SetBalance so val : keeps (fun _ => True) (Obj.SetBalance so val).
Proof. unfold Obj.SetBalance. keeps_steps. Qed.

Lemma keeps_AddBalance so val : keeps (fun _ => True) (Obj.AddBalance so val).
Proof.
  unfold Obj.AddBalance. keeps_steps.
Qed.

Lemma keeps_SubBalance so val : keeps (fun _ => True) (Obj.SubBalance so val).
Proof.
  unfold Obj.SubBalance. keeps_steps.
Qed.

Lemma keeps_Decode so data : keeps (fun _ => True) (Obj.Decode so data).
Proof. unfold Obj.Decode. keeps_steps. Qed.

Lemma keeps_Get t k : keeps (fun _ => True) (avlmerkle.Get t k).
Proof. unfold avlmerkle.Get. keeps_steps. Qed.

Lemma same_handles_refl st : same_handles st st.
Proof. done. Qed.

Lemma same_handles_trans st1 st2 st3 :
  same_handles st1 st2 -> same_handles st2 st3 -> same_handles st1 st3.
Proof.
  intros (? & ? & ? & H12) (? & ? & ? & H23).
  repeat split; try congruence. auto.
Qed.

Lemma same_handles_insert st a r :
  same_handles st (with_objs st (<[a:=r]> (db_objs st))).
Proof.
  repeat split. intros b Hb. unfold cached in *. simpl.
  destruct (decide (b = a)) as [->|Hne].
  - rewrite lookup_insert_eq. eauto.
  - by rewrite lookup_insert_ne.
Qed.

Lemma keeps_GetStateObj st addr :
  keeps (fun x => same_handles st x.1) (DB.GetStateObj st addr).
Proof.
  unfold DB.GetStateObj. destruct (db_objs st !! addr).
  { by apply keeps_ret. }
  apply (keeps_bind (fun _ => True)); [apply keeps_Get |].
  intros [val has] _. destruct has; [|by apply keeps_ret].
  apply (keeps_bind (fun _ => True)); [apply keeps_newObj |]. intros obj _.
  apply (keeps_bind (fun _ => True)); [apply keeps_Decode |]. intros _ _.
  apply (keeps_bind (fun _ => True)); [apply keeps_modifyObj |]. intros _ _.
  apply keeps_ret. apply same_handles_insert.
Qed.

Lemma keeps_newStateObj st addr :
  keeps (fun x => same_handles st x.1) (DB.newStateObj st addr).
Proof.
  unfold DB.newStateObj, Obj.NewStateObj.
  apply (keeps_bind (fun _ => True)); [apply keeps_newObj |]. intros obj _.
  apply keeps_ret. apply same_handles_insert.
Qed.

Lemma keeps_GetOrNewStateObj st addr :
  keeps (fun x => same_handles st x.1) (DB.GetOrNewStateObj st addr).
Proof.
  unfold DB.GetOrNewStateObj.
  eapply keeps_bind; [apply keeps_GetStateObj |].
  intros [st1 [r|]] H1; simpl in H1.
  - by apply keeps_ret.
  - eapply keeps_weaken; [apply keeps_newStateObj |].
    intros x Hx. by apply (same_handles_trans st st1).
Qed.

(** A method that looks the object up, or makes it, and then runs a step
    on it that leaves the trees alone. *)
Lemma keeps_on_object {A} st addr (k : StateDB * ref -> M A) (P : A -> Prop) :
  (forall st1 r, same_handles st st1 -> keeps P (k (st1, r))) ->
  keeps P (bind (DB.GetOrNewStateObj st addr) k).
Proof.
  intros Hk. eapply keeps_bind; [apply keeps_GetOrNewStateObj |].
  intros [st1 r] H1. by apply Hk.
Qed.

Lemma keeps_on_lookup {A} st addr (k : StateDB * option ref -> M A)
    (P : A -> Prop) :
  (forall st1 obj, same_handles st st1 -> keeps P (k (st1, obj))) ->
  keeps P (bind (DB.GetStateObj st addr) k).
Proof.
  intros Hk. eapply keeps_bind; [apply keeps_GetStateObj |].
  intros [st1 r] H1. by apply Hk.
Qed.

Lemma keeps_then_ret {A} (m : M A) (st st1 : StateDB) :
  same_handles st st1 -> keeps (fun _ => True) m ->
  keeps (same_handles st) (m ;;; ret st1).
Proof.
  intros Hs Hm. apply (keeps_bind (fun _ => True)); [done |].
  intros _ _. by apply keeps_ret.
Qed.

Lemma keeps_runStateCall c st : keeps (same_handles st) (runStateCall c st).
Proof.
  destruct c; simpl.
  - apply keeps_on_object. intros st1 r H1.
    apply keeps_then_ret; [done | apply keeps_AddBalance].
  - apply keeps_on_object. intros st1 r H1.
    apply keeps_then_ret; [done | apply keeps_SubBalance].
  - apply keeps_on_object. intros st1 r H1.
    apply keeps_then_ret; [done | apply keeps_SetBalance].
  - apply keeps_on_object. intros st1 r H1.
    apply keeps_then_ret; [done | apply keeps_modifyObj].
  - apply keeps_on_object. intros st1 r H1.
    apply keeps_then_ret; [done | apply keeps_modifyObj].
  - apply keeps_on_object. intros st1 r H1.
    apply keeps_then_ret; [done | apply keeps_modifyObj].
  - unfold DB.CreateAccount. apply keeps_on_lookup. intros st1 old H1.
    eapply keeps_bind; [apply keeps_newStateObj |].
    intros [st2 add] H2. simpl in H2.
    assert (H12 := same_handles_trans _ _ _ H1 H2).
    destruct old as [r|]; [|by apply keeps_ret].
    apply (keeps_bind (fun _ => True)); [apply keeps_loadObj |]. intros o _.
    apply keeps_then_ret; [done | apply keeps_modifyObj].
  - apply (keeps_bind (same_handles st ∘ fst)).
    + unfold DB.GetBalance. apply keeps_on_lookup. intros st1 obj H1.
      keeps_steps; by apply keeps_ret.
    + intros [st1 b] H1. by apply keeps_ret.
  - apply (keeps_bind (same_handles st ∘ fst)).
    + unfold DB.GetNonce. apply keeps_on_lookup. intros st1 obj H1.
      keeps_steps; by apply keeps_ret.
    + intros [st1 b] H1. by apply keeps_ret.
  - apply (keeps_bind (same_handles st ∘ fst)).
    + unfold DB.GetCode, Obj.GetCode. apply keeps_on_lookup. intros st1 obj H1.
      keeps_steps; by apply keeps_ret.
    + intros [st1 b] H1. by apply keeps_ret.
  - apply (keeps_bind (same_handles st ∘ fst)).
    + unfold DB.GetExtra, Obj.GetExtra. apply keeps_on_object. intros st1 obj H1.
      keeps_steps; by apply keeps_ret.
    + intros [st1 b] H1. by apply keeps_ret.
  - apply (keeps_bind (same_handles st ∘ fst)).
    + unfold DB.GetStateRoot, Obj.GetStateRoot. apply keeps_on_object.
      intros st1 obj H1. keeps_steps; by apply keeps_ret.
    + intros [st1 b] H1. by apply keeps_ret.
  - apply (keeps_bind (same_handles st ∘ fst)).
    + unfold DB.HashAccount. apply keeps_on_lookup. intros st1 obj H1.
      by apply keeps_ret.
    + intros [st1 b] H1. by apply keeps_ret.
Qed.

Lemma keeps_runStateCalls l st : keeps (same_handles st) (runStateCalls l st).
Proof.
  revert st. induction l as [|c l IH]; intros st; simpl.
  - by apply keeps_ret.
  - eapply keeps_bind; [apply keeps_runStateCall |].
    intros st1 H1. eapply keeps_weaken; [apply IH |].
    intros st2. by apply same_handles_trans.
Qed.

(** X6: no sequence of balance, nonce and code updates, account creations
    and reads of a StateDB writes to a tree or to the storage: the root the
    StateDB reports is the one from before, whatever was changed, and what
    [Commit] then stores under that root is the tree from before. Every
    address that was cached is still cached. *)
Theorem cache_calls_never_reach_the_tree l st h st' h' :
  runStateCalls l st h = Some (st', h') ->
  trees h' = trees h /\ stores h' = stores h /\
  db_merkleTree st' = db_merkleTree st /\
  (forall a, cached st a -> cached st' a) /\
  fst <$> DB.Root st' h' = fst <$> DB.Root st h /\
  (fun x => stores x.2) <$> DB.Commit st' h'
    = (fun x => stores x.2) <$> DB.Commit st h.
Proof.
  intros E. destruct (keeps_runStateCalls _ _ _ _ _ E)
    as ((Et & _ & _ & Hc) & Htr & Hst).
  repeat split; try done.
  - unfold DB.Root, avlmerkle.Checksum, bind, deref, loadTree, ret, panic.
    rewrite Et. destruct (db_merkleTree st) as [t|]; [|done].
    rewrite Htr. by destruct (trees h !! t).
  - unfold DB.Commit, avlmerkle.Commit, bind, deref, loadTree, loadStorage,
      storeStorage, ret, panic.
    rewrite Et. destruct (db_merkleTree st) as [t|]; [|done].
    rewrite Htr. destruct (trees h !! t) as [T|]; [|done]. simpl.
    rewrite Hst. destruct (stores h !! tree_db T) as [s|] eqn:Es; [|done].
    simpl. rewrite ?Hst, ?Es. simpl. by rewrite ?Hst.
Qed.

End CacheCalls.

Section CacheCallsInstance.
#[local] Existing Instance Sample.imports.

Lemma cache_calls_never_reach_the_tree_witness :
  exists st' h',
    runStateCalls
      [DoAddBalance Sample.alice (Some 3%positive); DoSetNonce Sample.alice 7;
       DoGetExtra Sample.bob; DoCreateAccount Sample.alice]
      Sample.stateOf (Sample.heapOf None) = Some (st', h') /\
    trees h' = trees (Sample.heapOf None) /\
    stores h' = stores (Sample.heapOf None) /\
    db_merkleTree st' = db_merkleTree Sample.stateOf /\
    (forall a, cached Sample.stateOf a -> cached st' a) /\
    fst <$> DB.Root st' h' = fst <$> DB.Root Sample.stateOf (Sample.heapOf None) /\
    (fun x => stores x.2) <$> DB.Commit st' h'
      = (fun x => stores x.2) <$> DB.Commit Sample.stateOf (Sample.heapOf None).
Proof.
  eexists _, _. split; [reflexivity |].
  apply (cache_calls_never_reach_the_tree
           [DoAddBalance Sample.alice (Some 3%positive);
            DoSetNonce Sample.alice 7; DoGetExtra Sample.bob;
            DoCreateAccount Sample.alice]
           Sample.stateOf (Sample.heapOf None)).
  reflexivity.
Defined.

End CacheCallsInstance.

(** ** Lookups and what is read after a write *)

Section MoreLookup.
Context `{Imports}.

Lemma GetOrNewStateObj_run st addr h :
  cached st addr \/ tree_ready st h -> objs_live st h ->
  exists st1 r o h1,
    DB.GetOrNewStateObj st addr h = Some ((st1, r), h1) /\
    db_objs st1 !! addr = Some r /\ sobjs h1 !! r = Some o.
Proof.
  intros Hready Hlive.
  destruct (GetStateObj_post st addr h Hready) as (st1 & obj & h1 & E & P).
  unfold DB.GetOrNewStateObj. rewrite (bind_run _ _ _ _ _ E).
  destruct obj as [r|].
  - destruct (lookup_live _ _ _ _ _ _ Hlive E) as [o Eo].
    exists st1, r, o, h1. split; [done |]. split; [|done].
    by apply (post_some _ _ _ _ _ _ P).
  - rewrite newStateObj_run.
    eexists _, _, _, _. split; [done |].
    split; [apply lookup_insert_eq | apply lookup_setObj].
Qed.

(** X7: a lookup that returned, asked again, returns the same object and
    changes nothing: a decoded object is cached, and an address that was not
    found is not cached as missing. *)
Theorem GetStateObj_is_idempotent st addr h st1 obj h1 :
  DB.GetStateObj st addr h = Some ((st1, obj), h1) ->
  DB.GetStateObj st1 addr h1 = Some ((st1, obj), h1) /\
  (obj = None -> st1 = st /\ h1 = h) /\
  (forall r, obj = Some r -> db_objs st1 !! addr = Some r).
Proof.
  intros E. pose proof (GetStateObj_inv _ _ _ _ _ _ E) as P.
  destruct obj as [r|].
  - destruct (post_some _ _ _ _ _ _ P r eq_refl) as [Hr _].
    split; [by apply GetStateObj_cached |]. split; [done |].
    by intros r' [= <-].
  - destruct (post_none _ _ _ _ _ _ P eq_refl) as (-> & -> & _). done.
Qed.

(** X8: [GetOrNewStateObj] makes an object at most once: asked again, it
    returns the same object and changes nothing, and the address counts as
    known from then on. *)
Theorem GetOrNewStateObj_is_idempotent st addr h st1 r h1 :
  DB.GetOrNewStateObj st addr h = Some ((st1, r), h1) ->
  DB.GetOrNewStateObj st1 addr h1 = Some ((st1, r), h1) /\
  DB.GetStateObj st1 addr h1 = Some ((st1, Some r), h1) /\
  DB.HashAccount st1 addr h1 = Some ((st1, true), h1).
Proof.
  intros E. unfold DB.GetOrNewStateObj in E.
  assert (Hr : db_objs st1 !! addr = Some r).
  { unfold bind in E.
    destruct (DB.GetStateObj st addr h) as [[[st0 obj] h0]|] eqn:E0; [|done].
    pose proof (GetStateObj_inv _ _ _ _ _ _ E0) as P.
    destruct obj as [r0|].
    - injection E as <- <- <-. by apply (post_some _ _ _ _ _ _ P).
    - rewrite newStateObj_run in E. injection E as <- <- <-.
      apply lookup_insert_eq. }
  split; [by apply GetOrNewStateObj_cached |].
  split; [by apply GetStateObj_cached |].
  unfold DB.HashAccount.
  by rewrite (bind_run _ _ _ _ _ (GetStateObj_cached _ _ _ _ Hr)).
Qed.

Lemma GetNonce_cached st addr r o h :
  db_objs st !! addr = Some r -> sobjs h !! r = Some o ->
  DB.GetNonce st addr h = Some ((st, nonce o), h).
Proof.
  intros Er Eo. unfold DB.GetNonce.
  rewrite (bind_run _ _ _ _ _ (GetStateObj_cached _ _ _ _ Er)). cbv beta iota.
  by rewrite (bind_run _ _ _ _ _ (loadObj_ok _ _ _ Eo)).
Qed.

Lemma GetCode_cached st addr r o h :
  db_objs st !! addr = Some r -> sobjs h !! r = Some o ->
  DB.GetCode st addr h = Some ((st, code o), h).
Proof.
  intros Er Eo. unfold DB.GetCode, Obj.GetCode.
  rewrite (bind_run _ _ _ _ _ (GetStateObj_cached _ _ _ _ Er)). cbv beta iota.
  unfold bind. by rewrite (loadObj_ok _ _ _ Eo).
Qed.

(** X9: the nonce written through the StateDB is the nonce read through it,
    for an address that was cached, in the tree, or unknown; [AddNonce] then
    adds to it modulo 2^64. *)
Theorem SetNonce_then_GetNonce st addr n m h :
  cached st addr \/ tree_ready st h -> objs_live st h ->
  exists st1 h1 h2,
    DB.SetNonce st addr n h = Some (st1, h1) /\
    DB.GetNonce st1 addr h1 = Some ((st1, n), h1) /\
    DB.AddNonce st1 addr m h1 = Some (st1, h2) /\
    DB.GetNonce st1 addr h2 = Some ((st1, (n + m) mod 2 ^ 64), h2).
Proof.
  intros Hready Hlive.
  destruct (GetOrNewStateObj_run st addr h Hready Hlive)
    as (st1 & r & o & h0 & E & Hr & Eo).
  set (h1 := mkHeap (ints h0) (<[r:=with_nonce o n]> (sobjs h0))
               (trees h0) (stores h0)).
  set (h2 := mkHeap (ints h1)
               (<[r:=with_nonce (with_nonce o n) (wrap64 (n + m))]> (sobjs h1))
               (trees h1) (stores h1)).
  exists st1, h1, h2. split.
  { unfold DB.SetNonce, Obj.SetNonce. rewrite (bind_run _ _ _ _ _ E).
    cbv beta iota.
    by rewrite (bind_run _ _ _ _ _
                  (modifyObj_ok _ _ _ (fun o => with_nonce o n) Eo)). }
  split.
  { apply (GetNonce_cached st1 addr r (with_nonce o n) h1); [done |].
    apply lookup_insert_eq. }
  split.
  { unfold DB.AddNonce, Obj.AddNonce.
    rewrite (bind_run _ _ _ _ _ (GetOrNewStateObj_cached _ _ _ h1 Hr)).
    cbv beta iota.
    by rewrite (bind_run _ _ _ _ _
                  (modifyObj_ok h1 r (with_nonce o n)
                     (fun o => with_nonce o (wrap64 (nonce o + m)))
                     (lookup_insert_eq _ _ _))). }
  apply (GetNonce_cached st1 addr r
           (with_nonce (with_nonce o n) (wrap64 (n + m))) h2); [done |].
  apply lookup_insert_eq.
Qed.

(** X10: the code written through the StateDB is the code read through it,
    by [GetCode] of the StateDB and by [GetCode], [GetData] and [Code] of
    the object, whatever storage handle [Code] is given; [GetCodeSize] and
    [GetCodeHash] do not see it. *)
Theorem SetCode_then_GetCode st addr c treeDB h :
  cached st addr \/ tree_ready st h -> objs_live st h ->
  exists st1 r h1,
    DB.SetCode st addr c h = Some (st1, h1) /\
    DB.GetCode st1 addr h1 = Some ((st1, c), h1) /\
    DB.GetStateObj st1 addr h1 = Some ((st1, Some r), h1) /\
    Obj.GetCode r h1 = Some (c, h1) /\
    Obj.GetData r h1 = Some (c, h1) /\
    Obj.Code r treeDB h1 = Some (c, h1) /\
    DB.GetCodeSize st1 addr h1 = Some ((st1, 0), h1) /\
    DB.GetCodeHash st1 addr h1 = Some ((st1, HashZ), h1).
Proof.
  intros Hready Hlive.
  destruct (GetOrNewStateObj_run st addr h Hready Hlive)
    as (st1 & r & o & h0 & E & Hr & Eo).
  set (h1 := mkHeap (ints h0) (<[r:=with_code o c]> (sobjs h0))
               (trees h0) (stores h0)).
  assert (Eo1 : sobjs h1 !! r = Some (with_code o c)) by apply lookup_insert_eq.
  exists st1, r, h1. split.
  { unfold DB.SetCode, Obj.SetCode, Obj.setCode. rewrite (bind_run _ _ _ _ _ E).
    cbv beta iota.
    by rewrite (bind_run _ _ _ _ _
                  (modifyObj_ok _ _ _ (fun o => with_code o c) Eo)). }
  split; [by apply (GetCode_cached st1 addr r (with_code o c) h1) |].
  split; [by apply GetStateObj_cached |].
  unfold Obj.GetCode, Obj.GetData, Obj.Code.
  rewrite !(bind_run _ _ _ _ _ (loadObj_ok _ _ _ Eo1)). done.
Qed.

(** X11: a balance update with a nil amount changes no balance, and still
    makes the account: an address that was unknown is known afterwards, with
    an object that has no balance of its own. *)
Theorem nil_amount_still_makes_the_account st addr h :
  absent st addr h ->
  exists st1 h1 new,
    DB.AddBalance st addr None h = Some (st1, h1) /\
    DB.SubBalance st addr None h = Some (st1, h1) /\
    DB.SetBalance st addr None h = Some (st1, h1) /\
    db_objs st1 = <[addr:=new]> (db_objs st) /\
    sobjs h !! new = None /\
    sobjs h1 !! new = Some (freshObj st addr) /\
    ints h1 = ints h /\
    DB.HashAccount st addr h = Some ((st, false), h) /\
    DB.HashAccount st1 addr h1 = Some ((st1, true), h1) /\
    DB.GetBalance st1 addr h1 = Some ((st1, Some zeroBigN), h1).
Proof.
  intros Habs.
  pose proof (GetOrNewStateObj_absent _ _ _ Habs) as E.
  set (new := fresh (dom (sobjs h))) in *.
  set (st1 := with_objs st (<[addr:=new]> (db_objs st))) in *.
  set (h1 := setObj new (freshObj st addr) h) in *.
  assert (Hr : db_objs st1 !! addr = Some new) by apply lookup_insert_eq.
  exists st1, h1, new.
  split; [unfold DB.AddBalance; by rewrite (bind_run _ _ _ _ _ E) |].
  split; [unfold DB.SubBalance; by rewrite (bind_run _ _ _ _ _ E) |].
  split; [unfold DB.SetBalance; by rewrite (bind_run _ _ _ _ _ E) |].
  split; [done |].
  split; [apply fresh_obj_unused |].
  split; [apply lookup_setObj |].
  split; [done |].
  split.
  { unfold DB.HashAccount.
    by rewrite (bind_run _ _ _ _ _ (GetStateObj_absent _ _ _ Habs)). }
  split.
  { unfold DB.HashAccount.
    by rewrite (bind_run _ _ _ _ _ (GetStateObj_cached _ _ _ _ Hr)). }
  rewrite (GetBalance_cached st1 addr new (freshObj st addr) h1);
    [done | done | apply lookup_setObj].
Qed.

(** X12: [CreateAccount] hands the balance pointer of the old object to the
    new one: a StateDB that still caches the old object, a copy made before,
    reads the balance of the new account after a later [SubBalance], and the
    old nonce. *)
Theorem CreateAccount_shares_the_balance_integer st cpy addr r o b x w y h :
  db_objs st !! addr = Some r -> db_objs cpy !! addr = Some r ->
  sobjs h !! r = Some o -> balance o = Some b ->
  ints h !! b = Some x -> ints h !! w = Some y -> 0 < y -> y <= x ->
  exists st1 h1 h2,
    DB.CreateAccount st addr h = Some (st1, h1) /\
    DB.SubBalance st1 addr (Some w) h1 = Some (st1, h2) /\
    DB.GetBalance st1 addr h2 = Some ((st1, Some b), h2) /\
    DB.GetBalance cpy addr h2 = Some ((cpy, Some b), h2) /\
    ints h2 !! b = Some (x - y) /\
    DB.GetNonce st1 addr h2 = Some ((st1, 0), h2) /\
    DB.GetNonce cpy addr h2 = Some ((cpy, nonce o), h2).
Proof.
  intros Er Ec Eo Eb Ex Ew Hy Hxy.
  set (new := fresh (dom (sobjs h))).
  assert (Hnew : sobjs h !! new = None) by apply fresh_obj_unused.
  assert (Hne : new <> r) by (intros E; rewrite E in Hnew; congruence).
  set (st1 := with_objs st (<[addr:=new]> (db_objs st))).
  set (h0 := setObj new (freshObj st addr) h).
  set (o1 := with_balance (freshObj st addr) (Some b)).
  set (h1 := mkHeap (ints h0) (<[new:=o1]> (sobjs h0)) (trees h0) (stores h0)).
  set (h2 := mkHeap (<[b:=x - y]> (ints h1)) (<[new:=o1]> (sobjs h1))
               (trees h1) (stores h1)).
  assert (Hr1 : db_objs st1 !! addr = Some new) by apply lookup_insert_eq.
  assert (Eo0 : sobjs h0 !! r = Some o).
  { unfold h0, setObj. cbn [sobjs]. by rewrite lookup_insert_ne. }
  assert (Eo2 : sobjs h2 !! r = Some o).
  { cbn [sobjs h2 h1]. by rewrite !lookup_insert_ne. }
  assert (En2 : sobjs h2 !! new = Some o1) by apply lookup_insert_eq.
  exists st1, h1, h2. split.
  { unfold DB.CreateAccount.
    rewrite (bind_run _ _ _ _ _ (GetStateObj_cached _ _ _ _ Er)). cbv beta iota.
    rewrite (bind_run _ _ _ _ _ (newStateObj_run st addr h)). cbv beta iota.
    fold new h0 st1.
    rewrite (bind_run _ _ _ _ _ (loadObj_ok _ _ _ Eo0)).
    rewrite (bind_run _ _ _ _ _
               (modifyObj_ok h0 new (freshObj st addr)
                  (fun a => with_balance a (balance o)) (lookup_setObj _ _ _))).
    by rewrite Eb. }
  split.
  { unfold DB.SubBalance.
    rewrite (bind_run _ _ _ _ _ (GetOrNewStateObj_cached _ _ _ h1 Hr1)).
    cbv beta iota. erewrite bind_run; [done |].
    rewrite (SubBalance_positive new o1 w x y h1);
      [| apply lookup_insert_eq | done | done | done].
    cbn zeta. destruct (Z.ltb_spec (x - y) 0) as [?|_]; [lia | done]. }
  split; [by rewrite (GetBalance_cached st1 addr new o1 h2) |].
  split; [rewrite (GetBalance_cached cpy addr r o h2) by done; by rewrite Eb |].
  split; [apply lookup_insert_eq |].
  split; [by rewrite (GetNonce_cached st1 addr new o1 h2) |].
  by rewrite (GetNonce_cached cpy addr r o h2).
Qed.

End MoreLookup.

(** ** The storage of an account *)

Section MoreStorage.
Context `{Imports}.

(** What [GetStateValue] returns, panics included. *)
Lemma GetStateValue_value so key h :
  fst <$> Obj.GetStateValue so key h =
    match sobjs h !! so with
    | Some o =>
        match default ∅ (cacheStorage o) !! key with
        | Some val => Some val
        | None =>
            match db o ≫= (fun d => stores h !! d) with
            | Some sto =>
                Some (subtree sto o !! SHA256 (Address_Bytes (address o) ++ key))
            | None => None
            end
        end
    | None => None
    end.
Proof.
  unfold Obj.GetStateValue.
  destruct (sobjs h !! so) as [o|] eqn:Eo; simpl.
  2:{ unfold bind, loadObj. by rewrite Eo. }
  rewrite (bind_run _ _ _ _ _ (loadObj_ok _ _ _ Eo)).
  destruct (default ∅ (cacheStorage o) !! key) as [val|]; [done |].
  destruct (db o) as [d|] eqn:Ed; simpl.
  2:{ unfold bind at 1. unfold Obj.getStateTree.
      rewrite (bind_run _ _ _ _ _ (loadObj_ok _ _ _ Eo)). by rewrite Ed. }
  destruct (stores h !! d) as [S|] eqn:ES; simpl.
  2:{ unfold bind at 1. unfold Obj.getStateTree.
      rewrite (bind_run _ _ _ _ _ (loadObj_ok _ _ _ Eo)). rewrite Ed.
      unfold avlmerkle.NewTree, bind, deref, ret, loadStorage. by rewrite ES. }
  rewrite (bind_run _ _ _ _ _ (getStateTree_ok _ _ _ _ _ Eo Ed ES)).
  set (t := fresh (dom (trees h))).
  set (h1 := setTree t (mkTree d (subtree S o)) h).
  assert (Eo1 : sobjs h1 !! so = Some o) by done.
  rewrite (bind_run _ _ _ _ _ (makeStateKey_ok _ _ _ key Eo1)).
  assert (Et : trees h1 !! t = Some (mkTree d (subtree S o)))
    by apply lookup_insert_eq.
  rewrite (bind_run _ _ _ _ _ (Get_ok _ _ _ _ Et)). simpl.
  by destruct (subtree S o !! _).
Qed.

(** X13: [GetStateValue] answers from the cache when the key is buffered,
    also with a buffered nil value; otherwise it opens the storage at the
    root of the object and answers with what is stored there under the hash
    of address and key, nil when nothing is. It changes neither the object
    nor the storage. *)
Theorem GetStateValue_cache_then_storage so o key h :
  sobjs h !! so = Some o ->
  (forall val, default ∅ (cacheStorage o) !! key = Some val ->
     Obj.GetStateValue so key h = Some (val, h)) /\
  (default ∅ (cacheStorage o) !! key = None ->
   forall d S, db o = Some d -> stores h !! d = Some S ->
   exists h',
     Obj.GetStateValue so key h =
       Some (subtree S o !! SHA256 (Address_Bytes (address o) ++ key), h') /\
     ints h' = ints h /\ sobjs h' = sobjs h /\ stores h' = stores h /\
     trees h ⊆ trees h').
Proof.
  intros Eo. unfold Obj.GetStateValue.
  rewrite (bind_run _ _ _ _ _ (loadObj_ok _ _ _ Eo)). split.
  - by intros val ->.
  - intros -> d S Ed ES.
    rewrite (bind_run _ _ _ _ _ (getStateTree_ok _ _ _ _ _ Eo Ed ES)).
    set (t := fresh (dom (trees h))).
    set (h1 := setTree t (mkTree d (subtree S o)) h).
    assert (Eo1 : sobjs h1 !! so = Some o) by done.
    rewrite (bind_run _ _ _ _ _ (makeStateKey_ok _ _ _ key Eo1)).
    assert (Et : trees h1 !! t = Some (mkTree d (subtree S o)))
      by apply lookup_insert_eq.
    rewrite (bind_run _ _ _ _ _ (Get_ok _ _ _ _ Et)).
    cbn [tree_kv].
    exists h1. split; [by destruct (subtree S o !! _) |].
    repeat split. apply insert_subseteq, fresh_tree_unused.
Qed.

(** X14: of two writes to one key the later one is read; the writes are seen
    under no other key of the object and through no other object. *)
Theorem SetState_last_write_wins so o c key v w h :
  sobjs h !! so = Some o -> cacheStorage o = Some c ->
  exists h1 h2,
    Obj.SetState so key v h = Some (tt, h1) /\
    Obj.SetState so key w h1 = Some (tt, h2) /\
    Obj.GetStateValue so key h2 = Some (w, h2) /\
    (forall key', key' <> key ->
       fst <$> Obj.GetStateValue so key' h2 = fst <$> Obj.GetStateValue so key' h) /\
    (forall so' key', so' <> so ->
       fst <$> Obj.GetStateValue so' key' h2
         = fst <$> Obj.GetStateValue so' key' h).
Proof.
  intros Eo Ec.
  set (o1 := with_cacheStorage o (Some (<[key:=v]> c))).
  set (h1 := mkHeap (ints h) (<[so:=o1]> (sobjs h)) (trees h) (stores h)).
  set (o2 := with_cacheStorage o1 (Some (<[key:=w]> (<[key:=v]> c)))).
  set (h2 := mkHeap (ints h1) (<[so:=o2]> (sobjs h1)) (trees h1) (stores h1)).
  assert (Eo1 : sobjs h1 !! so = Some o1) by apply lookup_insert_eq.
  assert (Eo2 : sobjs h2 !! so = Some o2) by apply lookup_insert_eq.
  exists h1, h2.
  split.
  { unfold Obj.SetState. rewrite (bind_run _ _ _ _ _ (loadObj_ok _ _ _ Eo)).
    rewrite Ec. unfold storeObj. by rewrite Eo. }
  split.
  { unfold Obj.SetState. rewrite (bind_run _ _ _ _ _ (loadObj_ok _ _ _ Eo1)).
    simpl. unfold storeObj. by rewrite Eo1. }
  split.
  { unfold Obj.GetStateValue.
    rewrite (bind_run _ _ _ _ _ (loadObj_ok _ _ _ Eo2)). simpl.
    by rewrite lookup_insert_eq. }
  split.
  - intros key' Hk. rewrite !GetStateValue_value, Eo2, Eo. simpl.
    rewrite Ec. simpl. by rewrite !lookup_insert_ne.
  - intros so' key' Hso. rewrite !GetStateValue_value. simpl.
    by rewrite !lookup_insert_ne.
Qed.

(** X15: the key under which a storage entry is kept names its account: with
    addresses of one length, and a hash without collisions, two entries have
    the same key only if both the account and the storage key are the same. *)
Theorem makeStateKey_names_the_account so1 so2 o1 o2 k1 k2 h :
  Inj (=) (=) SHA256 -> Inj (=) (=) Address_Bytes ->
  (forall a b, length (Address_Bytes a) = length (Address_Bytes b)) ->
  sobjs h !! so1 = Some o1 -> sobjs h !! so2 = Some o2 ->
  exists d1 d2,
    Obj.makeStateKey so1 k1 h = Some (d1, h) /\
    Obj.makeStateKey so2 k2 h = Some (d2, h) /\
    (d1 = d2 <-> address o1 = address o2 /\ k1 = k2).
Proof.
  intros Hsha Hbytes Hlen E1 E2.
  eexists _, _. split; [by apply makeStateKey_ok |].
  split; [by apply makeStateKey_ok |]. split.
  - intros E. apply Hsha in E. apply app_inj_1 in E as [Ea Ek]; [|apply Hlen].
    split; [by apply Hbytes | done].
  - by intros [-> ->].
Qed.

Lemma decodedObj_unassigned r num o :
  extra (decodedObj r num o) = extra o /\
  cacheStorage (decodedObj r num o) = cacheStorage o /\
  db (decodedObj r num o) = db o /\
  merkleTree (decodedObj r num o) = merkleTree o.
Proof. unfold decodedObj. repeat case_match; done. Qed.

(** X16: an object that [GetStateObj] decodes from the tree has a nil
    storage cache and no storage handle, whatever its record says:
    [SetState] on it panics. *)
Theorem SetState_panics_on_a_loaded_object st addr t T val key value h :
  db_objs st !! addr = None ->
  db_merkleTree st = Some t -> trees h !! t = Some T ->
  tree_kv T !! SHA256 (Address_Bytes addr) = Some val ->
  exists st1 r o h1,
    DB.GetStateObj st addr h = Some ((st1, Some r), h1) /\
    sobjs h1 !! r = Some o /\
    cacheStorage o = None /\ db o = None /\ extra o = None /\
    Obj.SetState r key value h1 = None.
Proof.
  intros Hc Ht ET Eval.
  pose proof (GetStateObj_load st addr t T val h Hc Ht ET Eval) as E.
  cbv zeta in E.
  set (r := fresh (dom (sobjs h))) in *.
  set (o := loadedObj st val (fresh (dom (ints h)))) in *.
  assert (Hfields : cacheStorage o = None /\ db o = None /\ extra o = None).
  { unfold o, loadedObj. simpl.
    destruct (StringDecodeMap _) as [m|]; [|done].
    destruct (decodedObj_unassigned m (fresh (dom (ints h))) Obj.zeroValue)
      as (-> & -> & -> & _). done. }
  destruct Hfields as (Hcache & Hdb & Hextra).
  eexists _, r, o, _. split; [exact E |].
  split; [apply lookup_insert_eq |].
  split; [done |]. split; [done |]. split; [done |].
  unfold Obj.SetState.
  rewrite (bind_run _ _ _ _ _ (loadObj_ok _ r o (lookup_insert_eq _ _ _))).
  by rewrite Hcache.
Qed.

End MoreStorage.

(** ** The account record *)

Section MoreCodec.
Context `{Imports}.


Lemma Encode_value so o h :
  sobjs h !! so = Some o ->
  Obj.Encode so h = (fun txt => (record o txt, h)) <$> balance_text h o.
Proof.
  intros Eo. unfold Obj.Encode, balance_text.
  rewrite (bind_run _ _ _ _ _ (loadObj_ok _ _ _ Eo)).
  destruct (balance o) as [b|]; [|done].
  unfold bind, loadInt, ret. by destruct (ints h !! b).
Qed.

(** X18: the record is made of the address, the balance as a number, the
    nonce, the bytes of the code and the storage root: two objects that
    agree on these encode to the same bytes, whatever their extra data,
    their storage cache and their handles are, and whether the code is nil
    or empty. *)
Theorem Encode_reads_the_persisted_fields so1 so2 o1 o2 h :
  sobjs h !! so1 = Some o1 -> sobjs h !! so2 = Some o2 ->
  address o1 = address o2 -> balance_text h o1 = balance_text h o2 ->
  nonce o1 = nonce o2 -> slice_bytes (code o1) = slice_bytes (code o2) ->
  stateRoot o1 = stateRoot o2 ->
  fst <$> Obj.Encode so1 h = fst <$> Obj.Encode so2 h.
Proof.
  intros E1 E2 Ha Hb Hn Hc Hr.
  rewrite (Encode_value _ _ _ E1), (Encode_value _ _ _ E2), <- Hb.
  destruct (balance_text h o1) as [txt|]; [|done]. simpl. f_equal.
  unfold record. do 2 f_equal.
  rewrite !objmap_base. unfold baseOf. by rewrite Ha, Hn, Hc, Hr.
Qed.

End MoreCodec.

(** ** Reading a record back *)

Section ReadBack.
Context `{Imports}.

(** The laws of the imported packages that reading back rests on, as in
    the round trip of the record. *)
Hypothesis codec_inverts :
  forall m : gmap string string,
    map_Forall (fun k v => wire_safe k = true /\ wire_safe v = true) m ->
    exists r,
      StringDecodeMap (SortAndEncodeMap m) = Some r /\
      forall k, r !! k = m !! k \/ (r !! k = None /\ m !! k = Some EmptyString).
Hypothesis address_text :
  forall a, wire_safe (Address_String a) = true /\
            Address_String a <> EmptyString /\
            StrB58ToAddress (Address_String a) = a.
Hypothesis hash_bytes :
  forall x, Bytes2Hash (Hash_Bytes x) = x /\ Hash_Bytes x <> [].

Ltac entry_lookup :=
  repeat (rewrite lookup_insert_eq || rewrite lookup_insert_ne by done
          || rewrite lookup_empty).

(** What decoding the record of [o] assigns to an object whose code is
    empty and whose storage root is zero. *)
Lemma record_decodes o txt h0 :
  balance_text h0 o = Some txt -> 0 <= nonce o < 2 ^ 64 ->
  exists r,
    StringDecodeMap (string_of_list_byte (record o txt)) = Some r /\
    r !! "balance" = Some txt /\
    forall num o0,
      slice_bytes (code o0) = [] -> stateRoot o0 = HashZ ->
      address (decodedObj r num o0) = address o /\
      nonce (decodedObj r num o0) = nonce o /\
      slice_bytes (code (decodedObj r num o0)) = slice_bytes (code o) /\
      stateRoot (decodedObj r num o0) = stateRoot o.
Proof.
  intros Etxt Hn.
  destruct (balance_text_safe _ _ _ Etxt) as (Hsafe & Hne & Hparse).
  set (m := Obj.objmap o txt).
  destruct (codec_inverts m (objmap_safe address_text o txt Hsafe))
    as (r & Er & Hr).
  exists r. split.
  { unfold record. by rewrite string_of_list_byte_of_string. }
  destruct (address_text (address o)) as (_ & Hane & Hart).
  assert (Ra : r !! "address" = Some (Address_String (address o))).
  { apply (kept m); [done | | done]. unfold m.
    rewrite objmap_lookup by done. unfold baseOf, baseMap. by entry_lookup. }
  assert (Rb : r !! "balance" = Some txt).
  { apply (kept m); [done | | done]. unfold m.
    rewrite objmap_lookup by done. unfold baseOf, baseMap. by entry_lookup. }
  assert (Rn : r !! "nonce" = Some (big.Text10 (nonce o))).
  { apply (kept m); [done | | apply Text10_nonempty]. unfold m.
    rewrite objmap_lookup by done. unfold baseOf, baseMap. by entry_lookup. }
  assert (Rc : (r !! "code" ≫= hex.DecodeString) = Some (slice_bytes (code o))
               \/ r !! "code" = None /\ slice_bytes (code o) = []).
  { assert (Em : m !! "code" = Some (hex.EncodeToString (slice_bytes (code o)))).
    { unfold m. rewrite objmap_lookup by done. unfold baseOf, baseMap.
      by entry_lookup. }
    destruct (Hr "code") as [E|[E E']].
    - left. rewrite E, Em. simpl. apply DecodeString_EncodeToString.
    - right. split; [done |]. rewrite Em in E'. injection E' as E'.
      by apply EncodeToString_empty. }
  assert (Rr : Obj.loadBytesByMapKey r "state_root" =
               if decide (Hash_Bytes (stateRoot o) = Hash_Bytes HashZ) then None
               else Some (Hash_Bytes (stateRoot o))).
  { unfold Obj.loadBytesByMapKey.
    pose proof (objmap_root o txt) as Em. fold m in Em.
    case_decide as Hz.
    - destruct (Hr "state_root") as [E|[E _]]; rewrite E; [by rewrite Em | done].
    - rewrite (kept m r _ _ Hr Em).
      + apply DecodeString_EncodeToString.
      + intros E0. apply EncodeToString_empty in E0.
        by apply (proj2 (hash_bytes (stateRoot o))). }
  split; [done |]. intros num o0 Hc0 Hr0.
  split; [by rewrite decodedObj_address, Ra |].
  split.
  { rewrite decodedObj_nonce, Rn. cbn [mbind option_bind].
    rewrite SetString10_Text10. by apply Uint64_small. }
  split.
  { rewrite decodedObj_code. destruct Rc as [->|[-> ->]]; done. }
  rewrite decodedObj_stateRoot, Rr. case_decide as Hz.
  - rewrite Hr0. by rewrite <- (proj1 (hash_bytes (stateRoot o))), Hz,
                      (proj1 (hash_bytes HashZ)).
  - apply hash_bytes.
Qed.

(** A lookup of an address whose entry in the tree is the record of [o]. *)
Lemma lookup_reads_record st addr t T o txt h0 h :
  balance_text h0 o = Some txt -> 0 <= nonce o < 2 ^ 64 ->
  db_objs st !! addr = None ->
  db_merkleTree st = Some t -> trees h !! t = Some T ->
  tree_kv T !! SHA256 (Address_Bytes addr) = Some (record o txt) ->
  exists r o' h1,
    DB.GetStateObj st addr h
      = Some ((with_objs st (<[addr:=r]> (db_objs st)), Some r), h1) /\
    sobjs h !! r = None /\ sobjs h1 !! r = Some o' /\
    address o' = address o /\ nonce o' = nonce o /\
    slice_bytes (code o') = slice_bytes (code o) /\
    stateRoot o' = stateRoot o /\
    balance_text h1 o' = Some txt /\
    merkleTree o' = Some t /\
    extra o' = None /\ cacheStorage o' = None /\ db o' = None.
Proof.
  intros Etxt Hn Hc Ht ET Eval.
  destruct (record_decodes o txt h0 Etxt Hn) as (r & Er & Rb & Hfields).
  destruct (balance_text_safe _ _ _ Etxt) as (_ & _ & Hparse).
  pose proof (GetStateObj_load st addr t T (record o txt) h Hc Ht ET Eval) as E.
  cbv zeta in E.
  set (new := fresh (dom (sobjs h))) in *.
  set (num := fresh (dom (ints h))) in *.
  assert (Eo' : loadedObj st (record o txt) num
                = with_merkleTree (decodedObj r num Obj.zeroValue) (Some t)).
  { unfold loadedObj. by rewrite Er, Ht. }
  rewrite Eo' in E.
  destruct (Hfields num Obj.zeroValue eq_refl eq_refl) as (Ha & Hno & Hco & Hro).
  destruct (decodedObj_unassigned r num Obj.zeroValue) as (He & Hca & Hdb & _).
  eexists new, _, _. split; [exact E |].
  split; [apply fresh_obj_unused |].
  split; [apply lookup_insert_eq |].
  do 4 (split; [done |]).
  split; [|done].
  unfold balance_text. cbn [balance with_merkleTree].
  rewrite decodedObj_balance, Rb. cbn [mbind option_bind]. rewrite Hparse.
  unfold loadedInts. rewrite Er. cbn [mbind option_bind]. rewrite Rb.
  cbn [mbind option_bind]. rewrite Hparse. cbn [ints].
  unfold balance_text in Etxt.
  destruct (balance o) as [p|]; simpl in *; [|done].
  destruct (ints h0 !! p) as [z|]; [|done]. simpl.
  by rewrite lookup_insert_eq.
Qed.

(** X19: what was encoded is what a lookup decodes: an address whose entry
    in the tree is the record of an object is found with the address, the
    nonce, the code bytes, the storage root and the balance of that object,
    and is cached. The extra data are not part of the record, and the new
    object has neither a storage cache nor a storage handle. *)
Theorem GetStateObj_reads_the_record st addr t T o txt h0 h :
  balance_text h0 o = Some txt -> 0 <= nonce o < 2 ^ 64 ->
  db_objs st !! addr = None ->
  db_merkleTree st = Some t -> trees h !! t = Some T ->
  tree_kv T !! SHA256 (Address_Bytes addr) = Some (record o txt) ->
  exists st1 r o' h1,
    DB.GetStateObj st addr h = Some ((st1, Some r), h1) /\
    db_objs st1 = <[addr:=r]> (db_objs st) /\
    sobjs h1 !! r = Some o' /\
    address o' = address o /\ nonce o' = nonce o /\
    slice_bytes (code o') = slice_bytes (code o) /\
    stateRoot o' = stateRoot o /\
    balance_text h1 o' = Some txt /\
    merkleTree o' = Some t /\
    extra o' = None /\ cacheStorage o' = None /\ db o' = None.
Proof.
  intros Etxt Hn Hc Ht ET Eval.
  destruct (lookup_reads_record st addr t T o txt h0 h Etxt Hn Hc Ht ET Eval)
    as (r & o' & h1 & E & _ & Hrest).
  by eexists _, r, o', h1.
Qed.



End ReadBack.

(** ** The bulk flush *)

Section MoreFlush.
Context `{Imports}.

(** X21: [UpdateAll] runs on a cache of objects with live handles, and
    changes nothing but storage roots and trees: integers, storage, and
    every other field of every object stay as they were, and an object that
    is not cached is not touched at all. *)
Theorem UpdateAll_changes_only_storage_roots st h :
  (forall a r, db_objs st !! a = Some r -> updatable h r) ->
  exists h',
    DB.UpdateAll st h = Some (st, h') /\
    ints h' = ints h /\ stores h' = stores h /\
    (forall r o, sobjs h !! r = Some o ->
       exists rt, sobjs h' !! r = Some (with_stateRoot o rt)) /\
    (forall r, (forall a, db_objs st !! a <> Some r) ->
       sobjs h' !! r = sobjs h !! r) /\
    (forall t T, trees h !! t = Some T -> is_Some (trees h' !! t)).
Proof.
  intros Hup.
  destruct (forM_Update_frame (fun _ => False) (map_to_list (db_objs st)) h)
    as (h' & E & F).
  { intros [a r] Hin. apply elem_of_map_to_list in Hin. by apply (Hup a). }
  { intros kv o _ _ []. }
  exists h'. split.
  { unfold DB.UpdateAll. by rewrite (bind_run _ _ _ _ _ E). }
  split; [apply F |]. split; [apply F |].
  split; [apply (ff_objs _ _ _ _ F) |].
  split.
  - intros r Hr. apply (ff_untouched _ _ _ _ F).
    intros Hin. apply list_elem_of_fmap in Hin as ([a r'] & -> & Hin).
    apply elem_of_map_to_list in Hin. by apply (Hr a).
  - intros t T Et. destruct (ff_trees _ _ _ _ F t T Et) as (T' & -> & _). eauto.
Qed.

End MoreFlush.

(** ** Placeholders that ignore the state *)

Section MorePlaceholders.
Context `{Imports}.

(** X22: [Exist], [Empty] and [HasSuicided] answer true whatever the state
    is: an address that is neither cached nor in the tree exists, and an
    account that holds a positive balance is empty and has self-destructed. *)
Theorem Exist_and_Empty_ignore_the_state st addr v a h :
  absent st addr h -> ints h !! zeroBigN = Some 0 ->
  ints h !! v = Some a -> 0 < a ->
  DB.HashAccount st addr h = Some ((st, false), h) /\
  DB.Exist st addr h = Some ((st, true), h) /\
  exists st1 h1 p,
    DB.AddBalance st addr (Some v) h = Some (st1, h1) /\
    DB.GetBalance st1 addr h1 = Some ((st1, Some p), h1) /\
    ints h1 !! p = Some a /\
    DB.Empty st1 addr h1 = Some ((st1, true), h1) /\
    DB.HasSuicided st1 addr h1 = Some ((st1, true), h1).
Proof.
  intros Habs Ez Ev Ha.
  split.
  { unfold DB.HashAccount.
    by rewrite (bind_run _ _ _ _ _ (GetStateObj_absent _ _ _ Habs)). }
  split; [done |].
  set (new := fresh (dom (sobjs h))).
  set (st1 := with_objs st (<[addr:=new]> (db_objs st))).
  set (h0 := setObj new (freshObj st addr) h).
  set (p := fresh (dom (ints h))).
  set (o1 := with_balance (freshObj st addr) (Some p)).
  set (h1 := mkHeap (<[p:=0 + a]> (ints h0)) (<[new:=o1]> (sobjs h0))
               (trees h0) (stores h0)).
  exists st1, h1, p. split.
  { unfold DB.AddBalance.
    rewrite (bind_run _ _ _ _ _ (GetOrNewStateObj_absent _ _ _ Habs)).
    fold new h0. erewrite bind_run; [done |].
    apply (AddBalance_positive new (freshObj st addr) v 0 a h0);
      [apply lookup_setObj | done | done | lia | lia]. }
  split.
  { rewrite (GetBalance_cached st1 addr new o1 h1);
      [done | apply lookup_insert_eq | apply lookup_insert_eq]. }
  split; [simpl; by rewrite lookup_insert_eq |]. done.
Qed.

End MorePlaceholders.

(** ** api/types.go *)

Section MoreApi.
Context `{Imports}.

Lemma index_inv a i w :
  api.index a i = Some w -> 0 <= i /\ a !! Z.to_nat i = Some w.
Proof.
  unfold api.index. destruct (Z.ltb_spec i 0); [done |]. by intros ->.
Qed.

Lemma index_ok a i w :
  0 <= i -> a !! Z.to_nat i = Some w -> api.index a i = Some w.
Proof.
  intros Hi E. unfold api.index. by destruct (Z.ltb_spec i 0); [lia |].
Qed.

Lemma Less_ok a i j wi wj :
  api.index a i = Some (Some wi) -> api.index a j = Some (Some wj) ->
  api.Less a i j = Some (api.newTime wi >? api.newTime wj).
Proof. intros Ei Ej. unfold api.Less. by rewrite Ei, Ej. Qed.

(** X23: [Less] is the strict order of the wallets by their time, newest
    first: no wallet is before itself, no two are before each other, the
    order is transitive, and two wallets neither of which is before the
    other have the same time. *)
Theorem Less_orders_newest_first a i j k wi wj wk :
  api.index a i = Some (Some wi) -> api.index a j = Some (Some wj) ->
  api.index a k = Some (Some wk) ->
  api.Less a i i = Some false /\
  (api.Less a i j = Some true <-> api.newTime wj < api.newTime wi) /\
  (api.Less a i j = Some true -> api.Less a j i = Some false) /\
  (api.Less a i j = Some true -> api.Less a j k = Some true ->
   api.Less a i k = Some true) /\
  (api.Less a i j = Some false -> api.Less a j i = Some false ->
   api.newTime wi = api.newTime wj).
Proof.
  intros Ei Ej Ek.
  rewrite (Less_ok a i i wi wi), (Less_ok a i j wi wj), (Less_ok a j i wj wi),
    (Less_ok a j k wj wk), (Less_ok a i k wi wk) by done.
  repeat split.
  - f_equal. lia.
  - intros [= E]. lia.
  - intros E. f_equal. lia.
  - intros [= E]. f_equal. lia.
  - intros [= E1] [= E2]. f_equal. lia.
  - intros [= E1] [= E2]. lia.
Qed.

Lemma swap_lookup {A} (l : list A) i j x y k :
  l !! i = Some x -> l !! j = Some y ->
  <[j:=x]> (<[i:=y]> l) !! k =
    if decide (k = j) then Some x else if decide (k = i) then Some y else l !! k.
Proof.
  intros Ei Ej.
  pose proof (lookup_lt_Some _ _ _ Ei). pose proof (lookup_lt_Some _ _ _ Ej).
  rewrite !list_lookup_insert, ?length_insert.
  repeat case_decide; try done; try lia; naive_solver lia.
Qed.

(** X24: [Swap] exchanges the two elements and nothing else: the slice keeps
    its length and its elements, a second [Swap] undoes the first, and
    [Less] of the two positions is [Less] of the exchanged positions before. *)
Theorem Swap_exchanges_two_elements a i j a' :
  api.Swap a i j = Some a' ->
  api.Len a' = api.Len a /\
  api.index a' i = api.index a j /\ api.index a' j = api.index a i /\
  (forall k, k <> i -> k <> j -> api.index a' k = api.index a k) /\
  a' ≡ₚ a /\
  api.Swap a' i j = Some a /\
  api.Less a' i j = api.Less a j i.
Proof.
  unfold api.Swap. intros E.
  destruct (api.index a j) as [wj|] eqn:Ej; [|done].
  destruct (api.index a i) as [wi|] eqn:Ei; [|done].
  injection E as <-.
  destruct (index_inv _ _ _ Ei) as [Hi Eni].
  destruct (index_inv _ _ _ Ej) as [Hj Enj].
  set (a' := <[Z.to_nat j:=wi]> (<[Z.to_nat i:=wj]> a)).
  assert (L : forall k, a' !! k =
            if decide (k = Z.to_nat j) then Some wi
            else if decide (k = Z.to_nat i) then Some wj else a !! k).
  { intros k. by apply swap_lookup. }
  assert (Hlen : length a' = length a).
  { unfold a'. etrans; apply length_insert. }
  assert (Ei' : api.index a' i = Some wj).
  { apply index_ok; [done |]. rewrite L.
    repeat case_decide; congruence. }
  assert (Ej' : api.index a' j = Some wi).
  { apply index_ok; [done |]. rewrite L. by rewrite decide_True. }
  split; [unfold api.Len; by rewrite Hlen |].
  split; [done |]. split; [done |].
  split.
  { intros k Hki Hkj. unfold api.index.
    destruct (Z.ltb_spec k 0); [done |]. rewrite L.
    rewrite !decide_False by lia. done. }
  split.
  { apply Permutation_inj. split; [done |].
    exists (fun k => if decide (k = Z.to_nat j) then Z.to_nat i
                     else if decide (k = Z.to_nat i) then Z.to_nat j else k).
    split.
    - intros k1 k2 E. repeat case_decide; congruence.
    - intros k. rewrite L. repeat case_decide; subst; done. }
  split.
  { rewrite Ej', Ei'. f_equal. apply list_eq. intros k.
    etrans; [apply (swap_lookup a' (Z.to_nat i) (Z.to_nat j) wj wi k) |].
    - apply index_inv in Ei'. tauto.
    - apply index_inv in Ej'. tauto.
    - rewrite L. repeat case_decide; subst; done. }
  unfold api.Less. by rewrite Ei', Ej', Ej, Ei.
Qed.

Lemma GetExtra_cached st addr r o h :
  db_objs st !! addr = Some r -> sobjs h !! r = Some o ->
  DB.GetExtra st addr h = Some ((st, extra o), h).
Proof.
  intros Er Eo. unfold DB.GetExtra, Obj.GetExtra.
  rewrite (bind_run _ _ _ _ _ (GetOrNewStateObj_cached _ _ _ _ Er)).
  cbv beta iota. unfold bind. by rewrite (loadObj_ok _ _ _ Eo).
Qed.

Lemma GetStateRoot_cached st addr r o h :
  db_objs st !! addr = Some r -> sobjs h !! r = Some o ->
  DB.GetStateRoot st addr h = Some ((st, stateRoot o), h).
Proof.
  intros Er Eo. unfold DB.GetStateRoot, Obj.GetStateRoot.
  rewrite (bind_run _ _ _ _ _ (GetOrNewStateObj_cached _ _ _ _ Er)).
  cbv beta iota. unfold bind. by rewrite (loadObj_ok _ _ _ Eo).
Qed.

Lemma hexField_spec bs :
  (api.hexField bs = None <-> slice_bytes bs = []) /\
  (forall s, api.hexField bs = Some s ->
     exists digits, s = "0x" +:+ digits /\
                    hex.DecodeString digits = Some (slice_bytes bs)).
Proof.
  unfold api.hexField.
  pose proof (DecodeString_EncodeToString (slice_bytes bs)) as D.
  pose proof (EncodeToString_empty (slice_bytes bs)) as Hempty.
  destruct (hex.EncodeToString (slice_bytes bs)) as [|c text] eqn:E.
  - rewrite (Hempty eq_refl) in *. split; [done |]. done.
  - split.
    + split; [done |]. intros Hnil. rewrite Hnil in E. done.
    + intros s [= <-]. eauto.
Qed.

(** The response for an address that is cached with a live object. *)
Lemma coverState2Resp_cached st addr r o z h :
  db_objs st !! addr = Some r -> sobjs h !! r = Some o ->
  ints h !! default zeroBigN (balance o) = Some z ->
  api.coverState2Resp (Some st) addr h =
    Some ((Some st,
           Some (api.mkStateObjResp (Some (big.Text10 z)) (nonce o)
                   (api.hexField (extra o)) (api.hexField (code o))
                   (if decide (Hash_Bytes (stateRoot o) = Hash_Bytes HashZ)
                    then None else Some (stateRoot o)))), h).
Proof.
  intros Er Eo Ez. unfold api.coverState2Resp.
  pose proof (GetExtra_cached st addr r o h Er Eo) as GE.
  pose proof (GetCode_cached st addr r o h Er Eo) as GC.
  rewrite (bind_run _ _ _ _ _ GE). cbv beta iota.
  assert (Ex : match extra o with
               | Some _ => let* (st, e) := DB.GetExtra st addr in
                           ret (st, api.hexField e)
               | None => ret (st, None)
               end h = Some ((st, api.hexField (extra o)), h)).
  { destruct (extra o) as [e|] eqn:Ee; [|done].
    by rewrite (bind_run _ _ _ _ _ GE). }
  rewrite (bind_run _ _ _ _ _ Ex). cbv beta iota.
  rewrite (bind_run _ _ _ _ _ GC). cbv beta iota.
  assert (Ec : match code o with
               | Some _ => let* (st, c) := DB.GetCode st addr in
                           ret (st, api.hexField c)
               | None => ret (st, None)
               end h = Some ((st, api.hexField (code o)), h)).
  { destruct (code o) as [c|] eqn:Ec; [|done].
    by rewrite (bind_run _ _ _ _ _ GC). }
  rewrite (bind_run _ _ _ _ _ Ec). cbv beta iota.
  rewrite (bind_run _ _ _ _ _ (GetStateRoot_cached st addr r o h Er Eo)).
  cbv beta iota.
  rewrite (bind_run _ _ _ _ _ (GetBalance_cached st addr r o h Er Eo)).
  cbv beta iota.
  assert (Et : api.Text (Some (default zeroBigN (balance o))) h
               = Some (big.Text10 z, h)).
  { unfold api.Text. by rewrite (bind_run _ _ _ _ _ (loadInt_ok _ _ _ Ez)). }
  rewrite (bind_run _ _ _ _ _ Et).
  by rewrite (bind_run _ _ _ _ _ (GetNonce_cached st addr r o h Er Eo)).
Qed.

(** X25: the response for a cached account: the balance in decimal digits
    that read back as the balance, the nonce, the storage root unless it is
    zero, and code and extra data as 0x and their hexadecimal digits, left
    out when they have no byte. The StateDB and the heap are as before. *)
Theorem coverState2Resp_of_a_cached_account st addr r o z h :
  db_objs st !! addr = Some r -> sobjs h !! r = Some o ->
  ints h !! default zeroBigN (balance o) = Some z ->
  exists resp text,
    api.coverState2Resp (Some st) addr h = Some ((Some st, Some resp), h) /\
    api.Balance resp = Some text /\ big.SetString10 text = Some z /\
    api.Nonce resp = nonce o /\
    (api.Code resp = None <-> slice_bytes (code o) = []) /\
    (forall s, api.Code resp = Some s ->
       exists digits, s = "0x" +:+ digits /\
                      hex.DecodeString digits = Some (slice_bytes (code o))) /\
    (api.Extra resp = None <-> slice_bytes (extra o) = []) /\
    (forall s, api.Extra resp = Some s ->
       exists digits, s = "0x" +:+ digits /\
                      hex.DecodeString digits = Some (slice_bytes (extra o))) /\
    (api.StateRoot resp = None <-> Hash_Bytes (stateRoot o) = Hash_Bytes HashZ) /\
    (forall x, api.StateRoot resp = Some x -> x = stateRoot o).
Proof.
  intros Er Eo Ez. eexists _, _.
  split; [by apply (coverState2Resp_cached st addr r o z h) |].
  cbn [api.Balance api.Nonce api.Code api.Extra api.StateRoot].
  split; [done |]. split; [apply SetString10_Text10 |]. split; [done |].
  split; [apply hexField_spec |]. split; [apply hexField_spec |].
  split; [apply hexField_spec |]. split; [apply hexField_spec |].
  case_decide; split; try done. by intros x [= <-].
Qed.

(** X26: asking for the state of an address that is neither cached nor in
    the tree makes the account: the response shows what the shared zero
    holds, nonce 0 and nothing else, and the address is cached with a new
    object afterwards. Without a StateDB nothing is stored. *)
Theorem coverState2Resp_makes_the_account st addr z0 h :
  absent st addr h -> ints h !! zeroBigN = Some z0 ->
  exists st1 h1 new,
    api.coverState2Resp (Some st) addr h =
      Some ((Some st1,
             Some (api.mkStateObjResp (Some (big.Text10 z0)) 0 None None None)),
            h1) /\
    db_objs st1 = <[addr:=new]> (db_objs st) /\
    sobjs h !! new = None /\
    sobjs h1 !! new = Some (freshObj st addr) /\
    DB.HashAccount st addr h = Some ((st, false), h) /\
    DB.HashAccount st1 addr h1 = Some ((st1, true), h1) /\
    api.coverState2Resp None addr h = Some ((None, None), h).
Proof.
  intros Habs Ez.
  pose proof (GetOrNewStateObj_absent _ _ _ Habs) as E.
  set (new := fresh (dom (sobjs h))) in *.
  set (st1 := with_objs st (<[addr:=new]> (db_objs st))) in *.
  set (h1 := setObj new (freshObj st addr) h) in *.
  assert (Hr : db_objs st1 !! addr = Some new) by apply lookup_insert_eq.
  assert (Eo : sobjs h1 !! new = Some (freshObj st addr)) by apply lookup_setObj.
  assert (GE : DB.GetExtra st addr h = Some ((st1, None), h1)).
  { unfold DB.GetExtra, Obj.GetExtra. rewrite (bind_run _ _ _ _ _ E).
    cbv beta iota. unfold bind. by rewrite (loadObj_ok _ _ _ Eo). }
  exists st1, h1, new. split.
  { pose proof (coverState2Resp_cached st1 addr new (freshObj st addr) z0 h1
                  Hr Eo Ez) as C.
    unfold api.coverState2Resp in *.
    rewrite (bind_run _ _ _ _ _ (GetExtra_cached st1 addr new _ h1 Hr Eo)) in C.
    rewrite (bind_run _ _ _ _ _ GE). cbn [extra freshObj] in C. rewrite C.
    cbn [nonce code stateRoot extra freshObj]. rewrite decide_True by done.
    done. }
  split; [done |].
  split; [apply fresh_obj_unused |].
  split; [done |].
  split.
  { unfold DB.HashAccount.
    by rewrite (bind_run _ _ _ _ _ (GetStateObj_absent _ _ _ Habs)). }
  split; [|done].
  unfold DB.HashAccount.
  by rewrite (bind_run _ _ _ _ _ (GetStateObj_cached _ _ _ _ Hr)).
Qed.

End MoreApi.

(** ** The properties on the sample instantiation *)

Section MoreInstances.
#[local] Existing Instance Sample.imports.

Lemma AddBalance_twice_adds_witness :
  exists (st1 : StateDB) (h1 h2 : Heap) (p : ref),
    DB.AddBalance Sample.stateOf Sample.bob (Some 2%positive) (Sample.heapOf
        None) = Some (st1, h1) /\
    DB.AddBalance st1 Sample.bob (Some 3%positive) h1 = Some (st1, h2) /\
    DB.GetBalance st1 Sample.bob h2 = Some (st1, Some p, h2) /\
    ints h2 !! p = Some (5 + 10) /\
    p <> 2%positive /\
    p <> 3%positive /\
    p <> zeroBigN /\
    ints h2 !! 2%positive = Some 5 /\
    ints h2 !! 3%positive = Some 10 /\
    ints h2 !! zeroBigN = Some 0.
Proof.
  apply (AddBalance_twice_adds Sample.stateOf Sample.bob 2%positive 3%positive
             5 10 (Sample.heapOf None)).
  - split; [reflexivity |]. exists 1%positive, (mkTree 1%positive ∅).
    repeat split; reflexivity.
  - reflexivity.
  - reflexivity.
  - reflexivity.
  - lia.
  - lia.
Defined.

Lemma SetBalance_shares_the_callers_integer_witness :
  exists h1 h2 : Heap,
    Obj.SetBalance 1%positive (Some 3%positive) (Sample.heapOf None) = Some
        ((), h1) /\
    Obj.GetBalance 1%positive h1 = Some (Some 3%positive, h1) /\
    Obj.SubBalance 1%positive (Some 2%positive) h1 = Some ((), h2) /\
    Obj.GetBalance 1%positive h2 = Some (Some 3%positive, h2) /\
    ints h2 !! 3%positive = Some (10 - 5).
Proof.
  apply (SetBalance_shares_the_callers_integer 1%positive (Sample.account
             None) 3%positive 2%positive 10 5 (Sample.heapOf None)).
  - reflexivity.
  - reflexivity.
  - reflexivity.
  - lia.
  - lia.
Defined.

Lemma SubBalance_undoes_AddBalance_witness :
  exists (h1 h2 : Heap) (p : ref),
    Obj.AddBalance 1%positive (Some 2%positive) (Sample.heapOf None) = Some
        ((), h1) /\
    Obj.SubBalance 1%positive (Some 2%positive) h1 = Some ((), h2) /\
    Obj.GetBalance 1%positive h2 = Some (Some p, h2) /\
    ints h2 !! p = Some 0 /\
    ints (Sample.heapOf None) !! p = None /\
    forall q : ref, q <> p -> ints h2 !! q = ints (Sample.heapOf None) !! q.
Proof.
  apply (SubBalance_undoes_AddBalance 1%positive (Sample.account None)
             2%positive 0 5 (Sample.heapOf None)).
  - reflexivity.
  - reflexivity.
  - lia.
  - reflexivity.
  - lia.
Defined.

Lemma SubNonce_undoes_AddNonce_witness :
  exists (h1 : Heap) (m : Z),
    Obj.AddNonce 1%positive 7 (Sample.heapOf None) = Some ((), h1) /\
    Obj.GetNonce 1%positive h1 = Some (m, h1) /\
    0 <= m < 2 ^ 64 /\
    m = (nonce (Sample.account None) + 7) `mod` 2 ^ 64 /\
    Obj.SubNonce 1%positive 7 h1 = Some ((), Sample.heapOf None).
Proof.
  apply (SubNonce_undoes_AddNonce 1%positive (Sample.account None) 7
             (Sample.heapOf None)).
  - reflexivity.
  - cbn [nonce Sample.account]; lia.
Defined.

Lemma SubNonce_wraps_below_zero_witness :
  exists h1 : Heap,
    Obj.SubNonce 1%positive 1 (Sample.heapOf None) = Some ((), h1) /\
    Obj.GetNonce 1%positive h1 = Some (2 ^ 64 - (1 - nonce (Sample.account
        None)), h1) /\
    nonce (Sample.account None) < 2 ^ 64 - (1 - nonce (Sample.account None)).
Proof.
  apply (SubNonce_wraps_below_zero 1%positive (Sample.account None) 1
             (Sample.heapOf None)).
  - reflexivity.
  - cbn [nonce Sample.account]; lia.
  - cbn [nonce Sample.account]; lia.
  - lia.
Defined.

Lemma GetStateObj_is_idempotent_witness :
  DB.GetStateObj Sample.stateOf Sample.alice (Sample.heapOf None) = Some
      (Sample.stateOf, Some 1%positive, Sample.heapOf None) /\
  (Some 1%positive = None -> Sample.stateOf = Sample.stateOf /\ Sample.heapOf
      None = Sample.heapOf None) /\
  forall r : ref, Some 1%positive = Some r -> db_objs Sample.stateOf !!
      Sample.alice = Some r.
Proof.
  apply (GetStateObj_is_idempotent Sample.stateOf Sample.alice (Sample.heapOf
             None) Sample.stateOf (Some 1%positive) (Sample.heapOf None)).
  - reflexivity.
Defined.

Lemma SetNonce_then_GetNonce_witness :
  exists (st1 : StateDB) (h1 h2 : Heap),
    DB.SetNonce Sample.stateOf Sample.alice 7 (Sample.heapOf None) = Some
        (st1, h1) /\
    DB.GetNonce st1 Sample.alice h1 = Some (st1, 7, h1) /\
    DB.AddNonce st1 Sample.alice 5 h1 = Some (st1, h2) /\
    DB.GetNonce st1 Sample.alice h2 = Some (st1, (7 + 5) `mod` 2 ^ 64, h2).
Proof.
  apply (SetNonce_then_GetNonce Sample.stateOf Sample.alice 7 5 (Sample.heapOf
             None)).
  - left. eexists. reflexivity.
  - intros a r Ha. cbn [db_objs Sample.stateOf] in Ha.
    apply lookup_singleton_Some in Ha as [_ <-]. eexists. reflexivity.
Defined.

Lemma SetCode_then_GetCode_witness :
  exists (st1 : StateDB) (r : ref) (h1 : Heap),
    DB.SetCode Sample.stateOf Sample.alice (Some [x60]) (Sample.heapOf None) =
        Some (st1, h1) /\
    DB.GetCode st1 Sample.alice h1 = Some (st1, Some [x60], h1) /\
    DB.GetStateObj st1 Sample.alice h1 = Some (st1, Some r, h1) /\
    Obj.GetCode r h1 = Some (Some [x60], h1) /\
    Obj.GetData r h1 = Some (Some [x60], h1) /\
    Obj.Code r None h1 = Some (Some [x60], h1) /\
    DB.GetCodeSize st1 Sample.alice h1 = Some (st1, 0, h1) /\
    DB.GetCodeHash st1 Sample.alice h1 = Some (st1, HashZ, h1).
Proof.
  apply (SetCode_then_GetCode Sample.stateOf Sample.alice (Some [x60]) None
             (Sample.heapOf None)).
  - left. eexists. reflexivity.
  - intros a r Ha. cbn [db_objs Sample.stateOf] in Ha.
    apply lookup_singleton_Some in Ha as [_ <-]. eexists. reflexivity.
Defined.

Lemma nil_amount_still_makes_the_account_witness :
  exists (st1 : StateDB) (h1 : Heap) (new : ref),
    DB.AddBalance Sample.stateOf Sample.bob None (Sample.heapOf None) = Some
        (st1, h1) /\
    DB.SubBalance Sample.stateOf Sample.bob None (Sample.heapOf None) = Some
        (st1, h1) /\
    DB.SetBalance Sample.stateOf Sample.bob None (Sample.heapOf None) = Some
        (st1, h1) /\
    db_objs st1 = <[Sample.bob:=new]> (db_objs Sample.stateOf) /\
    sobjs (Sample.heapOf None) !! new = None /\
    sobjs h1 !! new = Some (freshObj Sample.stateOf Sample.bob) /\
    ints h1 = ints (Sample.heapOf None) /\
    DB.HashAccount Sample.stateOf Sample.bob (Sample.heapOf None) = Some
        (Sample.stateOf, false, Sample.heapOf None) /\
    DB.HashAccount st1 Sample.bob h1 = Some (st1, true, h1) /\
    DB.GetBalance st1 Sample.bob h1 = Some (st1, Some zeroBigN, h1).
Proof.
  apply (nil_amount_still_makes_the_account Sample.stateOf Sample.bob
             (Sample.heapOf None)).
  - split; [reflexivity |]. exists 1%positive, (mkTree 1%positive ∅).
    repeat split; reflexivity.
Defined.

Lemma CreateAccount_shares_the_balance_integer_witness :
  exists (st1 : StateDB) (h1 h2 : Heap),
    DB.CreateAccount Sample.stateOf Sample.alice (Sample.heapOf (Some
        2%positive)) = Some (st1, h1) /\
    DB.SubBalance st1 Sample.alice (Some 2%positive) h1 = Some (st1, h2) /\
    DB.GetBalance st1 Sample.alice h2 = Some (st1, Some 2%positive, h2) /\
    DB.GetBalance Sample.stateOf Sample.alice h2 = Some (Sample.stateOf, Some
        2%positive, h2) /\
    ints h2 !! 2%positive = Some (5 - 5) /\
    DB.GetNonce st1 Sample.alice h2 = Some (st1, 0, h2) /\
    DB.GetNonce Sample.stateOf Sample.alice h2 = Some (Sample.stateOf, nonce
        (Sample.account (Some 2%positive)), h2).
Proof.
  apply (CreateAccount_shares_the_balance_integer Sample.stateOf
             Sample.stateOf Sample.alice 1%positive (Sample.account (Some
             2%positive)) 2%positive 5 2%positive 5 (Sample.heapOf (Some
             2%positive))).
  - reflexivity.
  - reflexivity.
  - reflexivity.
  - reflexivity.
  - reflexivity.
  - reflexivity.
  - lia.
  - lia.
Defined.

Lemma GetStateValue_cache_then_storage_witness :
  (forall val : slice, default ∅ (cacheStorage Sample.bufferedAccount) !!
      Sample.slot = Some val -> Obj.GetStateValue 1%positive Sample.slot
      Sample.heapBuffered = Some (val, Sample.heapBuffered)) /\
  (default ∅ (cacheStorage Sample.bufferedAccount) !! Sample.slot = None ->
      forall (d : ref) (S : Storage), db Sample.bufferedAccount = Some d ->
      stores Sample.heapBuffered !! d = Some S -> exists h' : Heap,
      Obj.GetStateValue 1%positive Sample.slot Sample.heapBuffered = Some
      (subtree S Sample.bufferedAccount !! SHA256 (Address_Bytes (address
      Sample.bufferedAccount) ++ Sample.slot), h') /\ ints h' = ints
      Sample.heapBuffered /\ sobjs h' = sobjs Sample.heapBuffered /\ stores h'
      = stores Sample.heapBuffered /\ trees Sample.heapBuffered ⊆ trees h').
Proof.
  apply (GetStateValue_cache_then_storage 1%positive Sample.bufferedAccount
             Sample.slot Sample.heapBuffered).
  - reflexivity.
Defined.

Lemma SetState_last_write_wins_witness :
  exists h1 h2 : Heap,
    Obj.SetState 1%positive Sample.slot Sample.slotValue (Sample.heapOf None)
        = Some ((), h1) /\
    Obj.SetState 1%positive Sample.slot None h1 = Some ((), h2) /\
    Obj.GetStateValue 1%positive Sample.slot h2 = Some (None, h2) /\
    (forall key' : list byte, key' <> Sample.slot -> fst <$> Obj.GetStateValue
        1%positive key' h2 = fst <$> Obj.GetStateValue 1%positive key'
        (Sample.heapOf None)) /\
    forall (so' : ref) (key' : list byte), so' <> 1%positive -> fst <$>
        Obj.GetStateValue so' key' h2 = fst <$> Obj.GetStateValue so' key'
        (Sample.heapOf None).
Proof.
  apply (SetState_last_write_wins 1%positive (Sample.account None) ∅
             Sample.slot Sample.slotValue None (Sample.heapOf None)).
  - reflexivity.
  - reflexivity.
Defined.

Lemma makeStateKey_names_the_account_witness :
  exists d1 d2 : list byte,
    Obj.makeStateKey 1%positive Sample.slot Sample.heapTwins = Some (d1,
        Sample.heapTwins) /\
    Obj.makeStateKey 2%positive [] Sample.heapTwins = Some (d2,
        Sample.heapTwins) /\
    (d1 = d2 <-> address (Sample.account (Some 2%positive)) = address
        Sample.twin /\ Sample.slot = []).
Proof.
  apply (makeStateKey_names_the_account 1%positive 2%positive (Sample.account
             (Some 2%positive)) Sample.twin Sample.slot [] Sample.heapTwins).
  - intros x y E. exact E.
  - intros x y. apply vec_to_list_inj2.
  - intros a b. etrans; [apply length_vec_to_list |].
    symmetry. apply length_vec_to_list.
  - reflexivity.
  - reflexivity.
Defined.

Lemma SetState_panics_on_a_loaded_object_witness :
  exists (st1 : StateDB) (r : ref) (o : stateObject) (h1 : Heap),
    DB.GetStateObj Sample.stateEmpty Sample.alice Sample.heapStored = Some
        (st1, Some r, h1) /\
    sobjs h1 !! r = Some o /\
    cacheStorage o = None /\
    db o = None /\
    extra o = None /\
    Obj.SetState r Sample.slot Sample.slotValue h1 = None.
Proof.
  apply (SetState_panics_on_a_loaded_object Sample.stateEmpty Sample.alice
             1%positive (mkTree 1%positive {[SHA256 (Address_Bytes Sample.alice) :=
             Sample.storedRecord]}) Sample.storedRecord Sample.slot Sample.slotValue
             Sample.heapStored).
  - reflexivity.
  - reflexivity.
  - reflexivity.
  - apply lookup_singleton_eq.
Defined.


Lemma Encode_reads_the_persisted_fields_witness :
  fst <$> Obj.Encode 1%positive Sample.heapTwins = fst <$> Obj.Encode
      2%positive Sample.heapTwins.
Proof.
  apply (Encode_reads_the_persisted_fields 1%positive 2%positive
             (Sample.account (Some 2%positive)) Sample.twin Sample.heapTwins).
  - reflexivity.
  - reflexivity.
  - reflexivity.
  - reflexivity.
  - reflexivity.
  - reflexivity.
  - reflexivity.
Defined.

Lemma GetStateObj_reads_the_record_witness :
  exists (st1 : StateDB) (r : ref) (o' : stateObject) (h1 : Heap),
    DB.GetStateObj Sample.stateEmpty Sample.alice Sample.heapStored = Some
        (st1, Some r, h1) /\
    db_objs st1 = <[Sample.alice:=r]> (db_objs Sample.stateEmpty) /\
    sobjs h1 !! r = Some o' /\
    address o' = address (Sample.account (Some 2%positive)) /\
    nonce o' = nonce (Sample.account (Some 2%positive)) /\
    slice_bytes (code o') = slice_bytes (code (Sample.account (Some
        2%positive))) /\
    stateRoot o' = stateRoot (Sample.account (Some 2%positive)) /\
    balance_text h1 o' = Some "5" /\
    merkleTree o' = Some 1%positive /\
    extra o' = None /\
    cacheStorage o' = None /\
    db o' = None.
Proof.
  apply (GetStateObj_reads_the_record sample_codec_inverts sample_address_text
             sample_hash_bytes Sample.stateEmpty Sample.alice 1%positive (mkTree
             1%positive {[SHA256 (Address_Bytes Sample.alice) :=
             Sample.storedRecord]}) (Sample.account (Some 2%positive)) "5"
             (Sample.heapOf (Some 2%positive)) Sample.heapStored).
  - reflexivity.
  - cbn [nonce Sample.account]; lia.
  - reflexivity.
  - reflexivity.
  - reflexivity.
  - apply lookup_singleton_eq.
Defined.


Lemma UpdateAll_changes_only_storage_roots_witness :
  exists h' : Heap,
    DB.UpdateAll Sample.stateOf (Sample.heapOf None) = Some (Sample.stateOf,
        h') /\
    ints h' = ints (Sample.heapOf None) /\
    stores h' = stores (Sample.heapOf None) /\
    (forall (r : ref) (o : stateObject), sobjs (Sample.heapOf None) !! r =
        Some o -> exists rt : Hash, sobjs h' !! r = Some (with_stateRoot o
        rt)) /\
    (forall r : ref, (forall a : Address, db_objs Sample.stateOf !! a <> Some
        r) -> sobjs h' !! r = sobjs (Sample.heapOf None) !! r) /\
    forall (t : ref) (T : Tree), trees (Sample.heapOf None) !! t = Some T ->
        is_Some (trees h' !! t).
Proof.
  apply (UpdateAll_changes_only_storage_roots Sample.stateOf (Sample.heapOf
             None)).
  - intros a r Ha. cbn [db_objs Sample.stateOf] in Ha.
    apply lookup_singleton_Some in Ha as [_ <-].
    exists (Sample.account None), 1%positive, ∅, 1%positive,
      (mkTree 1%positive ∅), big.nilText.
    repeat split; reflexivity.
Defined.

Lemma Exist_and_Empty_ignore_the_state_witness :
  DB.HashAccount Sample.stateOf Sample.bob (Sample.heapOf None) = Some
      (Sample.stateOf, false, Sample.heapOf None) /\
  DB.Exist Sample.stateOf Sample.bob (Sample.heapOf None) = Some
      (Sample.stateOf, true, Sample.heapOf None) /\
  exists (st1 : StateDB) (h1 : Heap) (p : ref), DB.AddBalance Sample.stateOf
      Sample.bob (Some 2%positive) (Sample.heapOf None) = Some (st1, h1) /\
      DB.GetBalance st1 Sample.bob h1 = Some (st1, Some p, h1) /\ ints h1 !! p
      = Some 5 /\ DB.Empty st1 Sample.bob h1 = Some (st1, true, h1) /\
      DB.HasSuicided st1 Sample.bob h1 = Some (st1, true, h1).
Proof.
  apply (Exist_and_Empty_ignore_the_state Sample.stateOf Sample.bob 2%positive
             5 (Sample.heapOf None)).
  - split; [reflexivity |]. exists 1%positive, (mkTree 1%positive ∅).
    repeat split; reflexivity.
  - reflexivity.
  - reflexivity.
  - lia.
Defined.

Lemma Less_orders_newest_first_witness :
  api.Less Sample.wallets 0 0 = Some false /\
  (api.Less Sample.wallets 0 1 = Some true <-> api.newTime {| api.addr :=
      Sample.bob; api.newTime := 1 |} < api.newTime {| api.addr :=
      Sample.alice; api.newTime := 3 |}) /\
  (api.Less Sample.wallets 0 1 = Some true -> api.Less Sample.wallets 1 0 =
      Some false) /\
  (api.Less Sample.wallets 0 1 = Some true -> api.Less Sample.wallets 1 2 =
      Some true -> api.Less Sample.wallets 0 2 = Some true) /\
  (api.Less Sample.wallets 0 1 = Some false -> api.Less Sample.wallets 1 0 =
      Some false -> api.newTime {| api.addr := Sample.alice; api.newTime := 3
      |} = api.newTime {| api.addr := Sample.bob; api.newTime := 1 |}).
Proof.
  apply (Less_orders_newest_first Sample.wallets 0 1 2 (api.mkWallet
             Sample.alice 3) (api.mkWallet Sample.bob 1) (api.mkWallet Sample.alice
             2)).
  - reflexivity.
  - reflexivity.
  - reflexivity.
Defined.

Lemma Swap_exchanges_two_elements_witness :
  api.Len [Some {| api.addr := Sample.alice; api.newTime := 2 |}; Some {|
      api.addr := Sample.bob; api.newTime := 1 |}; Some {| api.addr :=
      Sample.alice; api.newTime := 3 |}] = api.Len Sample.wallets /\
  api.index [Some {| api.addr := Sample.alice; api.newTime := 2 |}; Some {|
      api.addr := Sample.bob; api.newTime := 1 |}; Some {| api.addr :=
      Sample.alice; api.newTime := 3 |}] 0 = api.index Sample.wallets 2 /\
  api.index [Some {| api.addr := Sample.alice; api.newTime := 2 |}; Some {|
      api.addr := Sample.bob; api.newTime := 1 |}; Some {| api.addr :=
      Sample.alice; api.newTime := 3 |}] 2 = api.index Sample.wallets 0 /\
  (forall k : Z, k <> 0 -> k <> 2 -> api.index [Some {| api.addr :=
      Sample.alice; api.newTime := 2 |}; Some {| api.addr := Sample.bob;
      api.newTime := 1 |}; Some {| api.addr := Sample.alice; api.newTime := 3
      |}] k = api.index Sample.wallets k) /\
  [Some {| api.addr := Sample.alice; api.newTime := 2 |}; Some {| api.addr :=
      Sample.bob; api.newTime := 1 |}; Some {| api.addr := Sample.alice;
      api.newTime := 3 |}] ≡ₚ Sample.wallets /\
  api.Swap [Some {| api.addr := Sample.alice; api.newTime := 2 |}; Some {|
      api.addr := Sample.bob; api.newTime := 1 |}; Some {| api.addr :=
      Sample.alice; api.newTime := 3 |}] 0 2 = Some Sample.wallets /\
  api.Less [Some {| api.addr := Sample.alice; api.newTime := 2 |}; Some {|
      api.addr := Sample.bob; api.newTime := 1 |}; Some {| api.addr :=
      Sample.alice; api.newTime := 3 |}] 0 2 = api.Less Sample.wallets 2 0.
Proof.
  apply (Swap_exchanges_two_elements Sample.wallets 0 2 [Some (api.mkWallet
             Sample.alice 2); Some (api.mkWallet Sample.bob 1); Some (api.mkWallet
             Sample.alice 3)]).
  - reflexivity.
Defined.

Lemma coverState2Resp_of_a_cached_account_witness :
  exists (resp : api.StateObjResp) (text : string),
    api.coverState2Resp (Some Sample.stateOf) Sample.alice (Sample.heapOf
        (Some 2%positive)) = Some (Some Sample.stateOf, Some resp,
        Sample.heapOf (Some 2%positive)) /\
    api.Balance resp = Some text /\
    big.SetString10 text = Some 5 /\
    api.Nonce resp = nonce (Sample.account (Some 2%positive)) /\
    (api.Code resp = None <-> slice_bytes (code (Sample.account (Some
        2%positive))) = []) /\
    (forall s : string, api.Code resp = Some s -> exists digits : string, s =
        "0x" +:+ digits /\ hex.DecodeString digits = Some (slice_bytes (code
        (Sample.account (Some 2%positive))))) /\
    (api.Extra resp = None <-> slice_bytes (extra (Sample.account (Some
        2%positive))) = []) /\
    (forall s : string, api.Extra resp = Some s -> exists digits : string, s =
        "0x" +:+ digits /\ hex.DecodeString digits = Some (slice_bytes (extra
        (Sample.account (Some 2%positive))))) /\
    (api.StateRoot resp = None <-> Hash_Bytes (stateRoot (Sample.account (Some
        2%positive))) = Hash_Bytes HashZ) /\
    forall x : Hash, api.StateRoot resp = Some x -> x = stateRoot
        (Sample.account (Some 2%positive)).
Proof.
  apply (coverState2Resp_of_a_cached_account Sample.stateOf Sample.alice
             1%positive (Sample.account (Some 2%positive)) 5 (Sample.heapOf (Some
             2%positive))).
  - reflexivity.
  - reflexivity.
  - reflexivity.
Defined.

Lemma coverState2Resp_makes_the_account_witness :
  exists (st1 : StateDB) (h1 : Heap) (new : ref),
    api.coverState2Resp (Some Sample.stateOf) Sample.bob (Sample.heapOf None)
        = Some (Some st1, Some {| api.Balance := Some (big.Text10 0);
        api.Nonce := 0; api.Extra := None; api.Code := None; api.StateRoot :=
        None |}, h1) /\
    db_objs st1 = <[Sample.bob:=new]> (db_objs Sample.stateOf) /\
    sobjs (Sample.heapOf None) !! new = None /\
    sobjs h1 !! new = Some (freshObj Sample.stateOf Sample.bob) /\
    DB.HashAccount Sample.stateOf Sample.bob (Sample.heapOf None) = Some
        (Sample.stateOf, false, Sample.heapOf None) /\
    DB.HashAccount st1 Sample.bob h1 = Some (st1, true, h1) /\
    api.coverState2Resp None Sample.bob (Sample.heapOf None) = Some (None,
        None, Sample.heapOf None).
Proof.
  apply (coverState2Resp_makes_the_account Sample.stateOf Sample.bob 0
             (Sample.heapOf None)).
  - split; [reflexivity |]. exists 1%positive, (mkTree 1%positive ∅).
    repeat split; reflexivity.
  - reflexivity.
Defined.

Lemma GetOrNewStateObj_is_idempotent_witness :
  exists (st1 : StateDB) (r : ref) (h1 : Heap),
    DB.GetOrNewStateObj Sample.stateOf Sample.bob (Sample.heapOf None)
      = Some (st1, r, h1) /\
    DB.GetOrNewStateObj st1 Sample.bob h1 = Some (st1, r, h1) /\
    DB.GetStateObj st1 Sample.bob h1 = Some (st1, Some r, h1) /\
    DB.HashAccount st1 Sample.bob h1 = Some (st1, true, h1).
Proof.
  eexists _, _, _. split; [reflexivity |].
  apply (GetOrNewStateObj_is_idempotent Sample.stateOf Sample.bob
           (Sample.heapOf None)).
  reflexivity.
Defined.

End MoreInstances.
